(** * Portfolio valuation and performance analytics of [script.js]

    A shallow embedding of the analytics core of the dashboard script:
    [analyzePortfolio] (alignment of the price series on one date axis,
    forward fill, currency conversion, valuation, return / CAGR / drawdown,
    composition snapshots) and [calcPortfolioMetrics] (the range prober used
    for the preset portfolios), followed by the properties proved about them.

    The file has three parts: the functions of the script, the notions of
    the specification they are compared with (and a few sample inputs), and
    the properties.

    JavaScript numbers are modelled by [JS.num]: exact rationals extended
    with the two infinities and NaN.  Rounding of binary64 arithmetic and the
    sign of zero are not modelled (a zero is a positive zero); every other
    rule of the arithmetic used by the script (NaN propagation, division by
    zero, comparisons with NaN, truthiness, ToNumber of [null] and
    [undefined]) is.  What the script takes from its environment is a
    parameter of the embedding: the network ([fetchHistory]), the time zone
    of [Date] ([ymd]), [Math.pow] and [Number.prototype.toFixed]. *)

From stdpp Require Import gmap strings list sorting numbers pretty.
From Stdlib Require Import QArith Qabs Qround Lqa Lia.

#[local] Close Scope Q_scope.
#[local] Open Scope Z_scope.
#[local] Open Scope nat_scope.
#[local] Open Scope string_scope.
#[local] Open Scope list_scope.

(** ** JavaScript values *)

Module JS.

Inductive num : Type :=
  | Fin (q : Q)
  | PInf
  | NInf
  | NaN.

Definition Qltb (a b : Q) : bool := negb (Qle_bool b a).
Definition Qzerob (a : Q) : bool := (Qnum a =? 0)%Z.

Definition of_Z (z : Z) : num := Fin (inject_Z z).

Definition neg (x : num) : num :=
  match x with
  | Fin a => Fin (- a)
  | PInf => NInf
  | NInf => PInf
  | NaN => NaN
  end.

Definition add (x y : num) : num :=
  match x, y with
  | NaN, _ | _, NaN => NaN
  | Fin a, Fin b => Fin (a + b)
  | PInf, NInf | NInf, PInf => NaN
  | PInf, _ | _, PInf => PInf
  | NInf, _ | _, NInf => NInf
  end.

Definition sub (x y : num) : num :=
  match x, y with
  | NaN, _ | _, NaN => NaN
  | Fin a, Fin b => Fin (a - b)
  | PInf, PInf | NInf, NInf => NaN
  | PInf, _ | _, NInf => PInf
  | NInf, _ | _, PInf => NInf
  end.

(** Sign of a number that is not NaN: [Lt] negative, [Eq] zero, [Gt] positive. *)
Definition sign (x : num) : comparison :=
  match x with
  | Fin a => (Qnum a ?= 0)%Z
  | PInf => Gt
  | NInf => Lt
  | NaN => Eq
  end.

Definition signed_inf (s1 s2 : comparison) : num :=
  match s1, s2 with
  | Eq, _ | _, Eq => NaN
  | Gt, Gt | Lt, Lt => PInf
  | _, _ => NInf
  end.

Definition mul (x y : num) : num :=
  match x, y with
  | NaN, _ | _, NaN => NaN
  | Fin a, Fin b => Fin (a * b)
  | _, _ => signed_inf (sign x) (sign y)
  end.

Definition div (x y : num) : num :=
  match x, y with
  | NaN, _ | _, NaN => NaN
  | Fin a, Fin b =>
      if Qzerob b then
        match (Qnum a ?= 0)%Z with
        | Eq => NaN
        | Gt => PInf
        | Lt => NInf
        end
      else Fin (a / b)
  | Fin _, _ => Fin 0
  | _, Fin b => if Qltb b 0 then neg x else x
  | _, _ => NaN
  end.

(** [x < y]; false as soon as one side is NaN. *)
Definition ltb (x y : num) : bool :=
  match x, y with
  | NaN, _ | _, NaN => false
  | Fin a, Fin b => Qltb a b
  | NInf, NInf | PInf, _ | _, NInf => false
  | _, _ => true
  end.

Definition gtb (x y : num) : bool := ltb y x.

(** [x <= y]; false as soon as one side is NaN. *)
Definition leb (x y : num) : bool :=
  match x, y with
  | NaN, _ | _, NaN => false
  | Fin a, Fin b => Qle_bool a b
  | NInf, _ | _, PInf => true
  | _, _ => false
  end.

Definition is_finite (x : num) : bool :=
  match x with Fin _ => true | _ => false end.

Definition is_nan (x : num) : bool :=
  match x with NaN => true | _ => false end.

(** Equality of numbers as values (rationals compared by [Qeq]). *)
Definition eqv (x y : num) : Prop :=
  match x, y with
  | Fin a, Fin b => (a == b)%Q
  | PInf, PInf | NInf, NInf | NaN, NaN => True
  | _, _ => False
  end.

(** The values an element of a fetched array, a [Map] entry or a variable
    of the script can hold. *)
Inductive val : Type :=
  | Null
  | Undefined
  | Num (x : num).

Definition ToNumber (v : val) : num :=
  match v with
  | Null => Fin 0
  | Undefined => NaN
  | Num x => x
  end.

Definition ToBoolean (v : val) : bool :=
  match v with
  | Null | Undefined => false
  | Num (Fin a) => negb (Qzerob a)
  | Num NaN => false
  | Num _ => true
  end.

(** [a || b] *)
Definition or (a b : val) : val := if ToBoolean a then a else b.

(** [v !== null] *)
Definition not_null (v : val) : bool :=
  match v with Null => false | _ => true end.

(** [arr[i]]: [undefined] out of range. *)
Definition index (arr : list val) (i : nat) : val := default Undefined (arr !! i).

End JS.

(** ** Date keys

    [ymd] turns an epoch-seconds timestamp into the key [YYYY-MM-DD] of its
    calendar date.  The script reads the date fields in the browser's time
    zone, so the embedding of [analyzePortfolio] takes [ymd] as a parameter;
    [ymd_utc] is the function for a browser whose time zone is UTC. *)

Module DateKey.

(** [s.padStart(2, '0')] *)
Definition padStart2 (s : string) : string :=
  match String.length s with
  | 0 => "00"
  | 1 => "0" +:+ s
  | _ => s
  end.

(** Year, month (1..12) and day of month of a day count since 1970-01-01
    in the proleptic Gregorian calendar. *)
Definition civil (days : Z) : Z * Z * Z :=
  let z := (days + 719468)%Z in
  let era := (z / 146097)%Z in
  let doe := (z - era * 146097)%Z in
  let yoe := ((doe - doe / 1460 + doe / 36524 - doe / 146096) / 365)%Z in
  let doy := (doe - (365 * yoe + yoe / 4 - yoe / 100))%Z in
  let mp := ((5 * doy + 2) / 153)%Z in
  let d := (doy - (153 * mp + 2) / 5 + 1)%Z in
  let m := (if (mp <? 10)%Z then mp + 3 else mp - 9)%Z in
  let y := (yoe + era * 400 + (if (m <=? 2)%Z then 1 else 0))%Z in
  (y, m, d).

Definition ymd_utc (t : Z) : string :=
  let '(y, m, d) := civil (t / 86400)%Z in
  pretty y +:+ "-" +:+ padStart2 (pretty m) +:+ "-" +:+ padStart2 (pretty d).

(** The order of [Array.prototype.sort] without a comparator on strings:
    lexicographic on the character codes. *)
Definition le (a b : string) : Prop := String.leb a b = true.
Definition lt (a b : string) : Prop := String.ltb a b = true.

#[global] Instance le_dec a b : Decision (le a b).
Proof. unfold le. apply _. Defined.

#[global] Instance lt_dec a b : Decision (lt a b).
Proof. unfold lt. apply _. Defined.

End DateKey.

(** ** Inputs *)

(** What [fetchHistory] resolves to, when it is not [null]: the chart object
    of the quote service, with its [timestamp] array (absent when the service
    has no data for the range) and the array [indicators.quote[0].close],
    taken to be present (the script reads its elements without a check).
    The closes come from JSON: numbers and [null]. *)
Record history : Type := History {
  timestamp : option (list Z);
  close : list JS.val
}.

(** A series whose [timestamp] array is present: timestamps and closes. *)
Abbreviation series := (list Z * list JS.val)%type.

(** An entry of the user's [portfolio] object. *)
Record holding : Type := Holding {
  symbol : string;
  name : string;
  quantity : JS.num
}.

(** [array.forEach((x, idx) => ...)] over a state threaded through the calls. *)
Fixpoint forEach {A St : Type} (f : St -> A -> nat -> St) (l : list A) (idx : nat) (s : St) : St :=
  match l with
  | [] => s
  | x :: l' => forEach f l' (S idx) (f s x idx)
  end.

(** [s.endsWith(suffix)] *)
Definition endsWith (s suffix : string) : bool :=
  let n := String.length s in
  let k := String.length suffix in
  (k <=? n)%nat && String.eqb (String.substring (n - k) k s) suffix.

Definition isKRW (item : holding) : bool :=
  endsWith (symbol item) ".KS" || endsWith (symbol item) ".KQ".

(** [map.has(date)] and [map.get(date)] for a [Map] keyed by date strings. *)
Definition has (map : gmap string JS.val) (date : string) : bool :=
  bool_decide (is_Some (map !! date)).
Definition get (map : gmap string JS.val) (date : string) : JS.val :=
  default JS.Undefined (map !! date).

(** [map.has(date) && map.get(date) !== null] *)
Definition has_value (map : gmap string JS.val) (date : string) : bool :=
  has map date && JS.not_null (get map date).

(** [Set.prototype.add] on a set kept in insertion order. *)
Definition set_add (k : string) (s : list string) : list string :=
  if decide (k ∈ s) then s else s ++ [k].

(** The running-peak loop shared by both analyses:
    [values.forEach(v => { if (v > peak) peak = v;
                           const dd = (v - peak) / peak;
                           if (dd < maxDrawdown) maxDrawdown = dd; })]
    on the state [(peak, maxDrawdown)]. *)
Definition drawdown_step (st : JS.num * JS.num) (v : JS.num) : JS.num * JS.num :=
  let '(peak, maxDrawdown) := st in
  let peak := if JS.gtb v peak then v else peak in
  let drawdown := JS.div (JS.sub v peak) peak in
  (peak, if JS.ltb drawdown maxDrawdown then drawdown else maxDrawdown).

Definition drawdown_loop (values : list JS.num) : JS.num * JS.num :=
  foldl drawdown_step (JS.NInf, JS.Fin 0) values.

Definition maxDrawdown (values : list JS.num) : JS.num := snd (drawdown_loop values).

(** [portfolioValues[0]] and [portfolioValues[portfolioValues.length - 1]]. *)
Definition first_value (values : list JS.num) : JS.val :=
  match values with
  | [] => JS.Undefined
  | v :: _ => JS.Num v
  end.
Definition last_value (values : list JS.num) : JS.val :=
  match last values with
  | None => JS.Undefined
  | Some v => JS.Num v
  end.

(** ** [analyzePortfolio] *)

Module Analyze.

(** The state of the valuation loop over [sortedDates]. *)
Record loop_state : Type := LoopState {
  lastExchange : JS.val;
  lastPrices : list JS.val;
  portfolioValues : list JS.num;
  chartLabels : list string
}.

(** What the function hands to the statistics panel, the two pie charts and
    the line chart. *)
Record report : Type := Report {
  labels : list string;
  values : list JS.num;
  totalReturn : JS.num;
  cagr : JS.num;
  mdd : JS.num;
  startValues : list (string * JS.num);
  endValues : list (string * JS.num)
}.

Inductive outcome : Type :=
  | NoItems                (* the early return on an empty portfolio *)
  | Failed                 (* an exception reached the [catch] clause *)
  | Done (r : report).

(** [const rangeMap = { '10y': 10, '7y': 7, '5y': 5, '3y': 3, '1y': 1, '6mo': 0.5 }] *)
Definition rangeMap : gmap string JS.num :=
  list_to_map
    [("10y", JS.Fin 10); ("7y", JS.Fin 7); ("5y", JS.Fin 5);
     ("3y", JS.Fin 3); ("1y", JS.Fin 1); ("6mo", JS.Fin (1 # 2))].

(** [rangeMap[range] || 5]; [range] is one of the strings the range buttons
    carry, never the name of a member of [Object.prototype]. *)
Definition years (range : string) : JS.num :=
  JS.ToNumber
    (JS.or (from_option JS.Num JS.Undefined (rangeMap !! range)) (JS.Num (JS.Fin 5))).

Section WithEnvironment.

Variable ymd : Z -> string.
Variable Math_pow : JS.num -> JS.num -> JS.num.

(** [timestamp.forEach((t, i) => map.set(ymd(t), close[i]))] *)
Fixpoint set_closes (ts : list Z) (closes : list JS.val) (i : nat)
    (map : gmap string JS.val) : gmap string JS.val :=
  match ts with
  | [] => map
  | t :: ts' => set_closes ts' closes (S i) (<[ymd t := JS.index closes i]> map)
  end.

Definition dateToExchange (exchange : series) : gmap string JS.val :=
  set_closes exchange.1 exchange.2 0 ∅.

Definition dateToStocks (stocks : list (option series)) : list (gmap string JS.val) :=
  map (fun res => match res with
                  | None => ∅
                  | Some s => set_closes s.1 s.2 0 ∅
                  end) stocks.

(** [timestamp.forEach(t => allDatesSet.add(ymd(t)))] *)
Definition add_dates (ts : list Z) (s : list string) : list string :=
  foldl (fun s t => set_add (ymd t) s) s ts.

Definition allDatesSet (exchange : series) (stocks : list (option series)) : list string :=
  foldl (fun s res => match res with
                      | None => s
                      | Some r => add_dates r.1 s
                      end) (add_dates exchange.1 []) stocks.

Definition sortedDates (exchange : series) (stocks : list (option series)) : list string :=
  merge_sort DateKey.le (allDatesSet exchange stocks).

(** The body of [items.forEach((item, idx) => ...)] for one date, on the
    state [(lastPrices, dailyTotal)].  [dateToStocks] and [lastPrices] have
    one entry per item, so [idx] is always within both. *)
Definition item_step (maps : list (gmap string JS.val)) (date : string)
    (lastExchange : JS.val) (st : list JS.val * JS.num) (item : holding) (idx : nat)
    : list JS.val * JS.num :=
  let '(lastPrices, dailyTotal) := st in
  let priceMap := maps !!! idx in
  let '(price, lastPrices) :=
    if has_value priceMap date
    then (get priceMap date, <[idx := get priceMap date]> lastPrices)
    else (JS.index lastPrices idx, lastPrices) in
  let valueInKRW :=
    if isKRW item
    then JS.mul (JS.ToNumber price) (quantity item)
    else JS.mul (JS.mul (JS.ToNumber price) (quantity item)) (JS.ToNumber lastExchange) in
  (lastPrices, JS.add dailyTotal valueInKRW).

(** The body of [sortedDates.forEach(date => ...)]. *)
Definition date_step (items : list holding) (exchangeMap : gmap string JS.val)
    (maps : list (gmap string JS.val)) (st : loop_state) (date : string) : loop_state :=
  let lastExchange :=
    if has_value exchangeMap date then get exchangeMap date else lastExchange st in
  let '(lastPrices, dailyTotal) :=
    forEach (item_step maps date lastExchange) items 0 (lastPrices st, JS.Fin 0) in
  {| lastExchange := lastExchange;
     lastPrices := lastPrices;
     portfolioValues := portfolioValues st ++ [dailyTotal];
     chartLabels := chartLabels st ++ [date] |}.

(** The state before the loop: [close[0] || 1200] and [items.length] zeros. *)
Definition initial_state (items : list holding) (exchange : series) : loop_state :=
  {| lastExchange := JS.or (JS.index exchange.2 0) (JS.Num (JS.Fin 1200));
     lastPrices := replicate (length items) (JS.Num (JS.Fin 0));
     portfolioValues := [];
     chartLabels := [] |}.

(** The loop state after the dates [dates] (a prefix of [sortedDates] while
    the loop runs, [sortedDates] itself at its end). *)
Definition run (items : list holding) (exchange : series) (stocks : list (option series))
    (dates : list string) : loop_state :=
  foldl (date_step items (dateToExchange exchange) (dateToStocks stocks))
        (initial_state items exchange) dates.

Definition valuation (items : list holding) (exchange : series)
    (stocks : list (option series)) : loop_state :=
  run items exchange stocks (sortedDates exchange stocks).

(** [((finalValue - initialValue) / initialValue) * 100] *)
Definition totalReturn_of (values : list JS.num) : JS.num :=
  let initialValue := JS.ToNumber (first_value values) in
  let finalValue := JS.ToNumber (last_value values) in
  JS.mul (JS.div (JS.sub finalValue initialValue) initialValue) (JS.Fin 100).

Definition cagr_of (range : string) (values : list JS.num) : JS.num :=
  let initialValue := JS.ToNumber (first_value values) in
  let finalValue := JS.ToNumber (last_value values) in
  if JS.gtb initialValue (JS.Fin 0) && JS.gtb finalValue (JS.Fin 0)
  then JS.mul
         (JS.sub (Math_pow (JS.div finalValue initialValue) (JS.div (JS.Fin 1) (years range)))
                 (JS.Fin 1))
         (JS.Fin 100)
  else JS.Fin 0.

(** The [for] loop of [startValues]: the first valid price on the axis.
    The script computes it into [price] and never reads it again. *)
Definition first_valid_price (priceMap : gmap string JS.val) (dates : list string) : JS.val :=
  match List.find (has_value priceMap) dates with
  | Some d => get priceMap d
  | None => JS.Num (JS.Fin 0)
  end.

Definition startValue (exchangeMap : gmap string JS.val) (maps : list (gmap string JS.val))
    (dates : list string) (item : holding) (idx : nat) : string * JS.num :=
  let priceMap := maps !!! idx in
  let firstDate := head dates in
  let initialExchange :=
    match firstDate with
    | Some d => if has exchangeMap d then get exchangeMap d else JS.Num (JS.Fin 1200)
    | None => JS.Num (JS.Fin 1200)
    end in
  let val :=
    match firstDate with
    | Some d =>
        if has priceMap d then
          let val := JS.mul (JS.ToNumber (get priceMap d)) (quantity item) in
          if isKRW item then val else JS.mul val (JS.ToNumber initialExchange)
        else JS.Fin 0
    | None => JS.Fin 0
    end in
  (name item, val).

Definition endValue (final : loop_state) (item : holding) (idx : nat) : string * JS.num :=
  let price := JS.index (lastPrices final) idx in
  let val :=
    if JS.gtb (JS.ToNumber price) (JS.Fin 0) then
      let val := JS.mul (JS.ToNumber price) (quantity item) in
      if isKRW item then val else JS.mul val (JS.ToNumber (lastExchange final))
    else JS.Fin 0 in
  (name item, val).

Definition analyze (range : string) (items : list holding) (exchange : series)
    (stocks : list (option series)) : report :=
  let dates := sortedDates exchange stocks in
  let final := valuation items exchange stocks in
  {| labels := chartLabels final;
     values := portfolioValues final;
     totalReturn := totalReturn_of (portfolioValues final);
     cagr := cagr_of range (portfolioValues final);
     mdd := maxDrawdown (portfolioValues final);
     startValues := imap (fun idx item =>
                            startValue (dateToExchange exchange) (dateToStocks stocks)
                                       dates item idx) items;
     endValues := imap (fun idx item => endValue final item idx) items |}.

Variable fetchHistory : string -> string -> option history.

(** A fetched result as the rest of the function reads it; [None] when
    reading it throws (a result without its [timestamp] array). *)
Definition read_stock (res : option history) : option (option series) :=
  match res with
  | None => Some None
  | Some h =>
      match timestamp h with
      | None => None
      | Some ts => Some (Some (ts, close h))
      end
  end.

Definition analyzePortfolio (range : string) (portfolio : list holding) : outcome :=
  let items := portfolio in
  if bool_decide (length items = 0) then NoItems else
  match fetchHistory "KRW=X" range with
  | None => Failed
  | Some exchangeDataRaw =>
      let stockResultsRaw := map (fun item => fetchHistory (symbol item) range) items in
      match timestamp exchangeDataRaw, mapM read_stock stockResultsRaw with
      | Some ts, Some stocks => Done (analyze range items (ts, close exchangeDataRaw) stocks)
      | _, _ => Failed
      end
  end.

End WithEnvironment.

End Analyze.

(** ** [calcPortfolioMetrics] *)

Module Prober.

(** An entry of a preset portfolio's [items]. *)
Record item : Type := Item {
  symbol : string;
  weight : JS.num;
  name : string
}.

Record metrics : Type := Metrics {
  range : string;
  return_ : string;
  mdd : string
}.

(** [{ range: 'N/A', return: '0.00', mdd: '0.00' }] *)
Definition not_available : metrics :=
  {| range := "N/A"; return_ := "0.00"; mdd := "0.00" |}.

Definition ranges : list string := ["10y"; "5y"; "3y"; "1y"].

(** [!r || !r.timestamp || r.timestamp.length < 10] *)
Definition insufficient (r : option history) : bool :=
  match r with
  | None => true
  | Some h =>
      match timestamp h with
      | None => true
      | Some ts => (length ts <? 10)%nat
      end
  end.

(** [res.timestamp] of a result that passed the check above. *)
Definition times_of (r : option history) : list Z :=
  match r with
  | Some h => default [] (timestamp h)
  | None => []
  end.
Definition closes_of (r : option history) : list JS.val :=
  match r with
  | Some h => close h
  | None => []
  end.

(** [results.forEach(res => { if (res.timestamp[0] > maxStartTime) maxStartTime = res.timestamp[0]; })]
    from [maxStartTime = 0]. *)
Definition maxStartTime (results : list (option history)) : Z :=
  foldl (fun m res => match times_of res with
                      | t0 :: _ => if (t0 >? m)%Z then t0 else m
                      | [] => m
                      end) 0%Z results.

(** [arr.findIndex(p)]: [None] stands for [-1]. *)
Fixpoint findIndex {A : Type} (p : A -> bool) (l : list A) : option nat :=
  match l with
  | [] => None
  | x :: l' => if p x then Some 0 else S <$> findIndex p l'
  end.

(** [arr.slice(startIndex)]; [arr.slice(-1)] keeps the last element. *)
Definition slice {A : Type} (startIndex : option nat) (l : list A) : list A :=
  match startIndex with
  | Some k => drop k l
  | None => drop (length l - 1) l
  end.

Definition processedData (results : list (option history)) : list (list Z * list JS.val) :=
  let start := maxStartTime results in
  map (fun res =>
         let startIndex := findIndex (fun t => (t >=? start)%Z) (times_of res) in
         (slice startIndex (times_of res), slice startIndex (closes_of res)))
      results.

(** [Math.min(...lengths)]: [None] stands for [Infinity], the minimum of no
    argument. *)
Definition Math_min (lengths : list nat) : option nat :=
  match lengths with
  | [] => None
  | n :: ns => Some (foldl Nat.min n ns)
  end.

Definition minLen (data : list (list Z * list JS.val)) : option nat :=
  Math_min (map (fun d => length d.1) data).

(** [d.closes.map(p => p / startPrice)] with [startPrice = d.closes[0]] *)
Definition normPrices (data : list (list Z * list JS.val)) : list (list JS.num) :=
  map (fun d =>
         let startPrice := JS.index d.2 0 in
         map (fun p => JS.div (JS.ToNumber p) (JS.ToNumber startPrice)) d.2)
      data.

(** [normPrices[idx][i]] as a number: NaN when the row is too short. *)
Definition norm_at (norm : list (list JS.num)) (idx i : nat) : JS.num :=
  match (norm !!! idx) !! i with
  | Some x => x
  | None => JS.NaN
  end.

(** The value of the portfolio on day [i]. *)
Definition day_value (items : list item) (norm : list (list JS.num)) (i : nat) : JS.num :=
  forEach (fun val it idx => JS.add val (JS.mul (weight it) (norm_at norm idx i)))
          items 0 (JS.Fin 0).

Definition portfolioValues (items : list item) (norm : list (list JS.num)) (n : nat)
    : list JS.num :=
  map (day_value items norm) (seq 0 n).

(** [x[i]] of a timestamp array, as a number. *)
Definition time_at (times : list Z) (i : nat) : JS.num :=
  match times !! i with
  | Some t => JS.of_Z t
  | None => JS.NaN
  end.

Section WithEnvironment.

Variable Math_pow : JS.num -> JS.num -> JS.num.
Variable toFixed2 : JS.num -> string.
Variable fetchHistory : string -> string -> option history.

(** The statistics of a range that passed both checks; [n] is [minLen]. *)
Definition measure (rng : string) (items : list item)
    (data : list (list Z * list JS.val)) (n : nat) : metrics :=
  let values := portfolioValues items (normPrices data) n in
  let startVal := JS.ToNumber (first_value values) in
  let endVal := JS.ToNumber (last_value values) in
  let times := (data !!! 0).1 in
  let durationDays :=
    JS.div (JS.sub (time_at times (n - 1)) (time_at times 0)) (JS.Fin (3600 * 24)) in
  let years := JS.div durationDays (JS.Fin (1461 # 4)) in
  let cagr :=
    JS.mul (JS.sub (Math_pow (JS.div endVal startVal) (JS.div (JS.Fin 1) years)) (JS.Fin 1))
           (JS.Fin 100) in
  {| range := rng;
     return_ := toFixed2 cagr;
     mdd := toFixed2 (JS.mul (maxDrawdown values) (JS.Fin 100)) |}.

Definition fetch_all (items : list item) (rng : string) : list (option history) :=
  map (fun it => fetchHistory (symbol it) rng) items.

(** One turn of [for (const range of ranges)]: [Some (Some m)] when the turn
    returns [m], [Some None] when it ends in [continue], and [None] when it
    never ends (the [for] loop up to [Infinity], which only an empty item
    list reaches). *)
Definition try_range (items : list item) (rng : string) : option (option metrics) :=
  let results := fetch_all items rng in
  if existsb insufficient results then Some None else
  let data := processedData results in
  match minLen data with
  | None => None
  | Some n => if (n <? 120)%nat then Some None else Some (Some (measure rng items data n))
  end.

Fixpoint probe (items : list item) (rs : list string) : option metrics :=
  match rs with
  | [] => Some not_available
  | rng :: rs' =>
      match try_range items rng with
      | None => None
      | Some (Some m) => Some m
      | Some None => probe items rs'
      end
  end.

Definition calcPortfolioMetrics (items : list item) : option metrics :=
  probe items ranges.

End WithEnvironment.

End Prober.

(** ** [fetchYahooData], [fetchHistory] and [fetchStockData]

    The three functions are [async]; the embedding covers calls that are
    awaited one after another, each call taking the cache the previous one
    left.  (Two calls in flight for the same key share one promise, which
    this sequential reading does not cover.) *)

Module Fetch.

(** What [fetch] and [response.json()] give for one proxy URL: an exception
    (the request is rejected or aborted at the timeout, the body is not JSON,
    or it is JSON without an object to read [chart] from), a response that is
    not [ok], or a body, of which the function reads [data.chart.result]:
    [None] when [data.chart] or [data.chart.result] is falsy, else the
    array, whose elements are chart objects or [null]. *)
Inductive response (R : Type) : Type :=
  | Throws
  | NotOk
  | Body (result : option (list (option R))).

Arguments Throws {R}.
Arguments NotOk {R}.
Arguments Body {R} result.

(** [data.chart.result[0]]: a chart object, or a falsy value ([null], or
    [undefined] for an empty array), which the callers do not tell apart. *)
Definition first_result {R : Type} (result : list (option R)) : option R :=
  match result with
  | [] => None
  | r :: _ => r
  end.

(** [s.includes(c)] for a one-character string [c]. *)
Fixpoint includes (s : string) (c : Ascii.ascii) : bool :=
  match s with
  | EmptyString => false
  | String x s' => Ascii.eqb x c || includes s' c
  end.

(** [`${symbol}-${range}-${interval}`] *)
Definition cacheKey (symbol range interval : string) : string :=
  symbol +:+ "-" +:+ range +:+ "-" +:+ interval.

Definition rawUrl (symbol range interval : string) : string :=
  "https://query1.finance.yahoo.com/v8/finance/chart/" +:+ symbol +:+
  "?interval=" +:+ interval +:+ "&range=" +:+ range.

(** The interval [fetchHistory] asks for. *)
Definition history_interval (range : string) : string :=
  let interval := "1d" in
  let interval := if bool_decide (range ∈ ["10y"; "7y"; "5y"]) then "1wk" else interval in
  if String.eqb range "10y" then "1mo" else interval.

Section WithEnvironment.

Context {R : Type}.
Variable encodeURIComponent : string -> string.

Definition proxies (symbol range interval : string) : list string :=
  let encodedUrl := encodeURIComponent (rawUrl symbol range interval) in
  [ "https://api.allorigins.win/raw?url=" +:+ encodedUrl;
    "https://corsproxy.io/?url=" +:+ encodedUrl ].

(** [for (const proxyUrl of proxies)]: [Some r] when the loop returns
    [data.chart.result[0]], [None] when it runs out of proxies. *)
Fixpoint try_proxies (net : string -> response R) (urls : list string) : option (option R) :=
  match urls with
  | [] => None
  | proxyUrl :: urls' =>
      match net proxyUrl with
      | Body (Some result) => Some (first_result result)
      | _ => try_proxies net urls'
      end
  end.

(** One awaited call: the value the promise resolves to and [apiCache]
    afterwards.  The promise is stored under the key when the call starts;
    the key is deleted again when every proxy has failed. *)
Definition fetchYahooData (net : string -> response R) (apiCache : gmap string (option R))
    (symbol range interval : string) : option R * gmap string (option R) :=
  let cacheKey := cacheKey symbol range interval in
  match apiCache !! cacheKey with
  | Some cached => (cached, apiCache)
  | None =>
      match try_proxies net (proxies symbol range interval) with
      | Some r => (r, <[cacheKey := r]> apiCache)
      | None => (None, delete cacheKey (<[cacheKey := None]> apiCache))
      end
  end.

Definition fetchHistory (net : string -> response R) (apiCache : gmap string (option R))
    (symbol range : string) : option R * gmap string (option R) :=
  fetchYahooData net apiCache symbol range (history_interval range).

End WithEnvironment.

(** [result.indicators.quote[0]]: each array may be missing. *)
Record quote : Type := Quote {
  open : option (list JS.val);
  high : option (list JS.val);
  low : option (list JS.val);
  close : option (list JS.val)
}.

(** [result.meta]; a missing name is [None]. *)
Record meta_data : Type := Meta {
  regularMarketPrice : JS.val;
  chartPreviousClose : JS.val;
  shortName : option string;
  longName : option string
}.

(** The chart object [data.chart.result[0]] as [fetchStockData] reads it;
    [indicators] is [result.indicators.quote[0]], [None] when reading it
    throws, and so is [meta] for [result.meta]. *)
Record chart : Type := Chart {
  timestamp : option (list Z);
  indicators : option quote;
  meta : option meta_data
}.

(** An element of [validData]. *)
Record candle : Type := Candle {
  time : Z;
  o : JS.val;
  h : JS.val;
  l : JS.val;
  c : JS.val
}.

(** What [fetchStockData] returns when it is not [null]. *)
Record stock_data : Type := StockData {
  ohlc : list candle;
  prices : list JS.val;
  timestamps : list Z;
  currentPrice : JS.val;
  prevClose : JS.val;
  lastUpdated : option Z;
  name : string
}.

(** [(t, i) => ({ time: t, o: opens[i], h: highs[i], l: lows[i], c: closes[i] })] *)
Definition candle_at (opens highs lows closes : list JS.val) (i : nat) (t : Z) : candle :=
  {| time := t;
     o := JS.index opens i;
     h := JS.index highs i;
     l := JS.index lows i;
     c := JS.index closes i |}.

(** [item => item.c !== null && item.o !== null] *)
Definition valid (item : candle) : bool := JS.not_null (c item) && JS.not_null (o item).

Definition validData (timestamps : list Z) (quotes : quote) : list candle :=
  let opens := default [] (open quotes) in
  let highs := default [] (high quotes) in
  let lows := default [] (low quotes) in
  let closes := default [] (close quotes) in
  List.filter valid (imap (candle_at opens highs lows closes) timestamps).

(** [a || b] on strings that may be missing: the empty string is falsy. *)
Definition or_name (a : option string) (b : string) : string :=
  match a with
  | Some s => if String.eqb s "" then b else s
  | None => b
  end.

(** The [try] block of [fetchStockData]; [None] when it throws. *)
Definition parse (symbol : string) (result : chart) : option stock_data :=
  let timestamps := default [] (timestamp result) in
  match indicators result, meta result with
  | Some quotes, Some m =>
      let validData := validData timestamps quotes in
      Some {| ohlc := validData;
              prices := map c validData;
              timestamps := map time validData;
              currentPrice := regularMarketPrice m;
              prevClose := chartPreviousClose m;
              lastUpdated := last (map time validData);
              name := or_name (shortName m) (or_name (longName m) symbol) |}
  | _, _ => None
  end.

(** One awaited call; [stocks] is [cloudCache.stocks]. *)
Definition fetchStockData (encodeURIComponent : string -> string)
    (net : string -> response chart) (apiCache : gmap string (option chart))
    (stocks : gmap string stock_data) (symbol range interval : string)
    : option stock_data * gmap string (option chart) :=
  let '(result, apiCache) :=
    fetchYahooData encodeURIComponent net apiCache symbol range interval in
  (match result with
   | None => stocks !! symbol
   | Some result => parse symbol result
   end, apiCache).

End Fetch.

(** ** The user's portfolio: [addToPortfolio], [removeFromPortfolio], the
    quantity input, [fetchExchangeRate] and [copyPortfolio] *)

Module Portfolio.

(** The variables the functions share: the [portfolio] object (its entries
    are read by [analyzePortfolio] as holdings; their [currency] field is
    the constant ['USD'] and is never read), the item [myPortfolio] of
    [localStorage] as [savePortfolio] last wrote it, and
    [currentExchangeRate].  Symbols are upper-case ticker codes, never the
    name of a member of [Object.prototype]. *)
Record state : Type := State {
  portfolio : gmap string holding;
  myPortfolio : gmap string holding;
  currentExchangeRate : JS.val
}.

(** [let portfolio = {}] and [let currentExchangeRate = 1400], with nothing
    saved in [localStorage]. *)
Definition initial : state :=
  {| portfolio := ∅; myPortfolio := ∅; currentExchangeRate := JS.Num (JS.Fin 1400) |}.

(** [portfolio = p; savePortfolio()] *)
Definition save (p : gmap string holding) (st : state) : state :=
  {| portfolio := p; myPortfolio := p; currentExchangeRate := currentExchangeRate st |}.

(** What [JSON.parse(localStorage.getItem('myPortfolio'))] gives at start-up:
    nothing usable ([null], or text that cannot be parsed), an array (the
    old format) or an object. *)
Inductive saved_item : Type :=
  | NotSaved
  | SavedArray (items : list holding)
  | SavedObject (p : gmap string holding).

(** The start-up code; [stored] is the content of [localStorage]. *)
Definition load (saved : saved_item) (stored : gmap string holding) : state :=
  let st := {| portfolio := ∅; myPortfolio := stored;
               currentExchangeRate := JS.Num (JS.Fin 1400) |} in
  match saved with
  | NotSaved => st
  | SavedArray items =>
      save (foldl (fun p item => <[symbol item := item]> p) ∅ items) st
  | SavedObject p =>
      {| portfolio := p; myPortfolio := stored;
         currentExchangeRate := JS.Num (JS.Fin 1400) |}
  end.

(** The boolean tells whether the function raised its [alert]. *)
Definition addToPortfolio (symbol name : string) (st : state) : state * bool :=
  if bool_decide (is_Some (portfolio st !! symbol)) then (st, true)
  else (save (<[symbol := {| symbol := symbol; name := name; quantity := JS.Fin 1 |}]>
                (portfolio st)) st, false).

Definition removeFromPortfolio (symbol : string) (st : state) : state * bool :=
  if bool_decide (is_Some (portfolio st !! symbol))
  then (save (delete symbol (portfolio st)) st, false)
  else (st, true).

(** The [input] listener of a quantity field; [val] is [parseFloat] of the
    field's text. *)
Definition setQuantity (sym : string) (val : JS.num) (st : state) : state :=
  if JS.leb (JS.Fin 0) val && bool_decide (is_Some (portfolio st !! sym))
  then save (alter (fun item => {| symbol := symbol item; name := name item;
                                   quantity := val |}) sym (portfolio st)) st
  else st.

(** [fetchExchangeRate]; [exchangeData] is what [fetchStockData] gave for
    [KRW=X], reduced to its [currentPrice]. *)
Definition fetchExchangeRate (exchangeData : option JS.val) (st : state) : state :=
  match exchangeData with
  | Some currentPrice =>
      if JS.ToBoolean currentPrice
      then {| portfolio := portfolio st; myPortfolio := myPortfolio st;
              currentExchangeRate := currentPrice |}
      else st
  | None => st
  end.

(** [parseFloat(x.toFixed(4))] on exact numbers: the nearest multiple of
    1/10000, a tie going away from zero; numbers of magnitude 1e21 and more
    are printed in full and read back unchanged. *)
Definition round4 (x : JS.num) : JS.num :=
  match x with
  | JS.Fin q =>
      if Qle_bool (inject_Z (10 ^ 21)) (Qabs q) then JS.Fin q
      else
        let n := Qfloor (Qabs q * inject_Z 10000 + (1 # 2)) in
        JS.Fin (inject_Z (if JS.Qltb q 0 then - n else n) / inject_Z 10000)
  | _ => x
  end.

(** [currentExchangeRate > 0 ? currentExchangeRate : 1400] *)
Definition exchangeRate (st : state) : JS.num :=
  if JS.gtb (JS.ToNumber (currentExchangeRate st)) (JS.Fin 0)
  then JS.ToNumber (currentExchangeRate st)
  else JS.Fin 1400.

(** The quantity bought of an item: 10 million KRW times its weight, in
    USD, divided by the price. *)
Definition copy_quantity (exchangeRate priceUSD weight : JS.num) : JS.num :=
  let allocKRW := JS.mul (JS.Fin 10000000) weight in
  let allocUSD := JS.div allocKRW exchangeRate in
  round4 (JS.div allocUSD priceUSD).

(** The body of [for (const item of pf.items)]; [price sym] is
    [data ? data.currentPrice : 0] for the data fetched for [sym]. *)
Definition copy_item (exchangeRate : JS.num) (price : string -> JS.val)
    (p : gmap string holding) (item : Prober.item) : gmap string holding :=
  let priceUSD := JS.ToNumber (price (Prober.symbol item)) in
  if JS.gtb priceUSD (JS.Fin 0)
  then <[Prober.symbol item :=
           {| symbol := Prober.symbol item; name := Prober.name item;
              quantity := copy_quantity exchangeRate priceUSD (Prober.weight item) |}]> p
  else p.

(** [copyPortfolio] once the preset is found and the user has confirmed. *)
Definition copyPortfolio (exchangeData : option JS.val) (price : string -> JS.val)
    (items : list Prober.item) (st : state) : state :=
  let st := fetchExchangeRate exchangeData st in
  save (foldl (copy_item (exchangeRate st) price) ∅ items) st.

(** What the user can do to the portfolio. *)
Inductive action : Type :=
  | Add (symbol name : string)
  | Remove (symbol : string)
  | SetQuantity (sym : string) (val : JS.num)
  | FetchExchangeRate (exchangeData : option JS.val)
  | Copy (exchangeData : option JS.val) (price : string -> JS.val) (items : list Prober.item).

Definition step (st : state) (a : action) : state :=
  match a with
  | Add symbol name => (addToPortfolio symbol name st).1
  | Remove symbol => (removeFromPortfolio symbol st).1
  | SetQuantity sym val => setQuantity sym val st
  | FetchExchangeRate exchangeData => fetchExchangeRate exchangeData st
  | Copy exchangeData price items => copyPortfolio exchangeData price items st
  end.

End Portfolio.

(** ** [handleSearch]: the symbol that is looked up *)

Module Search.

Import Stdlib.Strings.Ascii.

(** The symbol [handleSearch] looks up, [None] when it returns without a
    search.  [typed] is [input.value.trim().toUpperCase()], [suffix] the
    value of the exchange selector. *)
Definition search_symbol (typed currentSearchSymbol suffix : string) : option string :=
  let symbol := typed in
  let symbol :=
    if String.eqb symbol "" && negb (String.eqb currentSearchSymbol "")
    then currentSearchSymbol else symbol in
  let symbol :=
    if negb (String.eqb suffix "") && negb (Fetch.includes symbol "."%char)
    then symbol +:+ suffix else symbol in
  if String.eqb symbol "" then None else Some symbol.

End Search.

(** ** [updateChartUI], [updatePriceDisplay] and [updateSearchPriceDisplay]:
    the direction of the price change *)

Module Display.

(** [currentPrice >= prevClose], which colours the line chart. *)
Definition chart_isPositive (currentPrice prevClose : JS.num) : bool :=
  JS.leb prevClose currentPrice.

(** [diff >= 0] with [diff = current - prevClose], which colours the price
    text and puts the sign before the percentage. *)
Definition price_isPositive (current prevClose : JS.num) : bool :=
  JS.leb (JS.Fin 0) (JS.sub current prevClose).

(** [(diff / prevClose) * 100] *)
Definition percent (current prevClose : JS.num) : JS.num :=
  JS.mul (JS.div (JS.sub current prevClose) prevClose) (JS.Fin 100).

End Display.

(** ** [syncDataFromDrive] *)

Module Sync.

(** [cloudData], what [dbGet] resolves to: each section is present or
    missing. *)
Record cloud_data : Type := CloudData {
  data_portfolio : option (gmap string holding);
  data_indices : option (gmap string Fetch.stock_data);
  data_stocks : option (gmap string Fetch.stock_data)
}.

(** [cloudCache] *)
Record cache : Type := Cache {
  portfolio : gmap string holding;
  indices : gmap string Fetch.stock_data;
  stocks : gmap string Fetch.stock_data
}.

Inductive outcome : Type :=
  | Loaded                      (* the cloud data replaced the local state *)
  | Uploaded (fullData : cache) (* [dbSet] was called with the local state *)
  | SyncError.                  (* an exception reached the [catch] clause *)

(** [fetched] is [None] when [dbInit] or [dbGet] throws; [dbSet_ok] tells
    whether [dbSet] succeeds. *)
Definition syncDataFromDrive (fetched : option cloud_data) (dbSet_ok : bool)
    (st : Portfolio.state) (cloudCache : cache) : Portfolio.state * cache * outcome :=
  match fetched with
  | None => (st, cloudCache, SyncError)
  | Some cloudData =>
      if bool_decide (is_Some (data_portfolio cloudData)) ||
         bool_decide (is_Some (data_indices cloudData)) ||
         bool_decide (is_Some (data_stocks cloudData))
      then
        let cloudCache :=
          {| portfolio := default ∅ (data_portfolio cloudData);
             indices := default ∅ (data_indices cloudData);
             stocks := default ∅ (data_stocks cloudData) |} in
        ({| Portfolio.portfolio := portfolio cloudCache;
            Portfolio.myPortfolio := Portfolio.myPortfolio st;
            Portfolio.currentExchangeRate := Portfolio.currentExchangeRate st |},
         cloudCache, Loaded)
      else
        let cloudCache :=
          {| portfolio := Portfolio.portfolio st;
             indices := indices cloudCache;
             stocks := stocks cloudCache |} in
        (st, cloudCache, if dbSet_ok then Uploaded cloudCache else SyncError)
  end.

End Sync.

(** ** [recommendedPortfolios] *)

Module Presets.

(** An entry of the table; its display texts [name] and [desc] are left
    out.  The weights are the decimal literals of the script, read as exact
    decimals. *)
Record preset : Type := Preset {
  id : string;
  items : list Prober.item
}.

Definition recommendedPortfolios : list preset :=
  [ {| id := "john_burr";
       items := [
        Prober.Item "DLS" (JS.Fin (10 # 100)) "WisdomTree Intl SmallCap Div";
        Prober.Item "EEM" (JS.Fin (10 # 100)) "iShares MSCI Emerging Markets";
        Prober.Item "IJR" (JS.Fin (10 # 100)) "iShares Core S&P Small-Cap";
        Prober.Item "IJS" (JS.Fin (10 # 100)) "iShares S&P Small-Cap 600 Value";
        Prober.Item "SPY" (JS.Fin (10 # 100)) "SPDR S&P 500";
        Prober.Item "VTV" (JS.Fin (10 # 100)) "Vanguard Value";
        Prober.Item "VEA" (JS.Fin (10 # 100)) "Vanguard FTSE Developed Markets";
        Prober.Item "SCZ" (JS.Fin (10 # 100)) "iShares MSCI EAFE Small-Cap";
        Prober.Item "EFV" (JS.Fin (10 # 100)) "iShares MSCI EAFE Value";
        Prober.Item "VNQ" (JS.Fin (10 # 100)) "Vanguard Real Estate" ] |};
    {| id := "bill_bernstein";
       items := [
        Prober.Item "VTV" (JS.Fin (25 # 100)) "Vanguard Value";
        Prober.Item "VV" (JS.Fin (20 # 100)) "Vanguard Large-Cap";
        Prober.Item "IJS" (JS.Fin (15 # 100)) "iShares S&P Small-Cap 600 Value";
        Prober.Item "VNQ" (JS.Fin (10 # 100)) "Vanguard Real Estate";
        Prober.Item "EFV" (JS.Fin (7 # 100)) "iShares MSCI EAFE Value";
        Prober.Item "EEM" (JS.Fin (5 # 100)) "iShares MSCI Emerging Markets";
        Prober.Item "IJR" (JS.Fin (5 # 100)) "iShares Core S&P Small-Cap";
        Prober.Item "VGK" (JS.Fin (5 # 100)) "Vanguard FTSE Europe";
        Prober.Item "VPL" (JS.Fin (5 # 100)) "Vanguard FTSE Pacific";
        Prober.Item "GLTR" (JS.Fin (3 # 100)) "abrdn Precious Metals Basket" ] |};
    {| id := "odd_stats";
       items := [
        Prober.Item "QQQ" (JS.Fin (22 # 100)) "Invesco QQQ Trust";
        Prober.Item "USMV" (JS.Fin (15 # 100)) "iShares MSCI USA Min Vol";
        Prober.Item "VNQ" (JS.Fin (10 # 100)) "Vanguard Real Estate";
        Prober.Item "BNDX" (JS.Fin (23 # 100)) "Vanguard Total Intl Bond";
        Prober.Item "IEF" (JS.Fin (20 # 100)) "iShares 7-10 Year Treasury";
        Prober.Item "GLD" (JS.Fin (10 # 100)) "SPDR Gold Trust" ] |};
    {| id := "all_weather";
       items := [
        Prober.Item "VTI" (JS.Fin (30 # 100)) "Vanguard Total Stock Market";
        Prober.Item "TLT" (JS.Fin (40 # 100)) "iShares 20+ Year Treasury Bond";
        Prober.Item "IEI" (JS.Fin (15 # 100)) "iShares 3-7 Year Treasury Bond";
        Prober.Item "DBC" (JS.Fin (75 # 1000)) "Invesco DB Commodity Index";
        Prober.Item "GLD" (JS.Fin (75 # 1000)) "SPDR Gold Trust" ] |};
    {| id := "golden_butterfly";
       items := [
        Prober.Item "IJS" (JS.Fin (20 # 100)) "iShares S&P Small-Cap 600 Value";
        Prober.Item "VTI" (JS.Fin (20 # 100)) "Vanguard Total Stock Market";
        Prober.Item "SHY" (JS.Fin (20 # 100)) "iShares 1-3 Year Treasury Bond";
        Prober.Item "TLT" (JS.Fin (20 # 100)) "iShares 20+ Year Treasury Bond";
        Prober.Item "GLD" (JS.Fin (20 # 100)) "SPDR Gold Trust" ] |};
    {| id := "diavola";
       items := [
        Prober.Item "VTI" (JS.Fin (65 # 100)) "Vanguard Total Stock Market";
        Prober.Item "QQQ" (JS.Fin (25 # 100)) "Invesco QQQ Trust";
        Prober.Item "BSV" (JS.Fin (5 # 100)) "Vanguard Short-Term Bond";
        Prober.Item "IEI" (JS.Fin (5 # 100)) "iShares 3-7 Year Treasury Bond" ] |};
    {| id := "us_world_bond";
       items := [
        Prober.Item "VTI" (JS.Fin (55 # 100)) "Vanguard Total Stock Market";
        Prober.Item "VT" (JS.Fin (25 # 100)) "Vanguard Total World Stock";
        Prober.Item "BNDX" (JS.Fin (20 # 100)) "Vanguard Total Intl Bond" ] |};
    {| id := "warren_buffett";
       items := [
        Prober.Item "VV" (JS.Fin (90 # 100)) "Vanguard Large-Cap";
        Prober.Item "SHY" (JS.Fin (10 # 100)) "iShares 1-3 Year Treasury Bond" ] |};
    {| id := "momentum8020";
       items := [
        Prober.Item "MTUM" (JS.Fin (80 # 100)) "iShares MSCI USA Momentum Factor";
        Prober.Item "BND" (JS.Fin (20 # 100)) "Vanguard Total Bond Market" ] |};
    {| id := "tech";
       items := [
        Prober.Item "QQQ" (JS.Fin (10 # 10)) "Invesco QQQ Trust" ] |};
    {| id := "quality";
       items := [
        Prober.Item "QUAL" (JS.Fin (10 # 10)) "iShares MSCI USA Quality Factor" ] |};
    {| id := "momentum";
       items := [
        Prober.Item "MTUM" (JS.Fin (10 # 10)) "iShares MSCI USA Momentum Factor" ] |};
    {| id := "sp500eq";
       items := [
        Prober.Item "RSP" (JS.Fin (10 # 10)) "Invesco S&P 500 Equal Weight" ] |};
    {| id := "us_total";
       items := [
        Prober.Item "VTI" (JS.Fin (10 # 10)) "Vanguard Total Stock Market" ] |};
    {| id := "momentum6040";
       items := [
        Prober.Item "MTUM" (JS.Fin (60 # 100)) "iShares MSCI USA Momentum Factor";
        Prober.Item "BND" (JS.Fin (40 # 100)) "Vanguard Total Bond Market" ] |};
    {| id := "us7_world3";
       items := [
        Prober.Item "VTI" (JS.Fin (70 # 100)) "Vanguard Total Stock Market";
        Prober.Item "VT" (JS.Fin (30 # 100)) "Vanguard Total World Stock" ] |};
    {| id := "low_volatility";
       items := [
        Prober.Item "USMV" (JS.Fin (10 # 10)) "iShares MSCI USA Min Vol Factor" ] |};
    {| id := "stock8020";
       items := [
        Prober.Item "VTI" (JS.Fin (80 # 100)) "Vanguard Total Stock Market";
        Prober.Item "BND" (JS.Fin (20 # 100)) "Vanguard Total Bond Market" ] |} ].

End Presets.

(** * The specification's notions

    Definitions that follow the words of the specification, to be compared
    with the functions of the script. *)

(** All timestamps of the inputs: the exchange-rate series, then each stock
    series that was fetched. *)
Definition observed_timestamps (exchange : series) (stocks : list (option series)) : list Z :=
  exchange.1 ++ concat (map (fun res => match res with
                                        | Some r => r.1
                                        | None => []
                                        end) stocks).

(** [Σ] over a list of numbers. *)
Definition sum (l : list JS.num) : JS.num := foldl JS.add (JS.Fin 0) l.

(** The later of a date and the best date so far. *)
Definition later (d : string) (best : option string) : option string :=
  match best with
  | Some b => if bool_decide (DateKey.lt b d) then Some d else best
  | None => Some d
  end.

(** The date of the most recent valid (present, not [null]) observation of
    a series at or before [date]. *)
Definition latest_valid (map : gmap string JS.val) (date : string) : option string :=
  foldr later None
    (filter (fun d => DateKey.le d date /\ has_value map d = true) (elements (dom map))).

(** Forward fill: the most recent known value at or before [date], and
    [init] when the series has no valid observation by then. *)
Definition forward_filled (map : gmap string JS.val) (init : JS.val) (date : string) : JS.val :=
  match latest_valid map date with
  | Some d => get map d
  | None => init
  end.

(** 1 for a domestic holding, the exchange rate for a foreign one. *)
Definition fxMultiplier (item : holding) (rate : JS.val) : JS.num :=
  if isKRW item then JS.Fin 1 else JS.ToNumber rate.

(** [Σ over holdings of effectivePrice × quantity × fxMultiplier] on [date];
    [seed] is the exchange rate before the first valid observation of the
    exchange-rate series. *)
Definition totalValue (items : list holding) (maps : list (gmap string JS.val))
    (exchangeMap : gmap string JS.val) (seed : JS.val) (date : string) : JS.num :=
  sum (imap (fun idx item =>
               JS.mul (JS.mul (JS.ToNumber (forward_filled (maps !!! idx) (JS.Num (JS.Fin 0)) date))
                              (quantity item))
                      (fxMultiplier item (forward_filled exchangeMap seed date)))
            items).

(** The composition snapshot as the specification words it: the
    normalized value (price x quantity x multiplier) of a holding on the
    first date of the axis on which it has a price, 0 when it never has
    one.  For the end snapshot the axis is read from its last date. *)
Definition snapshot_value (dates : list string) (exchangeMap : gmap string JS.val)
    (rate_seed : JS.val) (priceMap : gmap string JS.val) (item : holding) : JS.num :=
  match List.find (has_value priceMap) dates with
  | Some d =>
      JS.mul (JS.mul (JS.ToNumber (get priceMap d)) (quantity item))
             (fxMultiplier item (forward_filled exchangeMap rate_seed d))
  | None => JS.Fin 0
  end.

Definition compositionSnapshot (at_start : bool) (items : list holding)
    (maps : list (gmap string JS.val)) (exchangeMap : gmap string JS.val)
    (rate_seed : JS.val) (axis : list string) : list (string * JS.num) :=
  imap (fun idx item =>
          (name item,
           snapshot_value (if at_start then axis else reverse axis)
                          exchangeMap rate_seed (maps !!! idx) item))
       items.

(** The notions of the range prober as the specification words them; the
    properties of the prober relate them to the loops of the code. *)

Section ProberSpec.

Variable fetchHistory : string -> string -> option history.

(** The raw observations of an asset at a range: the timestamps that were
    fetched, none when the fetch failed or came without timestamps. *)
Definition raw_observations (it : Prober.item) (rng : string) : list Z :=
  match fetchHistory (Prober.symbol it) rng with
  | Some h => default [] (timestamp h)
  | None => []
  end.

Definition raw_closes (it : Prober.item) (rng : string) : list JS.val :=
  match fetchHistory (Prober.symbol it) rng with
  | Some h => close h
  | None => []
  end.

(** The latest common start date: the latest of the first timestamps of
    the assets (and not before the epoch). *)
Definition latest_start (items : list Prober.item) (rng : string) : Z :=
  foldr (fun it m => match raw_observations it rng with
                     | t0 :: _ => Z.max t0 m
                     | [] => m
                     end) 0%Z items.

(** The number of observations a series has before its first observation
    at or after [start]. *)
Fixpoint before_start (start : Z) (ts : list Z) : nat :=
  match ts with
  | [] => 0
  | t :: ts' => if (t <? start)%Z then S (before_start start ts') else 0
  end.

(** The series of an asset trimmed to the latest common start date: its
    timestamps and closes from the first observation at or after that date. *)
Definition trimmed (items : list Prober.item) (rng : string) (it : Prober.item)
    : list Z * list JS.val :=
  let k := before_start (latest_start items rng) (raw_observations it rng) in
  (drop k (raw_observations it rng), drop k (raw_closes it rng)).

(** The common aligned length: the length of the shortest trimmed series. *)
Definition common_length (items : list Prober.item) (rng : string) : nat :=
  match map (fun it => length (trimmed items rng it).1) items with
  | [] => 0
  | n :: ns => foldr Nat.min n ns
  end.

(** A range survives when every asset has at least 10 raw observations and
    the common aligned length is at least 120. *)
Definition survives (items : list Prober.item) (rng : string) : bool :=
  forallb (fun it => (10 <=? length (raw_observations it rng))%nat) items &&
  (120 <=? common_length items rng)%nat.

End ProberSpec.

(** * Auxiliary notions of the proofs *)

(** The update of one forward-fill cell on one date. *)
Definition fill (map : gmap string JS.val) (prev : JS.val) (date : string) : JS.val :=
  if has_value map date then get map date else prev.

(** The value a holding adds to the total of one date. *)
Definition contribution (lastExchange : JS.val) (item : holding) (price : JS.val) : JS.num :=
  if isKRW item
  then JS.mul (JS.ToNumber price) (quantity item)
  else JS.mul (JS.mul (JS.ToNumber price) (quantity item)) (JS.ToNumber lastExchange).

(** The seed of the exchange rate: [close[0] || 1200]. *)
Definition seed (exchange : series) : JS.val :=
  JS.or (JS.index exchange.2 0) (JS.Num (JS.Fin 1200)).

(** The index of the last timestamp of [ts] whose date key is [k]. *)
Fixpoint last_same_date (ymd : Z -> string) (k : string) (ts : list Z) : option nat :=
  match ts with
  | [] => None
  | t :: ts' =>
      match last_same_date ymd k ts' with
      | Some j => Some (S j)
      | None => if decide (ymd t = k) then Some 0 else None
      end
  end.

(** The peak and the ratio [(value - peak) / peak] of the turn of
    [values[k]] in the drawdown loop. *)
Definition peak_at (values : list JS.num) (k : nat) : JS.num :=
  (drawdown_loop (take (S k) values)).1.
Definition ratio_at (values : list JS.num) (k : nat) (v : JS.num) : JS.num :=
  JS.div (JS.sub v (peak_at values k)) (peak_at values k).

(** * Sample inputs *)

Module Sample.

(** Midnight UTC of the [n]-th day after 1970-01-01. *)
Definition day (n : Z) : Z := (86400 * n)%Z.

Definition price (z : Z) : JS.val := JS.Num (JS.of_Z z).

Definition fetched (ts : list Z) (closes : list JS.val) : option history :=
  Some {| timestamp := Some ts; close := closes |}.

(** Scenario C: a foreign holding (price 10, quantity 2) and a domestic one
    (price 5000, quantity 1) on a day whose exchange rate is 1300. *)
Definition itemsC : list holding :=
  [ {| symbol := "AAPL"; name := "Apple"; quantity := JS.Fin 2 |};
    {| symbol := "005930.KS"; name := "Samsung Electronics"; quantity := JS.Fin 1 |} ].

Definition fetchC (sym range : string) : option history :=
  if String.eqb sym "KRW=X" then fetched [day 10] [price 1300]
  else if String.eqb sym "AAPL" then fetched [day 10] [price 10]
  else if String.eqb sym "005930.KS" then fetched [day 10] [price 5000]
  else None.

(** A power function for the samples: exact on the exponents 0 and 1, NaN
    elsewhere (no sample below depends on another exponent). *)
Definition pow01 (x y : JS.num) : JS.num :=
  match y with
  | JS.Fin q => if JS.Qzerob q then JS.Fin 1
                else if Qeq_bool q 1 then x else JS.NaN
  | _ => JS.NaN
  end.

(** One foreign holding whose series starts on day 10 and has a [null]
    close on day 12; the exchange-rate series covers days 11 to 13. *)
Definition itemsF : list holding :=
  [ {| symbol := "AAPL"; name := "Apple"; quantity := JS.Fin 1 |} ].
Definition exchangeF : series :=
  ([day 11; day 12; day 13], [price 1300; price 1310; price 1320]).
Definition stocksF : list (option series) :=
  [ Some ([day 10; day 11; day 12; day 13], [price 10; price 11; JS.Null; price 13]) ].

(** Two exchange-rate observations on 1970-01-12 (closes 1300 and 1310)
    and a foreign holding observed on 1970-01-11 and 1970-01-12. *)
Definition exchangeD : series := ([day 11; (day 11 + 3600)%Z], [price 1300; price 1310]).
Definition stocksD : list (option series) := [ Some ([day 10; day 11], [price 10; price 10]) ].

(** Scenario D: one asset with 8 raw observations at every range. *)
Definition itemsD : list Prober.item :=
  [ {| Prober.symbol := "NEW"; Prober.weight := JS.Fin 1; Prober.name := "New listing" |} ].

Definition fetchD (sym range : string) : option history :=
  fetched (map day [1; 2; 3; 4; 5; 6; 7; 8]%Z) (map price [10; 11; 12; 13; 14; 15; 16; 17]%Z).

(** An asset with 120 daily observations, rising from 101 to 220, at every
    range. *)
Definition fetchE (sym range : string) : option history :=
  fetched (map (fun n => day (Z.of_nat n)) (seq 1 120))
          (map (fun n => price (Z.of_nat n)) (seq 101 120)).

(** A formatter for the samples: the integer part only. *)
Definition toFixed0 (x : JS.num) : string :=
  match x with
  | JS.Fin q => pretty (Qnum q / Z.pos (Qden q))%Z
  | JS.PInf => "Infinity"
  | JS.NInf => "-Infinity"
  | JS.NaN => "NaN"
  end.

(** Scenario A: two domestic holdings, 100 then 110 and 200 then 190.
    Scenario B: one domestic holding, 100, 50, 100. *)
Definition itemsA : list holding :=
  [ {| symbol := "000660.KS"; name := "A"; quantity := JS.Fin 1 |};
    {| symbol := "035720.KQ"; name := "B"; quantity := JS.Fin 1 |} ].
Definition exchangeA : series := ([day 10; day 11], [price 1300; price 1300]).
Definition stocksA : list (option series) :=
  [ Some ([day 10; day 11], [price 100; price 110]);
    Some ([day 10; day 11], [price 200; price 190]) ].

Definition itemsB : list holding :=
  [ {| symbol := "000660.KS"; name := "A"; quantity := JS.Fin 1 |} ].
Definition exchangeB : series := ([day 10; day 11; day 12], [price 1300; price 1300; price 1300]).
Definition stocksB : list (option series) :=
  [ Some ([day 10; day 11; day 12], [price 100; price 50; price 100]) ].

(** A stock series with two observations on 1970-01-11. *)
Definition stocksS : list (option series) :=
  [ Some ([day 10; (day 10 + 3600)%Z; day 11], [price 9; price 10; price 11]) ].

(** A foreign holding first observed on 1970-01-12, one day after the
    first observation of the exchange rate. *)
Definition exchangeL : series := ([day 10; day 11], [price 1300; price 1310]).
Definition stocksL : list (option series) := [ Some ([day 11], [price 10]) ].

Definition fetchL (sym range : string) : option history :=
  if String.eqb sym "KRW=X" then fetched [day 10; day 11] [price 1300; price 1310]
  else if String.eqb sym "AAPL" then fetched [day 11] [price 10]
  else None.

(** A preset of two assets, 80% and 20%, and their trimmed series. *)
Definition itemsP : list Prober.item :=
  [ {| Prober.symbol := "VTI"; Prober.weight := JS.Fin (4 # 5); Prober.name := "Stocks" |};
    {| Prober.symbol := "BND"; Prober.weight := JS.Fin (1 # 5); Prober.name := "Bonds" |} ].
Definition dataP : list (list Z * list JS.val) :=
  [ ([day 1; day 2], [price 200; price 210]);
    ([day 1; day 2], [price 80; price 79]) ].

(** A chart object: three observations, the second without an open and
    the third without a close. *)
Definition chartS : Fetch.chart :=
  {| Fetch.timestamp := Some [day 1; day 2; day 3];
     Fetch.indicators :=
       Some {| Fetch.open := Some [price 9; JS.Null; price 11];
               Fetch.high := None;
               Fetch.low := None;
               Fetch.close := Some [price 10; price 11; JS.Null] |};
     Fetch.meta :=
       Some {| Fetch.regularMarketPrice := price 11;
               Fetch.chartPreviousClose := price 10;
               Fetch.shortName := None;
               Fetch.longName := Some "Apple Inc." |} |}.

End Sample.

(** * Well-formed inputs

    The shape of the series the quote service delivers: one close per
    timestamp, each [null] or a number that is not negative and not
    greater than a bound. *)

(** A finite number that is not negative. *)
Definition nonneg (x : JS.num) : bool :=
  match x with
  | JS.Fin q => Qle_bool 0 q
  | _ => false
  end.

(** A finite number greater than 0. *)
Definition is_positive (x : JS.num) : bool :=
  match x with
  | JS.Fin q => JS.Qltb 0 q
  | _ => false
  end.

(** A finite number between [lo] and [hi]. *)
Definition within (lo hi : Q) (x : JS.num) : bool :=
  match x with
  | JS.Fin q => Qle_bool lo q && Qle_bool q hi
  | _ => false
  end.

(** A close that is [null] or a number between 0 and [bound]. *)
Definition close_within (bound : Q) (v : JS.val) : bool :=
  match v with
  | JS.Null => true
  | JS.Num x => within 0 bound x
  | JS.Undefined => false
  end.

Definition series_within (bound : Q) (s : series) : bool :=
  (length s.1 <=? length s.2)%nat && forallb (close_within bound) s.2.

Definition stocks_within (bound : Q) (stocks : list (option series)) : bool :=
  forallb (fun res => match res with
                      | None => true
                      | Some s => series_within bound s
                      end) stocks.

(** The number of elements of a list, as a rational. *)
Definition count {A : Type} (l : list A) : Q := inject_Z (Z.of_nat (length l)).

(** A series without any timestamp, or a fetch that failed. *)
Definition no_dates (res : option series) : bool :=
  match res with
  | None => true
  | Some s => bool_decide (s.1 = [])
  end.

(** The first close of a trimmed series is a finite number other than 0:
    the start price by which [calcPortfolioMetrics] divides. *)
Definition start_priced (d : list Z * list JS.val) : bool :=
  match JS.index d.2 0 with
  | JS.Num (JS.Fin q) => negb (JS.Qzerob q)
  | _ => false
  end.

(** A close that is a finite number between [lo] and [hi]. *)
Definition close_between (lo hi : Q) (v : JS.val) : bool :=
  match v with
  | JS.Num x => within lo hi x
  | _ => false
  end.

(** A series in which each [null] close is replaced by the number 0. *)
Definition null_as_zero (d : list Z * list JS.val) : list Z * list JS.val :=
  (d.1, map (fun v => match v with
                      | JS.Null => JS.Num (JS.Fin 0)
                      | _ => v
                      end) d.2).

(** The state the portfolio functions keep: every entry is stored under
    its own symbol with a quantity that is a number and not negative,
    [localStorage] holds the portfolio, and the exchange rate is truthy. *)
Definition well_formed (st : Portfolio.state) : Prop :=
  (forall k item, Portfolio.portfolio st !! k = Some item ->
     symbol item = k /\ JS.leb (JS.Fin 0) (quantity item) = true) /\
  Portfolio.myPortfolio st = Portfolio.portfolio st /\
  JS.ToBoolean (Portfolio.currentExchangeRate st) = true.

(** The presets have weights that are not negative. *)
Definition action_ok (a : Portfolio.action) : bool :=
  match a with
  | Portfolio.Copy _ _ items => forallb (fun it => nonneg (Prober.weight it)) items
  | _ => true
  end.

(** * Properties *)

(** ** The order on date keys *)

Module DateKeyFacts.

Lemma ascii_compare_refl (a : Ascii.ascii) : Ascii.compare a a = Eq.
Proof. unfold Ascii.compare. apply N.compare_refl. Qed.

Lemma ascii_compare_lt_trans (a b c : Ascii.ascii) :
  Ascii.compare a b = Lt -> Ascii.compare b c = Lt -> Ascii.compare a c = Lt.
Proof.
  unfold Ascii.compare. rewrite !N.compare_lt_iff. apply N.lt_trans.
Qed.

Lemma compare_refl (s : string) : String.compare s s = Eq.
Proof.
  induction s as [|a s IH]; simpl; [done|].
  by rewrite ascii_compare_refl.
Qed.

Lemma compare_lt_trans (s1 s2 s3 : string) :
  String.compare s1 s2 = Lt -> String.compare s2 s3 = Lt -> String.compare s1 s3 = Lt.
Proof.
  revert s2 s3.
  induction s1 as [|a s1 IH]; intros [|b s2] [|c s3]; simpl; try done.
  destruct (Ascii.compare a b) eqn:Hab; try done.
  - apply Ascii.compare_eq_iff in Hab as ->.
    destruct (Ascii.compare b c); try done. apply IH.
  - destruct (Ascii.compare b c) eqn:Hbc; try done.
    + apply Ascii.compare_eq_iff in Hbc as <-. by rewrite Hab.
    + by rewrite (ascii_compare_lt_trans _ _ _ Hab Hbc).
Qed.

Lemma lt_compare (a b : string) : DateKey.lt a b <-> String.compare a b = Lt.
Proof.
  unfold DateKey.lt, String.ltb. by destruct (String.compare a b).
Qed.

Lemma le_compare (a b : string) : DateKey.le a b <-> String.compare a b <> Gt.
Proof.
  unfold DateKey.le, String.leb. by destruct (String.compare a b).
Qed.

Lemma le_lt_or_eq (a b : string) : DateKey.le a b <-> DateKey.lt a b \/ a = b.
Proof.
  rewrite le_compare, lt_compare. split.
  - destruct (String.compare a b) eqn:H; try done; [right|left; done].
    by apply String.compare_eq_iff.
  - intros [->| ->]; [done|]. by rewrite compare_refl.
Qed.

Lemma lt_irrefl (a : string) : ~ DateKey.lt a a.
Proof. rewrite lt_compare, compare_refl. done. Qed.

Lemma lt_trans (a b c : string) : DateKey.lt a b -> DateKey.lt b c -> DateKey.lt a c.
Proof. rewrite !lt_compare. apply compare_lt_trans. Qed.

Lemma lt_le (a b : string) : DateKey.lt a b -> DateKey.le a b.
Proof. rewrite le_lt_or_eq. auto. Qed.

Lemma le_refl (a : string) : DateKey.le a a.
Proof. rewrite le_lt_or_eq. auto. Qed.

Lemma lt_le_trans (a b c : string) : DateKey.lt a b -> DateKey.le b c -> DateKey.lt a c.
Proof. rewrite le_lt_or_eq. intros H [H'| <-]; [by eapply lt_trans|done]. Qed.

Lemma le_lt_trans (a b c : string) : DateKey.le a b -> DateKey.lt b c -> DateKey.lt a c.
Proof. rewrite le_lt_or_eq. intros [H| ->] H'; [by eapply lt_trans|done]. Qed.

Lemma lt_not_le (a b : string) : DateKey.lt a b -> ~ DateKey.le b a.
Proof.
  intros H H'. apply (lt_irrefl a). by eapply lt_le_trans.
Qed.

Lemma not_le_lt (a b : string) : ~ DateKey.le a b -> DateKey.lt b a.
Proof.
  rewrite le_compare, lt_compare, (String.compare_antisym b a).
  destruct (String.compare a b); simpl; try done; intros H; by destruct H.
Qed.

#[global] Instance le_trans : Transitive DateKey.le.
Proof.
  intros a b c. rewrite (le_lt_or_eq a b).
  intros [H| ->] H'; [|done]. apply lt_le. by eapply lt_le_trans.
Qed.

#[global] Instance le_total : Total DateKey.le.
Proof. intros a b. apply String.leb_total. Qed.

#[global] Instance le_antisym : AntiSymm (=) DateKey.le.
Proof. intros a b. apply String.leb_antisym. Qed.

(** A list sorted for [le] without repetition is strictly increasing. *)
Lemma StronglySorted_lt (l : list string) :
  StronglySorted DateKey.le l -> NoDup l -> StronglySorted DateKey.lt l.
Proof.
  induction 1 as [|x l Hl IH Hx]; intros Hnd; constructor.
  - apply IH. apply NoDup_cons in Hnd. tauto.
  - apply NoDup_cons in Hnd as [Hnot _].
    rewrite List.Forall_forall in Hx |- *. intros y Hy.
    destruct (proj1 (le_lt_or_eq x y) (Hx y Hy)) as [?| ->]; [done|].
    destruct Hnot. by apply list_elem_of_In.
Qed.

End DateKeyFacts.

(** ** The unified date axis *)

Section Axis.

Import Analyze.

Variable ymd : Z -> string.

Lemma set_add_elem (k x : string) (s : list string) :
  x ∈ set_add k s <-> x = k \/ x ∈ s.
Proof.
  unfold set_add. destruct (decide (k ∈ s)) as [Hk|Hk].
  - split; [auto|]. intros [->|?]; done.
  - rewrite elem_of_app, list_elem_of_singleton. tauto.
Qed.

Lemma set_add_NoDup (k : string) (s : list string) : NoDup s -> NoDup (set_add k s).
Proof.
  intros Hs. unfold set_add. destruct (decide (k ∈ s)) as [Hk|Hk]; [done|].
  apply NoDup_app. split_and!; [done| |apply NoDup_singleton].
  intros x Hx ->%list_elem_of_singleton. done.
Qed.

Lemma add_dates_elem (ts : list Z) (s : list string) (x : string) :
  x ∈ add_dates ymd ts s <-> x ∈ s \/ x ∈ map ymd ts.
Proof.
  unfold add_dates. revert s.
  induction ts as [|t ts IH]; intros s; simpl.
  - rewrite elem_of_nil. tauto.
  - rewrite IH, set_add_elem, elem_of_cons. tauto.
Qed.

Lemma add_dates_NoDup (ts : list Z) (s : list string) :
  NoDup s -> NoDup (add_dates ymd ts s).
Proof.
  unfold add_dates. revert s.
  induction ts as [|t ts IH]; intros s Hs; simpl; [done|].
  apply IH. by apply set_add_NoDup.
Qed.

Lemma allDatesSet_elem (exchange : series) (stocks : list (option series)) (x : string) :
  x ∈ allDatesSet ymd exchange stocks <->
  x ∈ map ymd (observed_timestamps exchange stocks).
Proof.
  unfold allDatesSet, observed_timestamps.
  generalize (add_dates_elem exchange.1 [] x).
  generalize (add_dates ymd exchange.1 []) as s0.
  generalize exchange.1 as ts0.
  induction stocks as [|res stocks IH]; intros ts0 s0 H0; simpl.
  - rewrite app_nil_r, H0, elem_of_nil. tauto.
  - destruct res as [r|]; simpl.
    + rewrite app_assoc. apply IH.
      rewrite add_dates_elem, H0, map_app, elem_of_app, elem_of_nil. tauto.
    + by apply IH.
Qed.

Lemma allDatesSet_NoDup (exchange : series) (stocks : list (option series)) :
  NoDup (allDatesSet ymd exchange stocks).
Proof.
  unfold allDatesSet.
  assert (NoDup (add_dates ymd exchange.1 [])) as H0
    by (apply add_dates_NoDup, NoDup_nil_2).
  revert H0. generalize (add_dates ymd exchange.1 []) as s0.
  induction stocks as [|res stocks IH]; intros s0 H0; simpl; [done|].
  apply IH. destruct res; [by apply add_dates_NoDup|done].
Qed.

Lemma sortedDates_elem (exchange : series) (stocks : list (option series)) (x : string) :
  x ∈ sortedDates ymd exchange stocks <->
  x ∈ map ymd (observed_timestamps exchange stocks).
Proof.
  unfold sortedDates. rewrite merge_sort_Permutation. apply allDatesSet_elem.
Qed.

Lemma sortedDates_NoDup (exchange : series) (stocks : list (option series)) :
  NoDup (sortedDates ymd exchange stocks).
Proof.
  unfold sortedDates. rewrite merge_sort_Permutation. apply allDatesSet_NoDup.
Qed.

Lemma sortedDates_sorted (exchange : series) (stocks : list (option series)) :
  StronglySorted DateKey.lt (sortedDates ymd exchange stocks).
Proof.
  apply DateKeyFacts.StronglySorted_lt; [|apply sortedDates_NoDup].
  unfold sortedDates. apply StronglySorted_merge_sort; apply _.
Qed.

End Axis.

(** ** Forward fill *)

Section ForwardFill.

Lemma later_max (l : list string) (m : string) :
  foldr later None l = Some m <-> m ∈ l /\ forall x, x ∈ l -> DateKey.le x m.
Proof.
  revert m. induction l as [|d l IH]; intros m; simpl.
  - split; [done|]. intros [H _]. by apply elem_of_nil in H.
  - destruct (foldr later None l) as [b|] eqn:Hb; simpl.
    + destruct (proj1 (IH b) eq_refl) as [Hbl Hbmax].
      case_bool_decide as Hlt.
      * split.
        -- intros [= <-]. split; [left|].
           intros x [->|Hx]%elem_of_cons; [apply DateKeyFacts.le_refl|].
           etrans; [by apply Hbmax|by apply DateKeyFacts.lt_le].
        -- intros [Hm Hmax]. f_equal.
           apply (anti_symm DateKey.le); [apply Hmax; left|].
           apply elem_of_cons in Hm as [->|Hm]; [apply DateKeyFacts.le_refl|].
           etrans; [by apply Hbmax|by apply DateKeyFacts.lt_le].
      * assert (DateKey.le d b) as Hdb.
        { destruct (total DateKey.le d b) as [?|Hbd]; [done|].
          apply DateKeyFacts.le_lt_or_eq in Hbd as [?| ->]; [done|].
          apply DateKeyFacts.le_refl. }
        split.
        -- intros [= <-]. split; [by right|].
           intros x [->|Hx]%elem_of_cons; [done|by apply Hbmax].
        -- intros [Hm Hmax]. f_equal.
           apply (anti_symm DateKey.le); [apply Hmax; by right|].
           apply elem_of_cons in Hm as [->|Hm]; [done|by apply Hbmax].
    + assert (l = []) as ->.
      { destruct l as [|y l]; [done|]. simpl in Hb.
        unfold later in Hb at 1. destruct (foldr later None l); [case_bool_decide|]; done. }
      split.
      * intros [= <-]. split; [left|].
        intros x ->%list_elem_of_singleton. apply DateKeyFacts.le_refl.
      * intros [->%list_elem_of_singleton _]. done.
Qed.

Lemma has_value_dom (map : gmap string JS.val) (d : string) :
  has_value map d = true -> d ∈ dom map.
Proof.
  unfold has_value, has. intros [H _]%andb_true_iff.
  apply bool_decide_eq_true in H. by apply elem_of_dom.
Qed.

Lemma latest_valid_Some (map : gmap string JS.val) (date d : string) :
  latest_valid map date = Some d <->
  has_value map d = true /\ DateKey.le d date /\
  forall x, has_value map x = true -> DateKey.le x date -> DateKey.le x d.
Proof.
  unfold latest_valid. rewrite later_max, list_elem_of_filter, elem_of_elements.
  split.
  - intros [[[Hle Hv] _] Hmax]. split_and!; [done..|].
    intros x Hx Hxle. apply Hmax.
    rewrite list_elem_of_filter, elem_of_elements. eauto using has_value_dom.
  - intros (Hv & Hle & Hmax). split; [eauto using has_value_dom|].
    intros x [[? ?] _]%list_elem_of_filter. by apply Hmax.
Qed.

Lemma latest_valid_None (map : gmap string JS.val) (date : string) :
  latest_valid map date = None <->
  forall x, DateKey.le x date -> has_value map x = false.
Proof.
  split.
  - intros Hnone x Hle. destruct (has_value map x) eqn:Hv; [|done].
    assert (x ∈ filter (fun d => DateKey.le d date /\ has_value map d = true)
                       (elements (dom map))) as Hx.
    { rewrite list_elem_of_filter, elem_of_elements. eauto using has_value_dom. }
    unfold latest_valid in Hnone.
    destruct (filter _ _) as [|y l]; [by apply elem_of_nil in Hx|].
    simpl in Hnone. unfold later in Hnone at 1.
    destruct (foldr later None l); [case_bool_decide|]; done.
  - intros Hall. destruct (latest_valid map date) as [d|] eqn:Hd; [|done].
    apply latest_valid_Some in Hd as (Hv & Hle & _).
    rewrite (Hall d Hle) in Hv. done.
Qed.

(** Scanning a strictly increasing list of dates that ends at [date] and
    holds every date of the series up to [date] computes the forward fill. *)
Lemma scan_forward_filled (map : gmap string JS.val) (init : JS.val)
    (pre : list string) (date : string) :
  StronglySorted DateKey.lt (pre ++ [date]) ->
  (forall x, x ∈ dom map -> DateKey.le x date -> x ∈ pre ++ [date]) ->
  foldl (fill map) init (pre ++ [date]) = forward_filled map init date.
Proof.
  intros Hsorted Hcover.
  assert (forall x, x ∈ pre ++ [date] -> DateKey.le x date) as Hbound.
  { intros x [Hx| ->%list_elem_of_singleton]%elem_of_app; [|apply DateKeyFacts.le_refl].
    apply DateKeyFacts.lt_le.
    apply (StronglySorted_app_1_elem_of _ _ _ _ _ Hsorted Hx). left. }
  unfold forward_filled.
  destruct (latest_valid map date) as [d|] eqn:Hd.
  - apply latest_valid_Some in Hd as (Hv & Hle & Hmax).
    destruct (list_elem_of_split _ _ (Hcover d (has_value_dom _ _ Hv) Hle))
      as (l1 & l2 & Heq).
    rewrite Heq in *. clear Heq Hcover.
    rewrite foldl_app. simpl. unfold fill at 2. rewrite Hv.
    assert (forall y, y ∈ l2 -> has_value map y = false) as Hl2.
    { intros y Hy. destruct (has_value map y) eqn:Hvy; [|done].
      assert (DateKey.lt d y) as Hdy.
      { pose proof (StronglySorted_app_1_r _ _ _ Hsorted) as Hs2.
        apply StronglySorted_cons in Hs2 as [Hall _].
        rewrite Forall_forall in Hall. by apply Hall. }
      destruct (DateKeyFacts.lt_not_le _ _ Hdy). apply Hmax; [done|].
      apply Hbound. rewrite elem_of_app, elem_of_cons. auto. }
    clear -Hl2. generalize (get map d) as v.
    induction l2 as [|y l2 IH]; intros v; simpl; [done|].
    unfold fill at 2. rewrite (Hl2 y) by left. apply IH.
    intros z Hz. apply Hl2. by right.
  - assert (forall y, y ∈ pre ++ [date] -> has_value map y = false) as Hnone.
    { intros y Hy. eapply latest_valid_None; eauto. }
    clear -Hnone. revert Hnone. generalize (pre ++ [date]) as l. intros l. revert init.
    induction l as [|y l IH]; intros init Hnone; simpl; [done|].
    unfold fill at 2. rewrite (Hnone y) by left. apply IH.
    intros z Hz. apply Hnone. by right.
Qed.

End ForwardFill.

(** ** The valuation loop *)

Section Valuation.

Import Analyze.

Variable ymd : Z -> string.

Lemma dom_set_closes (ts : list Z) (closes : list JS.val) (i : nat)
    (m : gmap string JS.val) (k : string) :
  k ∈ dom (set_closes ymd ts closes i m) <-> k ∈ dom m \/ k ∈ map ymd ts.
Proof.
  revert i m. induction ts as [|t ts IH]; intros i m; simpl.
  - rewrite elem_of_nil. tauto.
  - rewrite IH, dom_insert, elem_of_union, elem_of_singleton, elem_of_cons. tauto.
Qed.

Lemma dateToStocks_lookup (stocks : list (option series)) (idx : nat) :
  dateToStocks ymd stocks !!! idx =
  match stocks !! idx with
  | Some (Some r) => set_closes ymd r.1 r.2 0 ∅
  | _ => ∅
  end.
Proof.
  unfold dateToStocks. rewrite list_lookup_total_alt, list_lookup_fmap.
  destruct (stocks !! idx) as [[r|]|]; done.
Qed.

Lemma dateToExchange_dom_axis (exchange : series) (stocks : list (option series)) (k : string) :
  k ∈ dom (dateToExchange ymd exchange) -> k ∈ sortedDates ymd exchange stocks.
Proof.
  unfold dateToExchange. rewrite dom_set_closes, dom_empty, elem_of_empty.
  intros [[]|Hk]. apply sortedDates_elem. unfold observed_timestamps.
  rewrite map_app, elem_of_app. by left.
Qed.

Lemma dateToStocks_dom_axis (exchange : series) (stocks : list (option series))
    (idx : nat) (k : string) :
  k ∈ dom (dateToStocks ymd stocks !!! idx) -> k ∈ sortedDates ymd exchange stocks.
Proof.
  rewrite dateToStocks_lookup.
  destruct (stocks !! idx) as [[r|]|] eqn:Hidx;
    [|by rewrite dom_empty, elem_of_empty..].
  rewrite dom_set_closes, dom_empty, elem_of_empty.
  intros [[]|Hk]. apply sortedDates_elem. unfold observed_timestamps.
  rewrite map_app, elem_of_app. right.
  apply list_elem_of_fmap in Hk as (t & -> & Ht).
  apply list_elem_of_fmap. exists t. split; [done|].
  apply list_elem_of_In, in_concat. exists r.1.
  split; [|by apply list_elem_of_In].
  apply list_elem_of_In, list_elem_of_fmap. exists (Some r). split; [done|].
  by eapply list_elem_of_lookup_2.
Qed.

Lemma forEach_item_step (maps : list (gmap string JS.val)) (date : string)
    (lastExchange : JS.val) (items : list holding) :
  forall (l1 l2 : list JS.val) (total : JS.num),
    length l2 = length items ->
    let l2' := imap (fun j prev => fill (maps !!! (length l1 + j)) prev date) l2 in
    forEach (item_step maps date lastExchange) items (length l1) (l1 ++ l2, total) =
    (l1 ++ l2',
     foldl JS.add total (zip_with (contribution lastExchange) items l2')).
Proof.
  induction items as [|item items IH]; intros l1 l2 total Hlen.
  - destruct l2; [|done]. done.
  - destruct l2 as [|p l2]; [done|]. simpl in Hlen.
    cbn [forEach imap zip_with foldl].
    set (p' := fill (maps !!! (length l1 + 0)) p date).
    assert (item_step maps date lastExchange (l1 ++ p :: l2, total) item (length l1) =
            ((l1 ++ [p']) ++ l2, JS.add total (contribution lastExchange item p'))) as ->.
    { unfold item_step, contribution, p', fill. rewrite Nat.add_0_r.
      destruct (has_value (maps !!! length l1) date).
      - rewrite insert_app_r_alt, Nat.sub_diag, <- app_assoc by done. done.
      - unfold JS.index. rewrite list_lookup_middle by done. simpl.
        rewrite <- app_assoc. done. }
    replace (S (length l1)) with (length (l1 ++ [p'])) by (rewrite length_app; simpl; lia).
    rewrite IH by lia. rewrite <- app_assoc. simpl. f_equal.
    + f_equal. f_equal. apply imap_ext. intros j x _. simpl.
      rewrite length_app. simpl. f_equal. f_equal. lia.
    + f_equal. f_equal. apply imap_ext. intros j x _. simpl.
      rewrite length_app. simpl. f_equal. f_equal. lia.
Qed.

Lemma date_step_eq (items : list holding) (exchangeMap : gmap string JS.val)
    (maps : list (gmap string JS.val)) (st : loop_state) (date : string) :
  length (lastPrices st) = length items ->
  let rate := fill exchangeMap (lastExchange st) date in
  let prices := imap (fun j prev => fill (maps !!! j) prev date) (lastPrices st) in
  date_step items exchangeMap maps st date =
  {| lastExchange := rate;
     lastPrices := prices;
     portfolioValues := portfolioValues st ++ [sum (zip_with (contribution rate) items prices)];
     chartLabels := chartLabels st ++ [date] |}.
Proof.
  intros Hlen rate prices. unfold date_step.
  change (if has_value exchangeMap date then get exchangeMap date else lastExchange st)
    with rate.
  pose proof (forEach_item_step maps date rate items [] (lastPrices st) (JS.Fin 0) Hlen) as H.
  simpl in H. rewrite H. done.
Qed.

Lemma replicate_fmap_seq {A : Type} (n : nat) (x : A) :
  replicate n x = (fun _ => x) <$> seq 0 n.
Proof.
  apply list_eq. intros i. rewrite list_lookup_fmap.
  destruct (decide (i < n)) as [Hi|Hi].
  - rewrite lookup_replicate_2, lookup_seq_lt by done. done.
  - rewrite lookup_seq_ge by lia. apply lookup_replicate_None. lia.
Qed.

Lemma imap_fmap_seq {A B : Type} (f : nat -> A -> B) (g : nat -> A) (n : nat) :
  imap f (g <$> seq 0 n) = (fun j => f j (g j)) <$> seq 0 n.
Proof.
  apply list_eq. intros i. rewrite list_lookup_imap, !list_lookup_fmap.
  destruct (decide (i < n)) as [Hi|Hi].
  - rewrite lookup_seq_lt by done. done.
  - rewrite lookup_seq_ge by lia. done.
Qed.

Lemma zip_with_fmap_seq {A B C : Type} (f : A -> B -> C) (g : nat -> B) (l : list A) :
  zip_with f l (g <$> seq 0 (length l)) = imap (fun j x => f x (g j)) l.
Proof.
  apply list_eq. intros i.
  rewrite lookup_zip_with, list_lookup_imap, list_lookup_fmap.
  destruct (l !! i) as [x|] eqn:Hx; simpl; [|done].
  rewrite lookup_seq_lt by (by eapply lookup_lt_Some). done.
Qed.

Lemma run_snoc (items : list holding) (exchange : series) (stocks : list (option series))
    (l : list string) (d : string) :
  run ymd items exchange stocks (l ++ [d]) =
  date_step items (dateToExchange ymd exchange) (dateToStocks ymd stocks)
            (run ymd items exchange stocks l) d.
Proof. unfold run. by rewrite foldl_app. Qed.

(** The two forward-fill cells and the labels after any list of dates. *)
Lemma run_state (items : list holding) (exchange : series) (stocks : list (option series))
    (l : list string) :
  let st := run ymd items exchange stocks l in
  lastExchange st = foldl (fill (dateToExchange ymd exchange)) (seed exchange) l /\
  lastPrices st =
    (fun j => foldl (fill (dateToStocks ymd stocks !!! j)) (JS.Num (JS.Fin 0)) l)
      <$> seq 0 (length items) /\
  chartLabels st = l.
Proof.
  induction l as [|d l IH] using rev_ind.
  - simpl. split_and!; [done| |done]. apply replicate_fmap_seq.
  - destruct IH as (IH1 & IH2 & IH3). simpl.
    rewrite run_snoc, date_step_eq by (rewrite IH2, length_fmap, length_seq; done).
    simpl. rewrite !foldl_app. simpl. split_and!.
    + by rewrite IH1.
    + rewrite IH2, imap_fmap_seq. apply list_fmap_ext. intros i j _.
      by rewrite foldl_app.
    + by rewrite IH3.
Qed.

Lemma run_values_snoc (items : list holding) (exchange : series)
    (stocks : list (option series)) (l : list string) (d : string) :
  let st := run ymd items exchange stocks (l ++ [d]) in
  portfolioValues st =
  portfolioValues (run ymd items exchange stocks l) ++
  [sum (imap (fun j item => contribution (lastExchange st) item (JS.index (lastPrices st) j))
             items)].
Proof.
  simpl.
  destruct (run_state items exchange stocks l) as (_ & H2 & _).
  destruct (run_state items exchange stocks (l ++ [d])) as (_ & H2' & _).
  rewrite H2'. rewrite run_snoc, date_step_eq by (rewrite H2, length_fmap, length_seq; done).
  simpl. f_equal. f_equal. f_equal.
  rewrite H2, imap_fmap_seq, zip_with_fmap_seq.
  apply imap_ext. intros j item Hj. simpl. f_equal.
  unfold JS.index. rewrite list_lookup_fmap, lookup_seq_lt by (by eapply lookup_lt_Some).
  simpl. by rewrite foldl_app.
Qed.

(** On the axis, the cells hold the forward fill of their series. *)
Lemma axis_prefix (exchange : series) (stocks : list (option series))
    (pre post : list string) (d : string) (m : gmap string JS.val) :
  sortedDates ymd exchange stocks = pre ++ d :: post ->
  (forall k, k ∈ dom m -> k ∈ sortedDates ymd exchange stocks) ->
  StronglySorted DateKey.lt (pre ++ [d]) /\
  (forall x, x ∈ dom m -> DateKey.le x d -> x ∈ pre ++ [d]).
Proof.
  intros Haxis Hdom.
  pose proof (sortedDates_sorted ymd exchange stocks) as Hsorted.
  rewrite Haxis in Hsorted, Hdom.
  rewrite (cons_middle d pre post), app_assoc in Hsorted, Hdom.
  split; [by eapply StronglySorted_app_1_l|].
  intros x Hx Hle. apply Hdom, elem_of_app in Hx as [Hx|Hx]; [done|].
  destruct (DateKeyFacts.lt_not_le d x); [|done].
  eapply StronglySorted_app_1_elem_of; [done| |done].
  rewrite elem_of_app, list_elem_of_singleton. by right.
Qed.

Lemma lastExchange_forward_filled (items : list holding) (exchange : series)
    (stocks : list (option series)) (pre post : list string) (d : string) :
  sortedDates ymd exchange stocks = pre ++ d :: post ->
  lastExchange (run ymd items exchange stocks (pre ++ [d])) =
  forward_filled (dateToExchange ymd exchange) (seed exchange) d.
Proof.
  intros Haxis.
  destruct (run_state items exchange stocks (pre ++ [d])) as (-> & _ & _).
  destruct (axis_prefix exchange stocks pre post d (dateToExchange ymd exchange) Haxis)
    as [Hsorted Hcover]; [apply dateToExchange_dom_axis|].
  by apply scan_forward_filled.
Qed.

Lemma lastPrices_forward_filled (items : list holding) (exchange : series)
    (stocks : list (option series)) (pre post : list string) (d : string) (idx : nat) :
  sortedDates ymd exchange stocks = pre ++ d :: post ->
  idx < length items ->
  lastPrices (run ymd items exchange stocks (pre ++ [d])) !! idx =
  Some (forward_filled (dateToStocks ymd stocks !!! idx) (JS.Num (JS.Fin 0)) d).
Proof.
  intros Haxis Hidx.
  destruct (run_state items exchange stocks (pre ++ [d])) as (_ & -> & _).
  rewrite list_lookup_fmap, lookup_seq_lt by done. simpl. f_equal.
  destruct (axis_prefix exchange stocks pre post d (dateToStocks ymd stocks !!! idx) Haxis)
    as [Hsorted Hcover]; [apply dateToStocks_dom_axis|].
  by apply scan_forward_filled.
Qed.

Lemma mul_1_r (x : JS.num) : JS.mul x (JS.Fin 1) = x.
Proof.
  destruct x as [[n d]| | |]; try done.
  simpl. unfold Qmult. simpl. by rewrite Z.mul_1_r, Pos.mul_1_r.
Qed.

Lemma contribution_fxMultiplier (rate : JS.val) (item : holding) (price : JS.val) :
  contribution rate item price =
  JS.mul (JS.mul (JS.ToNumber price) (quantity item)) (fxMultiplier item rate).
Proof.
  unfold contribution, fxMultiplier. destruct (isKRW item); [|done].
  by rewrite mul_1_r.
Qed.

Lemma run_values (items : list holding) (exchange : series) (stocks : list (option series))
    (l rest : list string) :
  sortedDates ymd exchange stocks = l ++ rest ->
  portfolioValues (run ymd items exchange stocks l) =
  map (totalValue items (dateToStocks ymd stocks) (dateToExchange ymd exchange) (seed exchange)) l.
Proof.
  revert rest. induction l as [|d l IH] using rev_ind; intros rest Haxis; [done|].
  rewrite <- app_assoc in Haxis. simpl in Haxis.
  rewrite run_values_snoc, (IH _ Haxis), map_app. simpl. f_equal. f_equal.
  unfold totalValue. f_equal.
  rewrite (lastExchange_forward_filled _ _ _ _ _ _ Haxis).
  apply imap_ext. intros j item Hj. simpl.
  unfold JS.index.
  rewrite (lastPrices_forward_filled _ _ _ _ _ _ _ Haxis) by (by eapply lookup_lt_Some).
  simpl. apply contribution_fxMultiplier.
Qed.

Lemma valuation_values (items : list holding) (exchange : series)
    (stocks : list (option series)) :
  let st := valuation ymd items exchange stocks in
  chartLabels st = sortedDates ymd exchange stocks /\
  portfolioValues st =
  map (totalValue items (dateToStocks ymd stocks) (dateToExchange ymd exchange) (seed exchange))
      (sortedDates ymd exchange stocks).
Proof.
  simpl. unfold valuation. split.
  - apply run_state.
  - apply (run_values _ _ _ _ []). by rewrite app_nil_r.
Qed.

End Valuation.

(** ** Valuation, forward fill and the exchange-rate seed *)

Section ValuationClaims.

Import Analyze.

Variable ymd : Z -> string.

Lemma has_value_null (m : gmap string JS.val) (d : string) :
  m !! d = Some JS.Null -> has_value m d = false.
Proof.
  intros H. unfold has_value, get. rewrite H. simpl. apply andb_false_r.
Qed.

Lemma forward_filled_between (m : gmap string JS.val) (init : JS.val) (d1 d2 d : string) :
  has_value m d1 = true ->
  (forall x, DateKey.lt d1 x -> DateKey.lt x d2 -> has_value m x = false) ->
  DateKey.le d1 d -> DateKey.lt d d2 ->
  forward_filled m init d = get m d1.
Proof.
  intros Hv Hgap Hle Hlt. unfold forward_filled.
  assert (latest_valid m d = Some d1) as ->; [|done].
  apply latest_valid_Some. split_and!; [done..|].
  intros x Hx Hxd.
  destruct (decide (DateKey.le x d1)) as [?|Hn]; [done|].
  apply DateKeyFacts.not_le_lt in Hn.
  rewrite (Hgap x Hn) in Hx; [done|]. by eapply DateKeyFacts.le_lt_trans.
Qed.

Lemma forward_filled_before (m : gmap string JS.val) (init : JS.val) (d2 d : string) :
  (forall x, DateKey.lt x d2 -> has_value m x = false) ->
  DateKey.lt d d2 ->
  forward_filled m init d = init.
Proof.
  intros Hnone Hlt. unfold forward_filled.
  assert (latest_valid m d = None) as ->; [|done].
  apply latest_valid_None. intros x Hx. apply Hnone.
  by eapply DateKeyFacts.le_lt_trans.
Qed.

Lemma zero_contribution (rate : JS.val) (item : holding) :
  JS.is_finite (quantity item) = true ->
  JS.is_finite (JS.ToNumber rate) = true ->
  JS.eqv (contribution rate item (JS.Num (JS.Fin 0))) (JS.Fin 0).
Proof.
  unfold contribution. simpl.
  destruct (quantity item) as [q| | |]; try done.
  destruct (JS.ToNumber rate) as [r| | |]; try done.
  intros _ _. destruct (isKRW item); simpl; ring.
Qed.

(** C3. For a holding of the portfolio and a date [d] of the axis, the price
    the valuation loop uses on [d] (the cell [lastPrices[idx]] once the turn
    of [d] is over) is: the close observed on [d1] when [d1 <= d < d2] for
    two valid observations [d1 < d2] with no valid observation strictly
    between them; the price of the previous turn when the close of [d] is
    [null]; and 0 when [d] is strictly before the first valid observation of
    the series, in which case the holding adds nothing to the total. *)
Theorem forward_fill_price (items : list holding) (exchange : series)
    (stocks : list (option series)) (idx : nat) (pre post : list string) (d d1 d2 : string) :
  let m := dateToStocks ymd stocks !!! idx in
  let st := run ymd items exchange stocks in
  let price_after := fun dates => JS.index (lastPrices (st dates)) idx in
  sortedDates ymd exchange stocks = pre ++ d :: post ->
  idx < length items ->
  (has_value m d1 = true -> has_value m d2 = true -> DateKey.lt d1 d2 ->
   (forall x, DateKey.lt d1 x -> DateKey.lt x d2 -> has_value m x = false) ->
   DateKey.le d1 d -> DateKey.lt d d2 ->
   price_after (pre ++ [d]) = get m d1) /\
  (m !! d = Some JS.Null -> price_after (pre ++ [d]) = price_after pre) /\
  (has_value m d2 = true ->
   (forall x, DateKey.lt x d2 -> has_value m x = false) ->
   DateKey.lt d d2 ->
   price_after (pre ++ [d]) = JS.Num (JS.Fin 0) /\
   forall item, items !! idx = Some item ->
     JS.is_finite (quantity item) = true ->
     JS.is_finite (JS.ToNumber (lastExchange (st (pre ++ [d])))) = true ->
     JS.eqv (contribution (lastExchange (st (pre ++ [d]))) item (price_after (pre ++ [d])))
            (JS.Fin 0)).
Proof.
  intros m st price_after Haxis Hidx.
  assert (price_after (pre ++ [d]) = forward_filled m (JS.Num (JS.Fin 0)) d) as Hprice.
  { unfold price_after, st, JS.index.
    by rewrite (lastPrices_forward_filled ymd items exchange stocks pre post d idx). }
  split_and!.
  - intros Hv1 _ _ Hgap Hle Hlt. rewrite Hprice.
    by eapply forward_filled_between.
  - intros Hnull. unfold price_after, st, JS.index.
    destruct (run_state ymd items exchange stocks (pre ++ [d])) as (_ & -> & _).
    destruct (run_state ymd items exchange stocks pre) as (_ & -> & _).
    rewrite !list_lookup_fmap, !lookup_seq_lt by done. simpl.
    rewrite foldl_app. simpl. unfold fill at 1.
    fold m. by rewrite (has_value_null m d Hnull).
  - intros _ Hnone Hlt.
    assert (price_after (pre ++ [d]) = JS.Num (JS.Fin 0)) as H0.
    { rewrite Hprice. by eapply forward_filled_before. }
    split; [done|]. intros item _ Hq Hr. rewrite H0. by apply zero_contribution.
Qed.

(** C7, as amended. For a date [d] of the axis, the exchange rate the loop
    uses on [d] is: while the exchange-rate series has no valid observation
    at or before [d], the first element of its close array when that is a
    number other than zero, and 1200 otherwise; from the first valid
    observation on, the close of the latest valid observation at or before
    [d]. *)
Theorem exchange_rate_seed (items : list holding) (exchange : series)
    (stocks : list (option series)) (pre post : list string) (d d1 : string) :
  let m := dateToExchange ymd exchange in
  let rate := lastExchange (run ymd items exchange stocks (pre ++ [d])) in
  sortedDates ymd exchange stocks = pre ++ d :: post ->
  ((forall x, DateKey.le x d -> has_value m x = false) ->
   rate = if JS.ToBoolean (JS.index exchange.2 0)
          then JS.index exchange.2 0
          else JS.Num (JS.Fin 1200)) /\
  (has_value m d1 = true -> DateKey.le d1 d ->
   (forall x, DateKey.lt d1 x -> DateKey.le x d -> has_value m x = false) ->
   rate = get m d1).
Proof.
  intros m rate Haxis. unfold rate.
  rewrite (lastExchange_forward_filled ymd items exchange stocks pre post d Haxis).
  fold m. unfold forward_filled. split.
  - intros Hnone. apply latest_valid_None in Hnone. by rewrite Hnone.
  - intros Hv Hle Hgap.
    assert (latest_valid m d = Some d1) as ->; [|done].
    apply latest_valid_Some. split_and!; [done..|].
    intros x Hx Hxd. destruct (decide (DateKey.le x d1)) as [?|Hn]; [done|].
    apply DateKeyFacts.not_le_lt in Hn. by rewrite (Hgap x Hn Hxd) in Hx.
Qed.

(** C2. The date axis built by [analyzePortfolio], which labels its
    valuation series, holds exactly the date keys of the timestamps observed
    in the exchange-rate series and in the stock series; it has as many
    entries as there are distinct keys, it is strictly increasing in the
    order of the keys, and no key is repeated. *)
Theorem sortedDates_sorted_union (exchange : series) (stocks : list (option series)) :
  let axis := sortedDates ymd exchange stocks in
  let observed := map ymd (observed_timestamps exchange stocks) in
  (forall pow range items, labels (analyze ymd pow range items exchange stocks) = axis) /\
  (forall k, k ∈ axis <-> k ∈ observed) /\
  length axis = size (list_to_set observed : gset string) /\
  StronglySorted DateKey.lt axis /\
  NoDup axis.
Proof.
  intros axis observed. split_and!.
  - intros pow range items. apply valuation_values.
  - intros k. apply sortedDates_elem.
  - rewrite <- (size_list_to_set (C := gset string) axis)
      by apply sortedDates_NoDup.
    f_equal. apply set_eq. intros k.
    rewrite !elem_of_list_to_set. apply sortedDates_elem.
  - apply sortedDates_sorted.
  - apply sortedDates_NoDup.
Qed.

End ValuationClaims.

(** ** Statements on the sample inputs *)

Lemma has_value_set_closes (ymd : Z -> string) (ts : list Z) (closes : list JS.val)
    (x : string) :
  has_value (Analyze.set_closes ymd ts closes 0 ∅) x = true -> x ∈ map ymd ts.
Proof.
  intros H%has_value_dom. apply dom_set_closes in H as [H|H]; [|done].
  by rewrite dom_empty, elem_of_empty in H.
Qed.

(** Case analysis on a date known to be one of finitely many keys. *)
Ltac date_cases H :=
  repeat (apply elem_of_cons in H as [->|H]); [..|by apply elem_of_nil in H].

Ltac false_order :=
  match goal with
  | H : DateKey.lt _ _ |- _ => vm_compute in H; discriminate H
  | H : DateKey.le _ _ |- _ => vm_compute in H; discriminate H
  end.

(** The sample stock series has no valid observation strictly between
    1970-01-12 and 1970-01-14: the close of 1970-01-13 is [null]. *)
Lemma sampleF_gap (x : string) :
  DateKey.lt "1970-01-12" x -> DateKey.lt x "1970-01-14" ->
  has_value (Analyze.dateToStocks DateKey.ymd_utc Sample.stocksF !!! 0) x = false.
Proof.
  intros Hlo Hhi.
  destruct (has_value _ x) eqn:Hx; [|reflexivity].
  pose proof Hx as Hdom.
  apply has_value_set_closes in Hdom. vm_compute in Hdom.
  date_cases Hdom; try false_order.
  vm_compute in Hx. discriminate Hx.
Qed.

(** The sample exchange-rate series has no observation up to 1970-01-11. *)
Lemma sampleF_no_rate (x : string) :
  DateKey.le x "1970-01-11" ->
  has_value (Analyze.dateToExchange DateKey.ymd_utc Sample.exchangeF) x = false.
Proof.
  intros Hle.
  destruct (has_value _ x) eqn:Hx; [|reflexivity].
  apply has_value_set_closes in Hx. vm_compute in Hx.
  date_cases Hx; false_order.
Qed.

(** A run of [analyzePortfolio] that reaches the report is a run of
    [analyze] on the fetched series, one per item. *)
Lemma analyzePortfolio_Done (ymd : Z -> string) (pow : JS.num -> JS.num -> JS.num)
    (fetch : string -> string -> option history) (range : string)
    (portfolio : list holding) (r : Analyze.report) :
  Analyze.analyzePortfolio ymd pow fetch range portfolio = Analyze.Done r ->
  exists exchange stocks,
    length stocks = length portfolio /\
    r = Analyze.analyze ymd pow range portfolio exchange stocks.
Proof.
  unfold Analyze.analyzePortfolio. case_bool_decide; [done|].
  destruct (fetch "KRW=X" range) as [h|]; [|done].
  destruct (timestamp h) as [ts|]; [|done].
  destruct (mapM _ _) as [stocks|] eqn:Hstocks; [|done].
  intros [= <-]. exists (ts, close h), stocks. split; [|done].
  apply length_mapM in Hstocks. by rewrite length_fmap in Hstocks.
Qed.

(** C1. On every date of the axis the valuation computed by
    [analyzePortfolio] is the sum over the holdings of forward-filled price
    x quantity x multiplier, the multiplier being 1 for a holding whose
    symbol ends in [.KS] or [.KQ] and the forward-filled exchange rate for
    the others; on the inputs of scenario C the function reports 31000. *)
Theorem portfolio_total_value :
  (forall ymd pow fetch range portfolio r,
     Analyze.analyzePortfolio ymd pow fetch range portfolio = Analyze.Done r ->
     exists exchange stocks,
       length stocks = length portfolio /\
       r = Analyze.analyze ymd pow range portfolio exchange stocks) /\
  (forall ymd pow range items exchange stocks,
     let r := Analyze.analyze ymd pow range items exchange stocks in
     Analyze.labels r = Analyze.sortedDates ymd exchange stocks /\
     Analyze.values r =
       map (totalValue items (Analyze.dateToStocks ymd stocks)
                       (Analyze.dateToExchange ymd exchange) (seed exchange))
           (Analyze.labels r)) /\
  (forall item rate, fxMultiplier item rate =
     if endsWith (symbol item) ".KS" || endsWith (symbol item) ".KQ"
     then JS.Fin 1 else JS.ToNumber rate) /\
  (forall pow range,
     exists r,
       Analyze.analyzePortfolio DateKey.ymd_utc pow Sample.fetchC range Sample.itemsC
         = Analyze.Done r /\
       Analyze.labels r = ["1970-01-11"] /\
       Analyze.values r = [JS.Fin 31000]).
Proof.
  split_and!.
  - exact analyzePortfolio_Done.
  - intros ymd pow range items exchange stocks r.
    destruct (valuation_values ymd items exchange stocks) as [Hl Hv].
    unfold r, Analyze.analyze. simpl. split; [done|]. by rewrite Hv, Hl.
  - done.
  - intros pow range. eexists. split; [reflexivity|]. split; vm_compute; reflexivity.
Qed.

(** A run of C3 on the sample: on 1970-01-13, whose close is [null], the
    loop still uses the close 11 observed on 1970-01-12. *)
Lemma forward_fill_price_witness :
  Analyze.sortedDates DateKey.ymd_utc Sample.exchangeF Sample.stocksF =
    ["1970-01-11"; "1970-01-12"] ++ "1970-01-13" :: ["1970-01-14"] /\
  0 < length Sample.itemsF /\
  JS.index
    (Analyze.lastPrices
       (Analyze.run DateKey.ymd_utc Sample.itemsF Sample.exchangeF Sample.stocksF
                    (["1970-01-11"; "1970-01-12"] ++ ["1970-01-13"]))) 0
  = Sample.price 11.
Proof.
  assert (Analyze.sortedDates DateKey.ymd_utc Sample.exchangeF Sample.stocksF =
          ["1970-01-11"; "1970-01-12"] ++ "1970-01-13" :: ["1970-01-14"]) as Haxis
    by (vm_compute; reflexivity).
  assert (0 < length Sample.itemsF) as Hidx by (simpl; lia).
  split; [exact Haxis|]. split; [exact Hidx|].
  destruct (forward_fill_price DateKey.ymd_utc Sample.itemsF Sample.exchangeF Sample.stocksF
              0 ["1970-01-11"; "1970-01-12"] ["1970-01-14"]
              "1970-01-13" "1970-01-12" "1970-01-14" Haxis Hidx) as [Hbetween _].
  rewrite Hbetween;
    [vm_compute; reflexivity
    |vm_compute; reflexivity
    |vm_compute; reflexivity
    |vm_compute; reflexivity
    |exact sampleF_gap
    |vm_compute; reflexivity
    |vm_compute; reflexivity].
Defined.

(** A run of the amended C7 on the sample: on 1970-01-11, before the first
    observation of the exchange rate, the loop uses the first close 1300. *)
Lemma exchange_rate_seed_witness :
  Analyze.sortedDates DateKey.ymd_utc Sample.exchangeF Sample.stocksF =
    [] ++ "1970-01-11" :: ["1970-01-12"; "1970-01-13"; "1970-01-14"] /\
  Analyze.lastExchange
    (Analyze.run DateKey.ymd_utc Sample.itemsF Sample.exchangeF Sample.stocksF
                 ([] ++ ["1970-01-11"]))
  = Sample.price 1300.
Proof.
  assert (Analyze.sortedDates DateKey.ymd_utc Sample.exchangeF Sample.stocksF =
          [] ++ "1970-01-11" :: ["1970-01-12"; "1970-01-13"; "1970-01-14"]) as Haxis
    by (vm_compute; reflexivity).
  split; [exact Haxis|].
  destruct (exchange_rate_seed DateKey.ymd_utc Sample.itemsF Sample.exchangeF Sample.stocksF
              [] ["1970-01-12"; "1970-01-13"; "1970-01-14"]
              "1970-01-11" "1970-01-11" Haxis) as [Hseed _].
  rewrite Hseed; [vm_compute; reflexivity|exact sampleF_no_rate].
Defined.

(** C7 as stated fails: the sample has no valid exchange-rate observation at
    or before 1970-01-11, and the rate used on that date is 1300, not 1200. *)
Lemma exchange_rate_fallback_counterexample :
  ~ (forall pre d post,
       Analyze.sortedDates DateKey.ymd_utc Sample.exchangeF Sample.stocksF = pre ++ d :: post ->
       (forall x, DateKey.le x d ->
                  has_value (Analyze.dateToExchange DateKey.ymd_utc Sample.exchangeF) x = false) ->
       Analyze.lastExchange
         (Analyze.run DateKey.ymd_utc Sample.itemsF Sample.exchangeF Sample.stocksF (pre ++ [d]))
       = JS.Num (JS.Fin 1200)).
Proof.
  intros H.
  specialize (H [] "1970-01-11" ["1970-01-12"; "1970-01-13"; "1970-01-14"]).
  assert (JS.Num (JS.Fin 1300) = JS.Num (JS.Fin 1200)) as Habs; [|discriminate Habs].
  apply H; [vm_compute; reflexivity|exact sampleF_no_rate].
Qed.

(** ** Several observations on one date *)

Section SameDate.

Import Analyze.

Variable ymd : Z -> string.

Lemma last_same_date_Some (k : string) (ts : list Z) (j : nat) :
  last_same_date ymd k ts = Some j <->
  (exists t, ts !! j = Some t /\ ymd t = k) /\
  (forall j' t', j < j' -> ts !! j' = Some t' -> ymd t' <> k).
Proof.
  revert j. induction ts as [|t ts IH]; intros j; simpl.
  - split; [done|]. by intros [(t & Ht & _) _].
  - destruct (last_same_date ymd k ts) as [j0|] eqn:Hlast.
    + destruct (proj1 (IH j0) eq_refl) as [(t0 & Ht0 & Hk0) Hlast0].
      split.
      * intros [= <-]. split; [by exists t0|].
        intros [|j'] t' Hlt Hj'; [lia|]. simpl in Hj'. apply (Hlast0 j'); [lia|done].
      * intros [(t1 & Ht1 & Hk1) Hlast1]. f_equal.
        destruct j as [|j].
        -- destruct (Hlast1 (S j0) t0); [lia|done|done].
        -- f_equal. symmetry. assert (Some j0 = Some j) as [= ->]; [|done].
           apply IH. split; [by exists t1|].
           intros j' t' Hlt Hj'. apply (Hlast1 (S j')); [lia|done].
    + assert (forall j' t', ts !! j' = Some t' -> ymd t' <> k) as Hnone.
      { intros j' t' Hj' Hk.
        assert (exists j, last_same_date ymd k ts = Some j) as [j1 Hj1]; [|congruence].
        clear -Hj' Hk. revert j' Hj'.
        induction ts as [|t ts IH]; intros j' Hj'; [done|]. simpl.
        destruct (last_same_date ymd k ts) as [j0|] eqn:E; [eauto|].
        destruct j' as [|j']; simpl in Hj'.
        - injection Hj' as ->. rewrite decide_True by done. eauto.
        - destruct (IH j' Hj') as [? ?]. done. }
      destruct (decide (ymd t = k)) as [Hk|Hk]; split.
      * intros [= <-]. split; [by exists t|].
        intros [|j'] t' Hlt Hj'; [lia|]. by apply (Hnone j').
      * intros [(t1 & Ht1 & Hk1) _]. destruct j as [|j]; [done|].
        by destruct (Hnone j t1).
      * done.
      * intros [(t1 & Ht1 & Hk1) _]. destruct j as [|j].
        -- simpl in Ht1. congruence.
        -- by destruct (Hnone j t1).
Qed.

Lemma set_closes_lookup (ts : list Z) (closes : list JS.val) (i : nat)
    (m : gmap string JS.val) (k : string) :
  set_closes ymd ts closes i m !! k =
  match last_same_date ymd k ts with
  | Some j => Some (JS.index closes (i + j))
  | None => m !! k
  end.
Proof.
  revert i m. induction ts as [|t ts IH]; intros i m; simpl; [done|].
  rewrite IH. destruct (last_same_date ymd k ts) as [j|].
  - do 2 f_equal. lia.
  - destruct (decide (ymd t = k)) as [<-|Hk].
    + by rewrite lookup_insert_eq, Nat.add_0_r.
    + by rewrite lookup_insert_ne.
Qed.

(** Overwriting a close that a later observation of the same date
    supersedes leaves the lookup as it was. *)
Lemma set_closes_superseded (ts : list Z) (closes : list JS.val) (i j : nat)
    (ti tj : Z) (x : JS.val) :
  ts !! i = Some ti -> ts !! j = Some tj -> i < j -> ymd ti = ymd tj ->
  set_closes ymd ts (<[i := x]> closes) 0 ∅ = set_closes ymd ts closes 0 ∅.
Proof.
  intros Hi Hj Hlt Hsame. apply map_eq. intros k.
  rewrite !set_closes_lookup.
  destruct (last_same_date ymd k ts) as [j0|] eqn:Hlast; [|done].
  f_equal. simpl. unfold JS.index.
  rewrite list_lookup_insert_ne; [done|].
  intros <-. apply last_same_date_Some in Hlast as [(t & Ht & Hk) Hafter].
  apply (Hafter j tj); [done..|]. congruence.
Qed.

Lemma allDatesSet_same_timestamps (exchange : series) (stocks : list (option series))
    (idx : nat) (ts : list Z) (closes closes' : list JS.val) :
  stocks !! idx = Some (Some (ts, closes)) ->
  allDatesSet ymd exchange (<[idx := Some (ts, closes')]> stocks) =
  allDatesSet ymd exchange stocks.
Proof.
  unfold allDatesSet. generalize (add_dates ymd exchange.1 []) as s0.
  revert idx. induction stocks as [|res stocks IH]; intros idx s0 Hidx; [done|].
  destruct idx as [|idx]; simpl in *.
  - by injection Hidx as ->.
  - by apply IH.
Qed.

Lemma dateToStocks_superseded (stocks : list (option series)) (idx : nat)
    (ts : list Z) (closes : list JS.val) (i j : nat) (ti tj : Z) (x : JS.val) :
  stocks !! idx = Some (Some (ts, closes)) ->
  ts !! i = Some ti -> ts !! j = Some tj -> i < j -> ymd ti = ymd tj ->
  dateToStocks ymd (<[idx := Some (ts, <[i := x]> closes)]> stocks) =
  dateToStocks ymd stocks.
Proof.
  intros Hidx Hi Hj Hlt Hsame. unfold dateToStocks.
  rewrite list_fmap_insert. simpl.
  rewrite (set_closes_superseded ts closes i j ti tj x) by done.
  apply list_insert_id. rewrite list_lookup_fmap, Hidx. done.
Qed.

(** C10, as amended. Of several observations of one series on one date
    the lookup keeps the close of the last one in the array.  An earlier
    close of a stock series on that date has no effect on what
    [analyzePortfolio] reports; the same holds for an earlier close of the
    exchange-rate series unless it is the first element of the array, which
    stays the seed of the exchange rate. *)
Theorem same_date_last_write_wins :
  (forall (ts : list Z) (closes : list JS.val) (i : nat) (t : Z),
     ts !! i = Some t ->
     (forall j t', i < j -> ts !! j = Some t' -> ymd t' <> ymd t) ->
     dateToExchange ymd (ts, closes) !! ymd t = Some (JS.index closes i) /\
     forall stocks idx, stocks !! idx = Some (Some (ts, closes)) ->
       (dateToStocks ymd stocks !!! idx) !! ymd t = Some (JS.index closes i)) /\
  (forall pow range items exchange stocks idx ts closes i j ti tj x,
     stocks !! idx = Some (Some (ts, closes)) ->
     ts !! i = Some ti -> ts !! j = Some tj -> i < j -> ymd ti = ymd tj ->
     analyze ymd pow range items exchange (<[idx := Some (ts, <[i := x]> closes)]> stocks) =
     analyze ymd pow range items exchange stocks) /\
  (forall pow range items ts closes stocks i j ti tj x,
     ts !! i = Some ti -> ts !! j = Some tj -> 0 < i -> i < j -> ymd ti = ymd tj ->
     analyze ymd pow range items (ts, <[i := x]> closes) stocks =
     analyze ymd pow range items (ts, closes) stocks).
Proof.
  split_and!.
  - intros ts closes i t Hi Hlast.
    assert (set_closes ymd ts closes 0 ∅ !! ymd t = Some (JS.index closes i)) as Hlookup.
    { rewrite set_closes_lookup.
      assert (last_same_date ymd (ymd t) ts = Some i) as ->; [|done].
      apply last_same_date_Some. split; [by exists t|done]. }
    split; [exact Hlookup|].
    intros stocks idx Hidx. by rewrite dateToStocks_lookup, Hidx.
  - intros pow range items exchange stocks idx ts closes i j ti tj x Hidx Hi Hj Hlt Hsame.
    unfold analyze, valuation, run, sortedDates.
    rewrite (dateToStocks_superseded stocks idx ts closes i j ti tj x) by done.
    rewrite (allDatesSet_same_timestamps exchange stocks idx ts closes) by done.
    done.
  - intros pow range items ts closes stocks i j ti tj x Hi Hj Hpos Hlt Hsame.
    unfold analyze, valuation, run, sortedDates, initial_state, dateToExchange, allDatesSet.
    simpl. rewrite (set_closes_superseded ts closes i j ti tj x) by done.
    unfold JS.index. rewrite list_lookup_insert_ne by lia. done.
Qed.

End SameDate.

(** C10 as stated fails for the exchange-rate series: in the sample the
    first close is superseded on its own date, and changing it changes the
    valuation of the date before. *)
Lemma same_date_first_close_counterexample :
  let changed : series :=
    (Sample.exchangeD.1, <[0 := Sample.price 1250]> Sample.exchangeD.2) in
  let values := fun exchange =>
    Analyze.portfolioValues
      (Analyze.valuation DateKey.ymd_utc Sample.itemsF exchange Sample.stocksD) in
  Sample.exchangeD.1 !! 0 = Some (Sample.day 11) /\
  Sample.exchangeD.1 !! 1 = Some (Sample.day 11 + 3600)%Z /\
  DateKey.ymd_utc (Sample.day 11) = DateKey.ymd_utc (Sample.day 11 + 3600) /\
  values Sample.exchangeD = [JS.Fin 13000; JS.Fin 13100] /\
  values changed = [JS.Fin 12500; JS.Fin 13100] /\
  values changed <> values Sample.exchangeD.
Proof.
  intros changed values.
  assert (values Sample.exchangeD = [JS.Fin 13000; JS.Fin 13100]) as Hold
    by (vm_compute; reflexivity).
  assert (values changed = [JS.Fin 12500; JS.Fin 13100]) as Hnew
    by (vm_compute; reflexivity).
  split_and!; [vm_compute; reflexivity..|exact Hold|exact Hnew|].
  rewrite Hold, Hnew. discriminate.
Qed.

(** ** Composition snapshots *)

Section Snapshots.

Import Analyze.

Variable ymd : Z -> string.

Lemma has_None (m : gmap string JS.val) (d : string) : m !! d = None -> has m d = false.
Proof.
  intros H. unfold has. apply bool_decide_eq_false_2. rewrite H. by intros [? ?].
Qed.

Lemma has_Some (m : gmap string JS.val) (d : string) (v : JS.val) :
  m !! d = Some v -> has m d = true.
Proof.
  intros H. unfold has. apply bool_decide_eq_true_2. rewrite H. eauto.
Qed.

Lemma valuation_last (items : list holding) (exchange : series)
    (stocks : list (option series)) (pre : list string) (d : string) (idx : nat) :
  sortedDates ymd exchange stocks = pre ++ [d] ->
  idx < length items ->
  let final := valuation ymd items exchange stocks in
  lastExchange final = forward_filled (dateToExchange ymd exchange) (seed exchange) d /\
  JS.index (lastPrices final) idx =
    forward_filled (dateToStocks ymd stocks !!! idx) (JS.Num (JS.Fin 0)) d.
Proof.
  intros Haxis Hidx. simpl. unfold valuation. rewrite Haxis. split.
  - by apply (lastExchange_forward_filled ymd items exchange stocks pre []).
  - unfold JS.index.
    by rewrite (lastPrices_forward_filled ymd items exchange stocks pre [] d idx).
Qed.

(** C8, as amended. The start snapshot gives a holding its value on the
    first date of the axis: 0 when the holding has no observation on that
    date, and otherwise the close of that date x quantity, times (for a
    foreign holding) the exchange-rate close of that date, or 1200 when the
    exchange-rate series has no entry on it.  The end snapshot gives a
    holding whose forward-filled price on the last date of the axis is
    positive the term it contributes to the last valuation point, and 0
    otherwise.  The valuation series has one point per date of the axis,
    the total of that date, whatever the snapshots are. *)
Theorem composition_snapshots (pow : JS.num -> JS.num -> JS.num) (range : string)
    (items : list holding) (exchange : series) (stocks : list (option series))
    (idx : nat) (item : holding) :
  let r := analyze ymd pow range items exchange stocks in
  let axis := sortedDates ymd exchange stocks in
  let priceMap := dateToStocks ymd stocks !!! idx in
  let exchangeMap := dateToExchange ymd exchange in
  items !! idx = Some item ->
  (forall d0 rest, axis = d0 :: rest ->
     (priceMap !! d0 = None -> startValues r !! idx = Some (name item, JS.Fin 0)) /\
     (forall v, priceMap !! d0 = Some v ->
        startValues r !! idx =
        Some (name item,
              let val := JS.mul (JS.ToNumber v) (quantity item) in
              if isKRW item then val
              else JS.mul val (JS.ToNumber (from_option id (JS.Num (JS.Fin 1200))
                                                        (exchangeMap !! d0)))))) /\
  (forall pre d, axis = pre ++ [d] ->
     let price := forward_filled priceMap (JS.Num (JS.Fin 0)) d in
     let rate := forward_filled exchangeMap (seed exchange) d in
     endValues r !! idx =
     Some (name item,
           if JS.gtb (JS.ToNumber price) (JS.Fin 0)
           then JS.mul (JS.mul (JS.ToNumber price) (quantity item)) (fxMultiplier item rate)
           else JS.Fin 0)) /\
  (axis = [] -> startValues r !! idx = Some (name item, JS.Fin 0) /\
                endValues r !! idx = Some (name item, JS.Fin 0)) /\
  values r = map (totalValue items (dateToStocks ymd stocks) exchangeMap (seed exchange)) axis.
Proof.
  intros r axis priceMap exchangeMap Hitem.
  assert (idx < length items) as Hidx by (by eapply lookup_lt_Some).
  split_and!.
  - intros d0 rest Haxis. unfold r, analyze. simpl.
    rewrite !list_lookup_imap, Hitem. simpl. unfold startValue.
    fold axis priceMap exchangeMap. rewrite Haxis. simpl. split.
    + intros Hnone. by rewrite (has_None _ _ Hnone).
    + intros v Hv. rewrite (has_Some _ _ _ Hv). unfold get at 1 2. rewrite Hv. simpl.
      do 2 f_equal. destruct (isKRW item); [done|]. do 2 f_equal.
      destruct (exchangeMap !! d0) as [w|] eqn:Hw; simpl.
      * rewrite (has_Some _ _ _ Hw). unfold get. by rewrite Hw.
      * by rewrite (has_None _ _ Hw).
  - intros pre d Haxis price rate. unfold r, analyze. simpl.
    rewrite list_lookup_imap, Hitem. simpl. unfold endValue.
    destruct (valuation_last items exchange stocks pre d idx Haxis Hidx) as [-> ->].
    fold priceMap exchangeMap price rate.
    rewrite <- (contribution_fxMultiplier rate item price). reflexivity.
  - intros Haxis. unfold r, analyze. simpl.
    rewrite !list_lookup_imap, Hitem. simpl.
    unfold startValue, endValue, valuation. fold axis. rewrite Haxis. simpl.
    split; [done|]. unfold JS.index.
    rewrite lookup_replicate_2 by done. done.
  - unfold r, analyze. simpl. apply valuation_values.
Qed.

End Snapshots.

(** A run of the amended C8 on the sample: the holding has no observation
    on the first date of the axis, so its start value is 0. *)
Lemma composition_snapshots_witness :
  Sample.itemsF !! 0 = Some {| symbol := "AAPL"; name := "Apple"; quantity := JS.Fin 1 |} /\
  Analyze.startValues
    (Analyze.analyze DateKey.ymd_utc Sample.pow01 "1y"
                     Sample.itemsF Sample.exchangeL Sample.stocksL)
    !! 0 = Some ("Apple", JS.Fin 0).
Proof.
  assert (Sample.itemsF !! 0 =
          Some {| symbol := "AAPL"; name := "Apple"; quantity := JS.Fin 1 |}) as Hitem
    by reflexivity.
  split; [exact Hitem|].
  destruct (composition_snapshots DateKey.ymd_utc Sample.pow01 "1y" Sample.itemsF Sample.exchangeL
              Sample.stocksL 0 _ Hitem) as (Hstart & _).
  destruct (Hstart "1970-01-11" ["1970-01-12"]) as [Hnone _];
    [vm_compute; reflexivity|].
  apply Hnone. vm_compute. reflexivity.
Defined.

(** C8 as stated fails for the start snapshot: the first date of the axis
    on which the sample holding has a price is 1970-01-12, its normalized
    value on that date is 10 x 1 x 1310 = 13100, and the start snapshot of
    the script gives it 0. *)
Lemma start_snapshot_counterexample :
  let r := Analyze.analyze DateKey.ymd_utc Sample.pow01 "1y"
             Sample.itemsF Sample.exchangeL Sample.stocksL in
  let spec := compositionSnapshot true Sample.itemsF
                (Analyze.dateToStocks DateKey.ymd_utc Sample.stocksL)
                (Analyze.dateToExchange DateKey.ymd_utc Sample.exchangeL)
                (seed Sample.exchangeL)
                (Analyze.sortedDates DateKey.ymd_utc Sample.exchangeL Sample.stocksL) in
  spec = [("Apple", JS.Fin 13100)] /\
  Analyze.startValues r = [("Apple", JS.Fin 0)] /\
  Analyze.startValues r <> spec.
Proof.
  intros r spec.
  assert (spec = [("Apple", JS.Fin 13100)]) as Hspec by (vm_compute; reflexivity).
  assert (Analyze.startValues r = [("Apple", JS.Fin 0)]) as Hcode
    by (vm_compute; reflexivity).
  split; [exact Hspec|]. split; [exact Hcode|].
  rewrite Hspec, Hcode. discriminate.
Qed.

(** ** Total return and CAGR *)

Section Metrics.

Import Analyze.

Lemma years_unknown (range : string) :
  range ∉ ["10y"; "7y"; "5y"; "3y"; "1y"; "6mo"] -> years range = JS.Fin 5.
Proof.
  intros Hnot. unfold years.
  assert (rangeMap !! range = None) as ->; [|done].
  apply not_elem_of_list_to_map_1. exact Hnot.
Qed.

(** C5. In [analyzePortfolio] the number of years of the CAGR comes from the
    table 10y -> 10, 7y -> 7, 5y -> 5, 3y -> 3, 1y -> 1, 6mo -> 0.5, and is 5
    for every other range; the CAGR is
    [((last / first) ^ (1 / years) - 1) * 100] when the first and the last
    valuation are both greater than 0, and 0 otherwise. *)
Theorem cagr_range_lookup :
  (years "10y" = JS.Fin 10 /\ years "7y" = JS.Fin 7 /\ years "5y" = JS.Fin 5 /\
   years "3y" = JS.Fin 3 /\ years "1y" = JS.Fin 1 /\ years "6mo" = JS.Fin (1 # 2)) /\
  (forall range, range ∉ ["10y"; "7y"; "5y"; "3y"; "1y"; "6mo"] -> years range = JS.Fin 5) /\
  (forall pow range values,
     let first := JS.ToNumber (first_value values) in
     let last := JS.ToNumber (last_value values) in
     (JS.gtb first (JS.Fin 0) = true -> JS.gtb last (JS.Fin 0) = true ->
      cagr_of pow range values =
      JS.mul (JS.sub (pow (JS.div last first) (JS.div (JS.Fin 1) (years range))) (JS.Fin 1))
             (JS.Fin 100)) /\
     (JS.gtb first (JS.Fin 0) = false \/ JS.gtb last (JS.Fin 0) = false ->
      cagr_of pow range values = JS.Fin 0)) /\
  (forall ymd pow range items exchange stocks,
     let r := analyze ymd pow range items exchange stocks in
     cagr r = cagr_of pow range (values r)).
Proof.
  split_and!.
  1-6: vm_compute; reflexivity.
  - exact years_unknown.
  - intros pow range values first last. unfold cagr_of. fold first last. split.
    + by intros -> ->.
    + intros [-> | ->]; [done|]. by rewrite andb_false_r.
  - done.
Qed.

(** C9 fails on the script: the total return is computed without a guard.
    On the sample (a holding first observed one day after the first
    exchange rate) the first valuation is 0, [analyzePortfolio] reports an
    infinite total return, while the CAGR of the same run is guarded and 0.
    In general a first valuation of 0 makes the total return infinite or
    NaN. *)
Theorem totalReturn_not_guarded :
  (exists r,
     analyzePortfolio DateKey.ymd_utc Sample.pow01 Sample.fetchL "1y" Sample.itemsF = Done r /\
     values r = [JS.Fin 0; JS.Fin 13100] /\
     totalReturn r = JS.PInf /\
     cagr r = JS.Fin 0) /\
  (forall v values q,
     last_value (JS.Fin 0 :: values) = JS.Num (JS.Fin q) ->
     totalReturn_of (JS.Fin 0 :: values) = v ->
     JS.is_finite v = false).
Proof.
  split.
  - eexists. split; [reflexivity|]. split_and!; vm_compute; reflexivity.
  - intros v values q Hlast <-. unfold totalReturn_of. rewrite Hlast. simpl.
    unfold JS.div. simpl. destruct (_ ?= _)%Z; reflexivity.
Qed.

End Metrics.

(** ** The order on numbers *)

Module NumFacts.

#[global] Arguments JS.Qltb : simpl never.
#[global] Arguments JS.Qzerob : simpl never.
#[global] Arguments Qle_bool : simpl never.

Lemma Qltb_lt (a b : Q) : JS.Qltb a b = true <-> (a < b)%Q.
Proof.
  unfold JS.Qltb. rewrite negb_true_iff, <- not_true_iff_false, Qle_bool_iff.
  split; [apply Qnot_le_lt|apply Qlt_not_le].
Qed.

Lemma Qltb_ge (a b : Q) : JS.Qltb a b = false <-> (b <= a)%Q.
Proof.
  unfold JS.Qltb. by rewrite negb_false_iff, Qle_bool_iff.
Qed.

Lemma Qzerob_pos (a : Q) : (0 < a)%Q -> JS.Qzerob a = false.
Proof.
  unfold JS.Qzerob, Qlt. simpl. intros H. apply Z.eqb_neq. lia.
Qed.

(** Turn the boolean comparisons of rationals in the context into
    propositions, for [lra]. *)
Ltac to_Q :=
  repeat match goal with
         | H : JS.Qltb _ _ = true |- _ => apply Qltb_lt in H
         | H : JS.Qltb _ _ = false |- _ => apply Qltb_ge in H
         | H : Qle_bool _ _ = true |- _ => apply Qle_bool_iff in H
         | |- JS.Qltb _ _ = true => apply Qltb_lt
         | |- JS.Qltb _ _ = false => apply Qltb_ge
         | |- Qle_bool _ _ = true => apply Qle_bool_iff
         end.

Ltac order := intros; simpl in *; try done; to_Q; lra.

Lemma ltb_leb (x y : JS.num) : JS.ltb x y = true -> JS.leb x y = true.
Proof. destruct x, y; order. Qed.

Lemma leb_trans (x y z : JS.num) :
  JS.leb x y = true -> JS.leb y z = true -> JS.leb x z = true.
Proof. destruct x, y, z; order. Qed.

Lemma leb_refl (x : JS.num) : JS.is_nan x = false -> JS.leb x x = true.
Proof. destruct x; order. Qed.

Lemma ltb_false_leb (x y : JS.num) :
  JS.is_nan x = false -> JS.is_nan y = false -> JS.ltb x y = false -> JS.leb y x = true.
Proof. destruct x, y; order. Qed.

Lemma ltb_not_nan (x y : JS.num) :
  JS.ltb x y = true -> JS.is_nan x = false /\ JS.is_nan y = false.
Proof. destruct x, y; done. Qed.

End NumFacts.

(** ** Maximum drawdown *)

Section Drawdown.

Lemma drawdown_loop_snoc (l : list JS.num) (v : JS.num) :
  drawdown_loop (l ++ [v]) = drawdown_step (drawdown_loop l) v.
Proof. unfold drawdown_loop. by rewrite foldl_app. Qed.

(** The two components of a turn of the loop. *)
Lemma drawdown_step_eq (st : JS.num * JS.num) (v : JS.num) :
  let peak := if JS.gtb v st.1 then v else st.1 in
  let drawdown := JS.div (JS.sub v peak) peak in
  drawdown_step st v = (peak, if JS.ltb drawdown st.2 then drawdown else st.2).
Proof. by destruct st. Qed.

Lemma drawdown_nonpositive (l : list JS.num) :
  JS.is_nan (drawdown_loop l).2 = false /\ JS.leb (drawdown_loop l).2 (JS.Fin 0) = true.
Proof.
  induction l as [|v l [IH1 IH2]] using rev_ind; [done|].
  rewrite drawdown_loop_snoc, drawdown_step_eq. simpl.
  destruct (JS.ltb _ _) eqn:Hlt; [|done].
  split; [by apply NumFacts.ltb_not_nan in Hlt as [? _]|].
  eapply NumFacts.leb_trans; [by apply NumFacts.ltb_leb|done].
Qed.

Lemma drawdown_step_decreases (st : JS.num * JS.num) (v : JS.num) :
  JS.is_nan st.2 = false -> JS.leb (drawdown_step st v).2 st.2 = true.
Proof.
  intros Hnan. rewrite drawdown_step_eq. simpl.
  destruct (JS.ltb _ _) eqn:Hlt; [by apply NumFacts.ltb_leb|by apply NumFacts.leb_refl].
Qed.

Lemma drawdown_decreases (l l' : list JS.num) :
  JS.leb (drawdown_loop (l ++ l')).2 (drawdown_loop l).2 = true.
Proof.
  induction l' as [|v l' IH] using rev_ind.
  - rewrite app_nil_r. apply NumFacts.leb_refl, drawdown_nonpositive.
  - rewrite app_assoc, drawdown_loop_snoc.
    eapply NumFacts.leb_trans; [|exact IH].
    apply drawdown_step_decreases, drawdown_nonpositive.
Qed.

Lemma drawdown_loop_take_S (values : list JS.num) (k : nat) (v : JS.num) :
  values !! k = Some v ->
  drawdown_loop (take (S k) values) = drawdown_step (drawdown_loop (take k values)) v.
Proof.
  intros Hk. by rewrite (take_S_r _ _ _ Hk), drawdown_loop_snoc.
Qed.

Lemma drawdown_after_turn (values : list JS.num) (k : nat) (v : JS.num) :
  values !! k = Some v ->
  let md := (drawdown_loop (take (S k) values)).2 in
  (JS.is_nan (ratio_at values k v) = false -> JS.leb md (ratio_at values k v) = true) /\
  (md = ratio_at values k v \/ md = (drawdown_loop (take k values)).2).
Proof.
  intros Hk. simpl. unfold ratio_at, peak_at.
  rewrite (drawdown_loop_take_S _ _ _ Hk), drawdown_step_eq. simpl.
  destruct (drawdown_nonpositive (take k values)) as [Hnan _].
  destruct (JS.ltb _ _) eqn:Hlt.
  - split; [|by left]. intros Hr. by apply NumFacts.leb_refl.
  - split; [|by right]. intros Hr. by apply NumFacts.ltb_false_leb.
Qed.

Lemma drawdown_most_negative (values : list JS.num) (k : nat) (v : JS.num) :
  values !! k = Some v ->
  JS.is_nan (ratio_at values k v) = false ->
  JS.leb (maxDrawdown values) (ratio_at values k v) = true.
Proof.
  intros Hk Hr. unfold maxDrawdown.
  rewrite <- (take_drop (S k) values) at 1.
  eapply NumFacts.leb_trans; [apply drawdown_decreases|].
  by apply drawdown_after_turn.
Qed.

Lemma drawdown_attained (values : list JS.num) :
  maxDrawdown values = JS.Fin 0 \/
  exists k v, values !! k = Some v /\ maxDrawdown values = ratio_at values k v.
Proof.
  unfold maxDrawdown.
  assert (forall n, n <= length values ->
            (drawdown_loop (take n values)).2 = JS.Fin 0 \/
            exists k v, values !! k = Some v /\
                        (drawdown_loop (take n values)).2 = ratio_at values k v) as H.
  { induction n as [|n IH]; intros Hn; [by left|].
    destruct (lookup_lt_is_Some_2 values n) as [v Hv]; [lia|].
    destruct (drawdown_after_turn values n v Hv) as [_ [->| ->]]; [right; eauto|].
    apply IH. lia. }
  specialize (H (length values) (le_n _)). by rewrite firstn_all in H.
Qed.

Lemma peak_is_max (l : list JS.num) :
  (forall v, v ∈ l -> JS.is_nan v = false) -> l <> [] ->
  (drawdown_loop l).1 ∈ l /\ forall w, w ∈ l -> JS.leb w (drawdown_loop l).1 = true.
Proof.
  induction l as [|v l IH] using rev_ind; intros Hnan Hne; [done|].
  rewrite drawdown_loop_snoc, drawdown_step_eq. simpl.
  assert (v ∈ l ++ [v]) as Hlast by (apply elem_of_app; right; left).
  assert (forall w, w ∈ l -> w ∈ l ++ [v]) as Hinit by (intros w Hw; apply elem_of_app; by left).
  assert (JS.is_nan v = false) as Hv by (by apply Hnan).
  destruct (decide (l = [])) as [->|Hl].
  - simpl. destruct v; try done; simpl.
    all: split; [left|]; intros w ->%list_elem_of_singleton; try done.
    apply Qle_bool_iff. lra.
  - destruct IH as [Hin Hmax]; [intros w Hw; by apply Hnan, Hinit|done|].
    assert (JS.is_nan (drawdown_loop l).1 = false) as Hp by (by apply Hnan, Hinit).
    unfold JS.gtb. destruct (JS.ltb _ v) eqn:Hlt.
    + split; [done|]. intros w [Hw| ->%list_elem_of_singleton]%elem_of_app.
      * eapply NumFacts.leb_trans; [by apply Hmax|by apply NumFacts.ltb_leb].
      * by apply NumFacts.leb_refl.
    + split; [by apply Hinit|]. intros w [Hw| ->%list_elem_of_singleton]%elem_of_app.
      * by apply Hmax.
      * by apply NumFacts.ltb_false_leb.
Qed.

Lemma positive_turn (peak v : JS.num) :
  JS.gtb v (JS.Fin 0) = true ->
  peak = JS.NInf \/ JS.gtb peak (JS.Fin 0) = true ->
  let peak' := if JS.gtb v peak then v else peak in
  let drawdown := JS.div (JS.sub v peak') peak' in
  JS.gtb peak' (JS.Fin 0) = true /\
  (JS.is_nan drawdown = true \/ JS.leb (JS.Fin (-1)) drawdown = true).
Proof.
  intros Hv Hpeak. simpl. unfold JS.gtb in *.
  assert (forall a b : Q, (0 < a)%Q -> (a <= b)%Q ->
            JS.leb (JS.Fin (-1)) (JS.div (JS.sub (JS.Fin a) (JS.Fin b)) (JS.Fin b)) = true)
    as Hratio.
  { intros a b Ha Hab. simpl. rewrite NumFacts.Qzerob_pos by lra.
    simpl. apply Qle_bool_iff. apply Qle_shift_div_l; lra. }
  destruct v as [a| | |]; try done; simpl in Hv; NumFacts.to_Q.
  - destruct Hpeak as [->|Hpeak]; [|destruct peak as [p| | |]; try done].
    + simpl. split; [NumFacts.order|]. right. apply Hratio; lra.
    + simpl in Hpeak. NumFacts.to_Q. simpl JS.ltb.
      destruct (JS.Qltb p a) eqn:Hpa; NumFacts.to_Q.
      * split; [NumFacts.order|]. right. apply Hratio; lra.
      * split; [NumFacts.order|]. right. apply Hratio; lra.
    + simpl. auto.
  - destruct Hpeak as [->|Hpeak]; [|destruct peak as [p| | |]; try done]; simpl; auto.
Qed.

Lemma drawdown_positive (l : list JS.num) :
  (forall v, v ∈ l -> JS.gtb v (JS.Fin 0) = true) ->
  ((drawdown_loop l).1 = JS.NInf \/ JS.gtb (drawdown_loop l).1 (JS.Fin 0) = true) /\
  JS.leb (JS.Fin (-1)) (drawdown_loop l).2 = true.
Proof.
  induction l as [|v l IH] using rev_ind; intros Hpos.
  - split; [by left|]. simpl. apply Qle_bool_iff. lra.
  - destruct IH as [Hpeak Hmd]; [intros w Hw; apply Hpos, elem_of_app; by left|].
    rewrite drawdown_loop_snoc, drawdown_step_eq.
    destruct (positive_turn (drawdown_loop l).1 v) as [Hpeak' Hdd];
      [apply Hpos, elem_of_app; right; left|done|].
    simpl in *. split; [by right|].
    destruct (JS.ltb _ _) eqn:Hlt; [|done].
    destruct Hdd as [Hdd|Hdd]; [|done].
    apply NumFacts.ltb_not_nan in Hlt as [Hlt _]. congruence.
Qed.

(** C4. In both analyses the maximum drawdown is computed by the
    running-peak loop: the peak starts at negative infinity, so that the
    first value (when it is a number) is the first peak; on a series without
    NaN the peak of a turn is the highest value seen so far; the result is
    below or equal to the ratio [(value - peak) / peak] of every turn and is
    0 or one of these ratios; it is never above 0; and on a series of
    positive values the reported percentage lies between -100 and 0. *)
Theorem maxDrawdown_running_peak (values : list JS.num) :
  let md := maxDrawdown values in
  (drawdown_loop []).1 = JS.NInf /\
  (forall v rest, values = v :: rest -> JS.is_nan v = false -> peak_at values 0 = v) /\
  ((forall v, v ∈ values -> JS.is_nan v = false) ->
   forall k v, values !! k = Some v ->
     (exists j, j <= k /\ values !! j = Some (peak_at values k)) /\
     (forall j w, j <= k -> values !! j = Some w -> JS.leb w (peak_at values k) = true)) /\
  (forall k v, values !! k = Some v ->
     JS.is_nan (ratio_at values k v) = false -> JS.leb md (ratio_at values k v) = true) /\
  (md = JS.Fin 0 \/ exists k v, values !! k = Some v /\ md = ratio_at values k v) /\
  JS.leb md (JS.Fin 0) = true /\
  ((forall v, v ∈ values -> JS.gtb v (JS.Fin 0) = true) ->
   JS.leb (JS.Fin (-100)) (JS.mul md (JS.Fin 100)) = true /\
   JS.leb (JS.mul md (JS.Fin 100)) (JS.Fin 0) = true) /\
  (forall ymd pow range items exchange stocks,
     let r := Analyze.analyze ymd pow range items exchange stocks in
     Analyze.mdd r = maxDrawdown (Analyze.values r)) /\
  (forall pow toFixed2 rng items data n,
     Prober.mdd (Prober.measure pow toFixed2 rng items data n) =
     toFixed2 (JS.mul (maxDrawdown (Prober.portfolioValues items (Prober.normPrices data) n))
                      (JS.Fin 100))).
Proof.
  intros md. split_and!; [| | | | | | |done|done].
  - done.
  - intros v rest -> Hv. unfold peak_at. simpl. by destruct v.
  - intros Hnan k v Hk.
    destruct (peak_is_max (take (S k) values)) as [Hin Hmax].
    { intros w Hw. apply Hnan. by eapply subseteq_take. }
    { rewrite (take_S_r _ _ _ Hk). by destruct (take k values). }
    fold (peak_at values k) in Hin, Hmax. split.
    + apply list_elem_of_lookup in Hin as [j Hj].
      apply lookup_take_Some in Hj as [Hj Hlt]. exists j. split; [lia|done].
    + intros j w Hj Hw. apply Hmax. apply list_elem_of_lookup. exists j.
      apply lookup_take_Some. split; [done|lia].
  - apply drawdown_most_negative.
  - apply drawdown_attained.
  - apply drawdown_nonpositive.
  - intros Hpos.
    destruct (drawdown_positive values Hpos) as [_ Hlow].
    destruct (drawdown_nonpositive values) as [_ Hhigh].
    fold (maxDrawdown values) in Hlow, Hhigh. fold md in Hlow, Hhigh.
    destruct md as [q| | |]; try done. simpl in *. NumFacts.to_Q.
    split; apply Qle_bool_iff; lra.
Qed.

End Drawdown.

(** ** The range prober *)

Section ProberClaims.

Import Prober.

Variable Math_pow : JS.num -> JS.num -> JS.num.
Variable toFixed2 : JS.num -> string.
Variable fetchHistory : string -> string -> option history.

#[local] Abbreviation raw_observations := (raw_observations fetchHistory).
#[local] Abbreviation raw_closes := (raw_closes fetchHistory).
#[local] Abbreviation latest_start := (latest_start fetchHistory).
#[local] Abbreviation trimmed := (trimmed fetchHistory).
#[local] Abbreviation common_length := (common_length fetchHistory).
#[local] Abbreviation survives := (survives fetchHistory).

Lemma maxStartTime_bound (results : list (option history)) (res : option history)
    (t0 : Z) (rest : list Z) :
  res ∈ results -> times_of res = t0 :: rest -> (t0 <= maxStartTime results)%Z.
Proof.
  unfold maxStartTime.
  assert (forall l (m : Z),
            (m <= foldl (fun m res => match times_of res with
                                      | t0 :: _ => if (t0 >? m)%Z then t0 else m
                                      | [] => m
                                      end) m l)%Z) as Hmono.
  { induction l as [|r l IH]; intros m; simpl; [lia|].
    etrans; [|apply IH]. destruct (times_of r) as [|t ?]; [lia|].
    destruct (Z.gtb_spec t m); lia. }
  generalize 0%Z as m. induction results as [|r results IH]; intros m Hin Ht.
  - by apply elem_of_nil in Hin.
  - simpl. apply elem_of_cons in Hin as [<-|Hin]; [|by apply IH].
    rewrite Ht. etrans; [|apply Hmono]. destruct (Z.gtb_spec t0 m); lia.
Qed.

Lemma maxStartTime_attained (results : list (option history)) :
  maxStartTime results = 0%Z \/
  exists res t0 rest,
    res ∈ results /\ times_of res = t0 :: rest /\ maxStartTime results = t0.
Proof.
  unfold maxStartTime. generalize 0%Z as m.
  induction results as [|r results IH]; intros m; simpl; [by left|].
  destruct (times_of r) as [|t0 rest] eqn:Ht.
  - destruct (IH m) as [?|(res & t & rest' & Hin & Hres & Heq)]; [by left|right].
    exists res, t, rest'. split; [by right|done].
  - destruct (Z.gtb_spec t0 m).
    + right. destruct (IH t0) as [Heq|(res & t & rest' & Hin & Hres & Heq)].
      * exists r, t0, rest. split; [left|done].
      * exists res, t, rest'. split; [by right|done].
    + destruct (IH m) as [?|(res & t & rest' & Hin & Hres & Heq)]; [by left|right].
      exists res, t, rest'. split; [by right|done].
Qed.

Lemma findIndex_Some {A : Type} (p : A -> bool) (l : list A) (k : nat) :
  findIndex p l = Some k ->
  (exists x, l !! k = Some x /\ p x = true) /\
  (forall x, x ∈ take k l -> p x = false).
Proof.
  revert k. induction l as [|y l IH]; intros k; simpl; [done|].
  destruct (p y) eqn:Hy.
  - intros [= <-]. split; [eauto|]. simpl. intros x Hx. by apply elem_of_nil in Hx.
  - destruct (findIndex p l) as [j|]; [|done]. simpl. intros [= <-].
    destruct (IH j eq_refl) as [Hfound Hbefore]. split; [done|].
    simpl. intros x [->|Hx]%elem_of_cons; [done|by apply Hbefore].
Qed.

Lemma findIndex_None {A : Type} (p : A -> bool) (l : list A) :
  findIndex p l = None -> forall x, x ∈ l -> p x = false.
Proof.
  induction l as [|y l IH]; simpl; [by intros _ x Hx; apply elem_of_nil in Hx|].
  destruct (p y) eqn:Hy; [done|].
  destruct (findIndex p l) as [j|]; [done|]. intros _ x [->|Hx]%elem_of_cons; [done|].
  by apply IH.
Qed.

Lemma latest_start_nonneg (items : list item) (rng : string) : (0 <= latest_start items rng)%Z.
Proof.
  induction items as [|it items IH]; [done|].
  unfold latest_start in *. cbn [foldr].
  destruct (raw_observations it rng); lia.
Qed.

(** The loop over the results computes the latest first timestamp. *)
Lemma maxStartTime_latest_start (items : list item) (rng : string) :
  maxStartTime (fetch_all fetchHistory items rng) = latest_start items rng.
Proof.
  unfold maxStartTime, fetch_all.
  assert (forall m : Z, (0 <= m)%Z ->
            foldl (fun m res => match times_of res with
                                | t0 :: _ => if (t0 >? m)%Z then t0 else m
                                | [] => m
                                end) m
                  (map (fun it => fetchHistory (symbol it) rng) items)
            = Z.max m (latest_start items rng)) as H.
  { unfold latest_start.
    induction items as [|it items IH]; intros m Hm; cbn [map foldl foldr].
    - lia.
    - change (times_of (fetchHistory (symbol it) rng)) with (raw_observations it rng).
      destruct (raw_observations it rng) as [|t0 rest]; [by apply IH|].
      rewrite IH by (destruct (Z.gtb_spec t0 m); lia).
      destruct (Z.gtb_spec t0 m); lia. }
  rewrite H by lia. pose proof (latest_start_nonneg items rng). lia.
Qed.

(** [findIndex] finds the first observation at or after [start], if any. *)
Lemma findIndex_before_start (start : Z) (ts : list Z) :
  before_start start ts <= length ts /\
  findIndex (fun t => (t >=? start)%Z) ts =
  if decide (before_start start ts < length ts) then Some (before_start start ts) else None.
Proof.
  induction ts as [|t ts [IHle IH]]; cbn [before_start findIndex length].
  - split; [lia|]. destruct (decide (0 < 0)) as [Hlt|_]; [lia|done].
  - rewrite Z.geb_leb.
    destruct (Z.ltb_spec t start), (Z.leb_spec start t); try lia.
    + split; [lia|]. rewrite IH.
      destruct (decide (before_start start ts < length ts)) as [Hlt|Hge],
               (decide (S (before_start start ts) < S (length ts))) as [Hlt'|Hge'];
        try lia; done.
    + split; [lia|]. destruct (decide (0 < S (length ts))) as [_|Hge]; [done|].
      exfalso. apply Hge. lia.
Qed.

Lemma foldr_min_le (n : nat) (ns : list nat) :
  foldr Nat.min n ns <= n /\ forall x, x ∈ ns -> foldr Nat.min n ns <= x.
Proof.
  induction ns as [|a ns [IH1 IH2]]; simpl.
  - split; [lia|]. by intros x Hx%elem_of_nil.
  - split; [lia|]. intros x [->|Hx]%elem_of_cons; [lia|].
    specialize (IH2 x Hx). lia.
Qed.

Lemma foldl_min_foldr (n : nat) (ns : list nat) :
  foldl Nat.min n ns = foldr Nat.min n ns.
Proof.
  revert n. induction ns as [|a ns IH]; intros n; simpl; [done|].
  rewrite IH. clear IH. revert n a. induction ns as [|x ns IH]; intros n a; simpl; [lia|].
  rewrite IH. lia.
Qed.

(** The check on the raw observations. *)
Lemma existsb_insufficient (items : list item) (rng : string) :
  existsb insufficient (fetch_all fetchHistory items rng) =
  negb (forallb (fun it => (10 <=? length (raw_observations it rng))%nat) items).
Proof.
  unfold fetch_all. induction items as [|it items IH]; simpl; [done|].
  rewrite IH, negb_andb. f_equal.
  unfold insufficient, raw_observations.
  destruct (fetchHistory (symbol it) rng) as [[[ts|] ?]|]; simpl; [|done..].
  apply Nat.ltb_antisym.
Qed.

(** The trimmed series of the code and of the specification. *)
Lemma processedData_row (items : list item) (rng : string) (it : item) :
  let start := maxStartTime (fetch_all fetchHistory items rng) in
  let res := fetchHistory (symbol it) rng in
  let startIndex := findIndex (fun t => (t >=? start)%Z) (times_of res) in
  let row := (slice startIndex (times_of res), slice startIndex (closes_of res)) in
  (length (trimmed items rng it).1 <> 0 -> row = trimmed items rng it) /\
  (length (trimmed items rng it).1 = 0 -> length row.1 <= 1).
Proof.
  simpl. rewrite maxStartTime_latest_start.
  change (times_of (fetchHistory (symbol it) rng)) with (raw_observations it rng).
  change (closes_of (fetchHistory (symbol it) rng)) with (raw_closes it rng).
  unfold trimmed. simpl.
  destruct (findIndex_before_start (latest_start items rng) (raw_observations it rng))
    as [Hle ->].
  rewrite length_drop.
  destruct (decide (_ < _)) as [Hlt|Hge]; simpl.
  - split; [done|lia].
  - split; [lia|]. intros _. rewrite length_drop. lia.
Qed.

Lemma minLen_common_length (items : list item) (rng : string) :
  items <> [] ->
  exists n, minLen (processedData (fetch_all fetchHistory items rng)) = Some n /\
    ((120 <=? n)%nat = (120 <=? common_length items rng)%nat) /\
    ((120 <=? common_length items rng)%nat = true ->
     n = common_length items rng /\
     processedData (fetch_all fetchHistory items rng) = map (trimmed items rng) items).
Proof.
  intros Hne.
  set (row it := let start := maxStartTime (fetch_all fetchHistory items rng) in
                 let res := fetchHistory (symbol it) rng in
                 let startIndex := findIndex (fun t => (t >=? start)%Z) (times_of res) in
                 (slice startIndex (times_of res), slice startIndex (closes_of res))).
  assert (processedData (fetch_all fetchHistory items rng) = map row items) as Hdata.
  { unfold processedData, fetch_all. by rewrite map_map. }
  rewrite Hdata. unfold minLen. rewrite map_map.
  assert (forall it, (length (trimmed items rng it).1 <> 0 -> row it = trimmed items rng it) /\
                     (length (trimmed items rng it).1 = 0 -> length (row it).1 <= 1)) as Hrow.
  { intros it. apply processedData_row. }
  unfold common_length.
  destruct (decide (Forall (fun it => length (trimmed items rng it).1 <> 0) items))
    as [Hall|Hsome].
  - assert (map row items = map (trimmed items rng) items) as Hmap.
    { apply map_ext_in. intros it Hit%list_elem_of_In.
      rewrite Forall_forall in Hall. by apply Hrow, Hall. }
    assert (map (fun x => length (row x).1) items =
            map (fun it => length (trimmed items rng it).1) items) as ->.
    { rewrite <- (map_map row (fun d => length d.1)), Hmap. by rewrite map_map. }
    rewrite Hmap.
    destruct (map (fun it => length (trimmed items rng it).1) items) as [|n ns] eqn:Hlens.
    { by destruct items. }
    cbn [Math_min]. rewrite foldl_min_foldr. eexists. split; [done|]. done.
  - apply not_Forall_Exists in Hsome; [|intros it; apply _].
    apply Exists_exists in Hsome as (bad & Hbad & Hzero).
    assert (length (trimmed items rng bad).1 = 0) as Hz.
    { destruct (decide (length (trimmed items rng bad).1 = 0)) as [|Hn]; [done|].
      by destruct Hzero. }
    clear Hzero.
    pose proof (proj2 (Hrow bad) Hz) as Hshort.
    assert (bad ∈ items) as Hin by done.
    destruct items as [|it items]; [done|]. cbn [map Math_min].
    rewrite foldl_min_foldr. eexists. split; [done|].
    assert (foldr Nat.min (length (row it).1) (map (fun x => length (row x).1) items) <= 1)
      as Hcode.
    { destruct (foldr_min_le (length (row it).1) (map (fun x => length (row x).1) items))
        as [H1 H2].
      apply elem_of_cons in Hin as [->|Hin]; [lia|].
      etrans; [apply H2|exact Hshort]. apply list_elem_of_fmap. by exists bad. }
    assert (foldr Nat.min (length (trimmed (it :: items) rng it).1)
              (map (fun x => length (trimmed (it :: items) rng x).1) items) = 0) as Hspec.
    { destruct (foldr_min_le (length (trimmed (it :: items) rng it).1)
                  (map (fun x => length (trimmed (it :: items) rng x).1) items)) as [H1 H2].
      apply elem_of_cons in Hin as [->|Hin]; [lia|].
      assert (foldr Nat.min (length (trimmed (it :: items) rng it).1)
                (map (fun x => length (trimmed (it :: items) rng x).1) items)
              <= length (trimmed (it :: items) rng bad).1); [|lia].
      apply H2. apply list_elem_of_fmap. by exists bad. }
    rewrite Hspec. change (120 <=? 0)%nat with false. split.
    + apply Nat.leb_gt. lia.
    + intros Hfalse. discriminate Hfalse.
Qed.

(** One turn of the loop over the ranges, in the terms of the specification. *)
Lemma try_range_survives (items : list item) (rng : string) :
  items <> [] ->
  try_range Math_pow toFixed2 fetchHistory items rng =
  Some (if survives items rng
        then Some (measure Math_pow toFixed2 rng items (map (trimmed items rng) items)
                           (common_length items rng))
        else None).
Proof.
  intros Hne. unfold try_range, survives.
  rewrite existsb_insufficient.
  destruct (forallb _ items); cbn [negb andb]; [|done].
  destruct (minLen_common_length items rng Hne) as (n & -> & Hn & Hsurv).
  rewrite Nat.ltb_antisym, Hn.
  destruct (120 <=? common_length items rng)%nat eqn:Hc; cbn [negb]; [|done].
  destruct (Hsurv eq_refl) as [-> ->]. done.
Qed.

Lemma probe_survives (items : list item) (rs : list string) :
  items <> [] ->
  probe Math_pow toFixed2 fetchHistory items rs =
  Some match List.find (survives items) rs with
       | Some rng => measure Math_pow toFixed2 rng items (map (trimmed items rng) items)
                             (common_length items rng)
       | None => not_available
       end.
Proof.
  intros Hne. induction rs as [|rng rs IH]; [done|].
  cbn [probe List.find]. rewrite (try_range_survives items rng Hne).
  by destruct (survives items rng).
Qed.

(** C6. [calcPortfolioMetrics] tries the ranges 10y, 5y, 3y, 1y in this
    order.  A range is given up when an asset has fewer than 10 raw
    observations, and when the common aligned length (the length of the
    shortest series, each one cut to start at the latest of the first
    timestamps) is below 120.  A range with at least 10 raw observations of
    every asset and a common aligned length of at least 120 is kept: its
    turn returns the statistics computed from the trimmed series over the
    common aligned length, under the name of that range.  The function
    returns the result of the first range that survives, and
    [{range: 'N/A', return: '0.00', mdd: '0.00'}] when none does, in
    particular when at every range some asset has fewer than 10 raw
    observations. *)
Theorem prober_first_surviving_range (items : list item) :
  items <> [] ->
  ranges = ["10y"; "5y"; "3y"; "1y"] /\
  (forall rng it,
     it ∈ items -> length (raw_observations it rng) < 10 ->
     try_range Math_pow toFixed2 fetchHistory items rng = Some None) /\
  (forall rng,
     common_length items rng < 120 ->
     try_range Math_pow toFixed2 fetchHistory items rng = Some None) /\
  (forall rng,
     let results := fetch_all fetchHistory items rng in
     maxStartTime results = latest_start items rng /\
     (forall res t0 rest,
        res ∈ results -> times_of res = t0 :: rest -> (t0 <= maxStartTime results)%Z) /\
     (maxStartTime results = 0%Z \/
      exists res t0 rest,
        res ∈ results /\ times_of res = t0 :: rest /\ maxStartTime results = t0)) /\
  (forall rng i res k,
     fetch_all fetchHistory items rng !! i = Some res ->
     let start := maxStartTime (fetch_all fetchHistory items rng) in
     findIndex (fun t => (t >=? start)%Z) (times_of res) = Some k ->
     processedData (fetch_all fetchHistory items rng) !! i =
       Some (drop k (times_of res), drop k (closes_of res)) /\
     (forall t, t ∈ take k (times_of res) -> (t < start)%Z) /\
     (exists t, times_of res !! k = Some t /\ (start <= t)%Z)) /\
  (forall rng,
     (forall it, it ∈ items -> 10 <= length (raw_observations it rng)) ->
     120 <= common_length items rng ->
     survives items rng = true /\
     processedData (fetch_all fetchHistory items rng) = map (trimmed items rng) items /\
     minLen (processedData (fetch_all fetchHistory items rng)) = Some (common_length items rng) /\
     exists m,
       try_range Math_pow toFixed2 fetchHistory items rng = Some (Some m) /\
       m = measure Math_pow toFixed2 rng items (map (trimmed items rng) items)
                   (common_length items rng) /\
       range m = rng) /\
  (forall rng,
     survives items rng = true <->
     (forall it, it ∈ items -> 10 <= length (raw_observations it rng)) /\
     120 <= common_length items rng) /\
  calcPortfolioMetrics Math_pow toFixed2 fetchHistory items =
    Some match List.find (survives items) ranges with
         | Some rng => measure Math_pow toFixed2 rng items (map (trimmed items rng) items)
                               (common_length items rng)
         | None => not_available
         end /\
  (forall rng,
     List.find (survives items) ranges = Some rng ->
     range <$> calcPortfolioMetrics Math_pow toFixed2 fetchHistory items = Some rng) /\
  ((forall rng, rng ∈ ranges -> survives items rng = false) ->
   calcPortfolioMetrics Math_pow toFixed2 fetchHistory items = Some not_available) /\
  ((forall rng, rng ∈ ranges ->
      exists it, it ∈ items /\ length (raw_observations it rng) < 10) ->
   calcPortfolioMetrics Math_pow toFixed2 fetchHistory items = Some not_available).
Proof.
  intros Hne.
  assert (forall rng,
            survives items rng = true <->
            (forall it, it ∈ items -> 10 <= length (raw_observations it rng)) /\
            120 <= common_length items rng) as Hsurvives.
  { intros rng. unfold survives.
    rewrite andb_true_iff, forallb_forall, Nat.leb_le. split.
    - intros [Hraw Hlen]. split; [|done]. intros it Hit.
      apply Nat.leb_le, Hraw. by apply list_elem_of_In.
    - intros [Hraw Hlen]. split; [|done]. intros it Hit.
      apply Nat.leb_le, Hraw. by apply list_elem_of_In. }
  assert (forall rng, survives items rng = false ->
            try_range Math_pow toFixed2 fetchHistory items rng = Some None) as Hgiven_up.
  { intros rng Hs. by rewrite (try_range_survives items rng Hne), Hs. }
  assert (forall rng it, it ∈ items -> length (raw_observations it rng) < 10 ->
            survives items rng = false) as Hfew.
  { intros rng it Hit Hlen. apply not_true_iff_false. intros [Hraw _]%Hsurvives.
    specialize (Hraw it Hit). lia. }
  assert (forall rs, (forall rng, rng ∈ rs -> survives items rng = false) ->
            List.find (survives items) rs = None) as Hnone.
  { induction rs as [|rng rs IH]; intros Hall; [done|]. cbn [List.find].
    rewrite (Hall rng) by left. apply IH. intros r Hr. apply Hall. by right. }
  assert (calcPortfolioMetrics Math_pow toFixed2 fetchHistory items =
          Some match List.find (survives items) ranges with
               | Some rng => measure Math_pow toFixed2 rng items (map (trimmed items rng) items)
                                     (common_length items rng)
               | None => not_available
               end) as Hresult.
  { unfold calcPortfolioMetrics. by apply probe_survives. }
  split_and!.
  - done.
  - intros rng it Hit Hlen. by apply Hgiven_up, (Hfew rng it).
  - intros rng Hlen. apply Hgiven_up, not_true_iff_false. intros [_ ?]%Hsurvives. lia.
  - intros rng results. split_and!.
    + apply maxStartTime_latest_start.
    + intros res t0 rest. apply maxStartTime_bound.
    + apply maxStartTime_attained.
  - intros rng i res k Hi start Hk.
    destruct (findIndex_Some _ _ _ Hk) as [(t & Ht & Hge) Hbefore].
    split_and!.
    + unfold processedData. rewrite list_lookup_fmap, Hi. simpl.
      fold start. by rewrite Hk.
    + intros x Hx. specialize (Hbefore x Hx). simpl in Hbefore. lia.
    + exists t. split; [done|]. lia.
  - intros rng Hraw Hlen.
    assert (survives items rng = true) as Hs by (by apply Hsurvives).
    destruct (minLen_common_length items rng Hne) as (n & Hn & _ & Hkept).
    destruct Hkept as [-> Hdata]; [by apply Nat.leb_le|].
    split_and!; [done..|].
    eexists. split_and!; [|reflexivity|reflexivity].
    by rewrite (try_range_survives items rng Hne), Hs.
  - exact Hsurvives.
  - exact Hresult.
  - intros rng Hfind. by rewrite Hresult, Hfind.
  - intros Hall. by rewrite Hresult, Hnone.
  - intros Hall. rewrite Hresult, Hnone; [done|].
    intros rng Hrng. destruct (Hall rng Hrng) as (it & Hit & Hlen). by apply (Hfew rng it).
Qed.

End ProberClaims.

(** A run of C6 on scenario D (the asset has 8 raw observations at every
    range, and the prober returns the sentinel) and on an asset with 120
    observations at every range, for which the first range, 10y, survives. *)
Lemma prober_scenario_D :
  Sample.itemsD <> [] /\
  Prober.calcPortfolioMetrics Sample.pow01 Sample.toFixed0 Sample.fetchD Sample.itemsD
  = Some {| Prober.range := "N/A"; Prober.return_ := "0.00"; Prober.mdd := "0.00" |} /\
  Prober.range <$>
    Prober.calcPortfolioMetrics Sample.pow01 Sample.toFixed0 Sample.fetchE Sample.itemsD
  = Some "10y".
Proof.
  assert (Sample.itemsD <> []) as Hne by discriminate.
  split; [exact Hne|]. split.
  - destruct (prober_first_surviving_range Sample.pow01 Sample.toFixed0 Sample.fetchD
                Sample.itemsD Hne) as (_ & _ & _ & _ & _ & _ & _ & _ & _ & _ & Hfew).
    apply Hfew. intros rng _.
    eexists. split; [left|]. vm_compute. lia.
  - destruct (prober_first_surviving_range Sample.pow01 Sample.toFixed0 Sample.fetchE
                Sample.itemsD Hne) as (_ & _ & _ & _ & _ & _ & _ & _ & Hrange & _).
    apply Hrange. vm_compute. reflexivity.
Defined.

(** A run of C4 on scenario B: the values 100, 50, 100 are positive and
    their maximum drawdown is -50 percent. *)
Lemma maxDrawdown_scenario_B :
  let values := [JS.Fin 100; JS.Fin 50; JS.Fin 100] in
  (forall v, v ∈ values -> JS.gtb v (JS.Fin 0) = true) /\
  JS.eqv (JS.mul (maxDrawdown values) (JS.Fin 100)) (JS.Fin (-50)) /\
  JS.leb (JS.Fin (-100)) (JS.mul (maxDrawdown values) (JS.Fin 100)) = true /\
  JS.leb (JS.mul (maxDrawdown values) (JS.Fin 100)) (JS.Fin 0) = true.
Proof.
  intros values.
  assert (forall v, v ∈ values -> JS.gtb v (JS.Fin 0) = true) as Hpos.
  { intros v Hv. unfold values in Hv.
    repeat (apply elem_of_cons in Hv as [->|Hv]; [reflexivity|]).
    by apply elem_of_nil in Hv. }
  split; [exact Hpos|]. split; [vm_compute; reflexivity|].
  destruct (maxDrawdown_running_peak values) as (_ & _ & _ & _ & _ & _ & Hpct & _).
  exact (Hpct Hpos).
Defined.

(** A run of C5: a range outside the table counts as five years. *)
Lemma cagr_range_lookup_witness :
  ("2y" ∉ ["10y"; "7y"; "5y"; "3y"; "1y"; "6mo"]) /\ Analyze.years "2y" = JS.Fin 5.
Proof.
  assert ("2y" ∉ ["10y"; "7y"; "5y"; "3y"; "1y"; "6mo"]) as Hnot.
  { intros H. repeat (apply elem_of_cons in H as [H|H]; [discriminate H|]).
    by apply elem_of_nil in H. }
  split; [exact Hnot|].
  destruct cagr_range_lookup as (_ & Hunknown & _). exact (Hunknown "2y" Hnot).
Defined.

(** A run of the amended C10: the close 9 of the sample is superseded by the
    close 10 of the same date, and replacing it changes nothing. *)
Lemma same_date_last_write_wins_witness :
  DateKey.ymd_utc (Sample.day 10) = DateKey.ymd_utc (Sample.day 10 + 3600) /\
  Analyze.analyze DateKey.ymd_utc Sample.pow01 "1y" Sample.itemsF Sample.exchangeF
    [ Some ([Sample.day 10; (Sample.day 10 + 3600)%Z; Sample.day 11],
            <[0 := Sample.price 99]> [Sample.price 9; Sample.price 10; Sample.price 11]) ]
  = Analyze.analyze DateKey.ymd_utc Sample.pow01 "1y" Sample.itemsF Sample.exchangeF
      Sample.stocksS.
Proof.
  assert (DateKey.ymd_utc (Sample.day 10) = DateKey.ymd_utc (Sample.day 10 + 3600)) as Hsame
    by (vm_compute; reflexivity).
  split; [exact Hsame|].
  destruct (same_date_last_write_wins DateKey.ymd_utc) as (_ & Hstock & _).
  apply (Hstock Sample.pow01 "1y" Sample.itemsF Sample.exchangeF Sample.stocksS 0
                [Sample.day 10; (Sample.day 10 + 3600)%Z; Sample.day 11]
                [Sample.price 9; Sample.price 10; Sample.price 11]
                0 1 (Sample.day 10) (Sample.day 10 + 3600)%Z (Sample.price 99));
    [reflexivity|reflexivity|reflexivity|lia|exact Hsame].
Defined.

(** ** The scenarios of the specification *)

(** Scenario A: the two series add up to 300 on both dates; the total
    return and the maximum drawdown are 0. *)
Example scenario_A :
  let r := Analyze.analyze DateKey.ymd_utc Sample.pow01 "1y"
             Sample.itemsA Sample.exchangeA Sample.stocksA in
  Analyze.labels r = ["1970-01-11"; "1970-01-12"] /\
  Analyze.values r = [JS.Fin 300; JS.Fin 300] /\
  JS.eqv (Analyze.totalReturn r) (JS.Fin 0) /\
  Analyze.mdd r = JS.Fin 0.
Proof. split_and!; vm_compute; reflexivity. Qed.

(** Scenario B: the values are 100, 50, 100; the maximum drawdown is -50
    percent and the total return 0. *)
Example scenario_B :
  let r := Analyze.analyze DateKey.ymd_utc Sample.pow01 "1y"
             Sample.itemsB Sample.exchangeB Sample.stocksB in
  Analyze.values r = [JS.Fin 100; JS.Fin 50; JS.Fin 100] /\
  JS.eqv (JS.mul (Analyze.mdd r) (JS.Fin 100)) (JS.Fin (-50)) /\
  JS.eqv (Analyze.totalReturn r) (JS.Fin 0).
Proof. split_and!; vm_compute; reflexivity. Qed.

(** * Further properties of [analyzePortfolio] *)

Section AnalyzeMore.

Import Analyze.

Variable ymd : Z -> string.
Variable pow : JS.num -> JS.num -> JS.num.

(** X1. [analyzePortfolio] ends without a report in two cases only: on an
    empty portfolio (the early return), and, through the [catch] clause,
    when the exchange-rate series could not be fetched or a fetched series
    (exchange rate or stock) has no [timestamp] array.  A stock whose fetch
    failed altogether does not stop the analysis.  A report has one label
    per valuation and one start and one end value per holding. *)
Theorem analyzePortfolio_outcomes (fetch : string -> string -> option history)
    (range : string) (portfolio : list holding) :
  let out := analyzePortfolio ymd pow fetch range portfolio in
  (out = NoItems <-> portfolio = []) /\
  (out = Failed <->
     portfolio <> [] /\
     (fetch "KRW=X" range = None \/
      (exists h, fetch "KRW=X" range = Some h /\ timestamp h = None) \/
      (exists item h, item ∈ portfolio /\ fetch (symbol item) range = Some h /\
                      timestamp h = None))) /\
  (forall r, out = Done r ->
     length (labels r) = length (values r) /\
     length (startValues r) = length portfolio /\
     length (endValues r) = length portfolio).
Proof.
  simpl.
  assert (mapM read_stock (map (fun item => fetch (symbol item) range) portfolio) = None <->
          exists item h, item ∈ portfolio /\ fetch (symbol item) range = Some h /\
                         timestamp h = None) as Hstocks.
  { rewrite mapM_None, Exists_exists. split.
    - intros (res & Hin & Hres). apply list_elem_of_fmap in Hin as (item & -> & Hitem).
      unfold read_stock in Hres.
      destruct (fetch (symbol item) range) as [h|] eqn:Hh; [|done].
      destruct (timestamp h) eqn:Ht; [done|]. eauto.
    - intros (item & h & Hitem & Hh & Ht). exists (Some h). split.
      + apply list_elem_of_fmap. exists item. by rewrite Hh.
      + unfold read_stock. by rewrite Ht. }
  unfold analyzePortfolio. case_bool_decide as Hlen.
  - assert (portfolio = []) as -> by (by destruct portfolio).
    split_and!; [done| |done]. split; [done|]. by intros [? _].
  - assert (portfolio <> []) as Hne by (by intros ->).
    destruct (fetch "KRW=X" range) as [h|] eqn:Hfx.
    + destruct (timestamp h) as [ts|] eqn:Hts.
      * destruct (mapM read_stock _) as [stocks|] eqn:Hmap.
        -- split_and!; [done| |].
           ++ split; [done|]. intros [_ [?|[(h' & [= <-] & ?)|Hex]]]; [done|congruence|].
              apply Hstocks in Hex. congruence.
           ++ intros r [= <-]. unfold analyze. simpl.
              destruct (valuation_values ymd portfolio (ts, close h) stocks) as [-> ->].
              by rewrite length_map, !length_imap.
        -- split_and!; [done| |done]. split; [|done]. intros _. split; [done|].
           right. right. by apply Hstocks.
      * split_and!; [done| |done]. split; [|done]. intros _. split; [done|].
        right. left. eauto.
    + split_and!; [done| |done]. split; [|done]. intros _. split; [done|]. by left.
Qed.

Lemma scan_empty (init : JS.val) (dates : list string) :
  foldl (fill ∅) init dates = init.
Proof.
  revert init. induction dates as [|d dates IH]; intros init; [done|].
  cbn [foldl]. rewrite IH. unfold fill, has_value.
  by rewrite (has_None ∅ d) by apply lookup_empty.
Qed.

Lemma dateToStocks_no_dates (stocks : list (option series)) (idx : nat) (res : option series) :
  stocks !! idx = Some res -> no_dates res = true -> dateToStocks ymd stocks !!! idx = ∅.
Proof.
  intros Hidx Hres. rewrite dateToStocks_lookup, Hidx.
  destruct res as [[ts cl]|]; [|done]. simpl in Hres.
  apply bool_decide_eq_true in Hres. by subst.
Qed.

(** X2. A holding whose series could not be fetched, or came without any
    observation, is priced at 0 on every date of the analysis, and its start
    and end values are 0: it never stops or distorts the valuation of the
    other holdings. *)
Theorem missing_series_is_zero (range : string) (items : list holding)
    (exchange : series) (stocks : list (option series))
    (idx : nat) (item : holding) (res : option series) :
  let r := analyze ymd pow range items exchange stocks in
  items !! idx = Some item ->
  stocks !! idx = Some res ->
  no_dates res = true ->
  (forall dates,
     lastPrices (run ymd items exchange stocks dates) !! idx = Some (JS.Num (JS.Fin 0))) /\
  (forall date,
     forward_filled (dateToStocks ymd stocks !!! idx) (JS.Num (JS.Fin 0)) date
     = JS.Num (JS.Fin 0)) /\
  startValues r !! idx = Some (name item, JS.Fin 0) /\
  endValues r !! idx = Some (name item, JS.Fin 0).
Proof.
  intros r Hitem Hidx Hres.
  assert (idx < length items) as Hlt by (by eapply lookup_lt_Some).
  pose proof (dateToStocks_no_dates stocks idx res Hidx Hres) as Hmap.
  assert (forall dates,
            lastPrices (run ymd items exchange stocks dates) !! idx
            = Some (JS.Num (JS.Fin 0))) as Hprice.
  { intros dates.
    destruct (run_state ymd items exchange stocks dates) as (_ & -> & _).
    rewrite list_lookup_fmap, lookup_seq_lt by done. cbn [fmap option_fmap option_map].
    rewrite Nat.add_0_l, Hmap. by rewrite scan_empty. }
  split_and!.
  - exact Hprice.
  - intros date. unfold forward_filled. rewrite Hmap.
    assert (latest_valid ∅ date = None) as ->; [|done].
    apply latest_valid_None. intros x _. unfold has_value, has.
    rewrite lookup_empty. rewrite bool_decide_eq_false_2; [done|]. by intros [? ?].
  - unfold r, analyze. simpl. rewrite list_lookup_imap, Hitem. simpl.
    unfold startValue. rewrite Hmap.
    destruct (head _) as [d|]; [|done].
    by rewrite (has_None ∅ d) by apply lookup_empty.
  - unfold r, analyze. simpl. rewrite list_lookup_imap, Hitem. simpl.
    unfold endValue, valuation, JS.index. by rewrite Hprice.
Qed.

Lemma isKRW_all (items : list holding) (idx : nat) (item : holding) :
  forallb isKRW items = true -> items !! idx = Some item -> isKRW item = true.
Proof.
  intros Hall Hitem. rewrite forallb_forall in Hall.
  apply Hall, list_elem_of_In. by eapply list_elem_of_lookup_2.
Qed.

(** X4. A portfolio of domestic holdings only (symbols ending in [.KS] or
    [.KQ]) is never converted: the whole report is the same whatever closes
    the exchange-rate series carries.  Only the timestamps of that series
    matter, because its dates are part of the axis. *)
Theorem domestic_ignores_exchange_closes (range : string) (items : list holding)
    (ts : list Z) (closes closes' : list JS.val) (stocks : list (option series)) :
  forallb isKRW items = true ->
  analyze ymd pow range items (ts, closes') stocks =
  analyze ymd pow range items (ts, closes) stocks.
Proof.
  intros Hall.
  assert (sortedDates ymd (ts, closes') stocks = sortedDates ymd (ts, closes) stocks)
    as Hdates by done.
  destruct (valuation_values ymd items (ts, closes') stocks) as [Hl' Hv'].
  destruct (valuation_values ymd items (ts, closes) stocks) as [Hl Hv].
  assert (portfolioValues (valuation ymd items (ts, closes') stocks) =
          portfolioValues (valuation ymd items (ts, closes) stocks)) as Hvalues.
  { rewrite Hv', Hv, Hdates. apply map_ext. intros date. unfold totalValue. f_equal.
    apply imap_ext. intros j item Hitem. cbn beta. unfold fxMultiplier.
    by rewrite (isKRW_all items j item Hall Hitem). }
  assert (lastPrices (valuation ymd items (ts, closes') stocks) =
          lastPrices (valuation ymd items (ts, closes) stocks)) as Hprices.
  { unfold valuation. rewrite Hdates.
    destruct (run_state ymd items (ts, closes') stocks (sortedDates ymd (ts, closes) stocks))
      as (_ & -> & _).
    by destruct (run_state ymd items (ts, closes) stocks (sortedDates ymd (ts, closes) stocks))
      as (_ & -> & _). }
  unfold analyze. rewrite Hvalues, Hl', Hl, Hdates. f_equal.
  - apply imap_ext. intros j item Hitem. cbn beta. unfold startValue.
    rewrite (isKRW_all items j item Hall Hitem). done.
  - apply imap_ext. intros j item Hitem. cbn beta. unfold endValue.
    rewrite Hprices, (isKRW_all items j item Hall Hitem). done.
Qed.

Lemma sortedDates_nil (exchange : series) (stocks : list (option series)) :
  sortedDates ymd exchange stocks = [] <->
  exchange.1 = [] /\ forallb no_dates stocks = true.
Proof.
  assert (observed_timestamps exchange stocks = [] <->
          exchange.1 = [] /\ forallb no_dates stocks = true) as <-.
  { unfold observed_timestamps. destruct exchange.1 as [|t ts]; simpl.
    - induction stocks as [|[r|] stocks IH]; simpl.
      + done.
      + rewrite app_nil, IH. unfold no_dates at 1.
        rewrite andb_true_iff, bool_decide_eq_true. tauto.
      + rewrite IH. tauto.
    - split; [done|]. by intros [? _]. }
  split.
  - intros Hnil. destruct (observed_timestamps exchange stocks) as [|t ts] eqn:Hts; [done|].
    assert (ymd t ∈ sortedDates ymd exchange stocks) as Hin.
    { apply sortedDates_elem. rewrite Hts. left. }
    rewrite Hnil in Hin. by apply elem_of_nil in Hin.
  - intros Hts. destruct (sortedDates ymd exchange stocks) as [|d l] eqn:Hd; [done|].
    assert (d ∈ sortedDates ymd exchange stocks) as Hin by (rewrite Hd; left).
    apply sortedDates_elem in Hin. rewrite Hts in Hin. by apply elem_of_nil in Hin.
Qed.

(** X5. The report has no date exactly when the exchange-rate series and
    every fetched stock series have an empty [timestamp] array.  Such a
    report is not an error: its valuation series is empty, both prices of
    the return are [undefined], so the total return is [NaN], while the CAGR
    (guarded) and the maximum drawdown are 0, and every start and end value
    is 0. *)
Theorem empty_axis_report (range : string) (items : list holding) (exchange : series)
    (stocks : list (option series)) :
  let r := analyze ymd pow range items exchange stocks in
  (labels r = [] <-> exchange.1 = [] /\ forallb no_dates stocks = true) /\
  (labels r = [] ->
   values r = [] /\ totalReturn r = JS.NaN /\ cagr r = JS.Fin 0 /\ mdd r = JS.Fin 0 /\
   Forall (fun p => p.2 = JS.Fin 0) (startValues r) /\
   Forall (fun p => p.2 = JS.Fin 0) (endValues r)).
Proof.
  intros r.
  destruct (valuation_values ymd items exchange stocks) as [Hl Hv].
  assert (labels r = sortedDates ymd exchange stocks) as Hlabels by exact Hl.
  split; [rewrite Hlabels; apply sortedDates_nil|].
  rewrite Hlabels. intros Hnil.
  assert (values r = []) as Hvalues.
  { unfold r, analyze. cbn [values]. by rewrite Hv, Hnil. }
  unfold r, analyze in *. cbn [values totalReturn cagr mdd startValues endValues] in *.
  rewrite Hvalues. split_and!; [done..| |].
  - apply Forall_forall. intros p Hp.
    apply elem_of_lookup_imap in Hp as (j & item & -> & Hitem).
    unfold startValue. by rewrite Hnil.
  - apply Forall_forall. intros p Hp.
    apply elem_of_lookup_imap in Hp as (j & item & -> & Hitem).
    unfold endValue, valuation. rewrite Hnil. cbn [run foldl initial_state lastPrices].
    unfold JS.index. rewrite lookup_replicate_2 by (by eapply lookup_lt_Some). done.
Qed.

End AnalyzeMore.

(** ** Bounds on the figures of the report *)

Section AnalyzeBounds.

Import Analyze.

Variable ymd : Z -> string.
Variable pow : JS.num -> JS.num -> JS.num.
Variable bound : Q.
Hypothesis bound_1200 : (1200 <= bound)%Q.

Lemma within_Fin (lo hi : Q) (x : JS.num) :
  within lo hi x = true <-> exists q, x = JS.Fin q /\ (lo <= q)%Q /\ (q <= hi)%Q.
Proof.
  destruct x as [q| | |]; simpl.
  - rewrite andb_true_iff, !Qle_bool_iff. split.
    + intros [? ?]. by exists q.
    + by intros (? & [= <-] & ? & ?).
  - split; [done|]. by intros (? & ? & _).
  - split; [done|]. by intros (? & ? & _).
  - split; [done|]. by intros (? & ? & _).
Qed.

Lemma within_weaken (hi hi' : Q) (x : JS.num) :
  (hi <= hi')%Q -> within 0 hi x = true -> within 0 hi' x = true.
Proof.
  intros Hle (q & -> & H0 & Hq)%within_Fin. apply within_Fin. exists q.
  split; [done|]. split; lra.
Qed.

Lemma within_mul (a b : Q) (x y : JS.num) :
  within 0 a x = true -> within 0 b y = true -> within 0 (a * b) (JS.mul x y) = true.
Proof.
  intros (p & -> & Hp0 & Hpa)%within_Fin (q & -> & Hq0 & Hqb)%within_Fin.
  apply within_Fin. exists (p * q)%Q. split; [done|]. split; nra.
Qed.

Lemma within_add (a b : Q) (x y : JS.num) :
  within 0 a x = true -> within 0 b y = true -> within 0 (a + b) (JS.add x y) = true.
Proof.
  intros (p & -> & Hp0 & Hpa)%within_Fin (q & -> & Hq0 & Hqb)%within_Fin.
  apply within_Fin. exists (p + q)%Q. split; [done|]. split; lra.
Qed.

Lemma sum_within (c : Q) (l : list JS.num) :
  (forall x, x ∈ l -> within 0 c x = true) ->
  within 0 (count l * c) (sum l) = true.
Proof.
  unfold sum, count.
  assert (forall acc a,
            within 0 a acc = true ->
            (forall x, x ∈ l -> within 0 c x = true) ->
            within 0 (a + inject_Z (Z.of_nat (length l)) * c) (foldl JS.add acc l) = true)
    as Hgen.
  { induction l as [|x l IH]; intros acc a Hacc Hl.
    - cbn [foldl length]. eapply within_weaken; [|exact Hacc].
      change (inject_Z (Z.of_nat 0)) with 0%Q. lra.
    - cbn [foldl length].
      eapply within_weaken; [|apply (IH (JS.add acc x) (a + c)%Q)].
      + rewrite Nat2Z.inj_succ. unfold Z.succ. rewrite inject_Z_plus.
        change (inject_Z 1) with 1%Q. lra.
      + apply within_add; [done|]. apply Hl. left.
      + intros y Hy. apply Hl. by right. }
  intros Hl. eapply within_weaken; [|apply (Hgen (JS.Fin 0) 0%Q)]; [lra|done|done].
Qed.

Lemma set_closes_within (s : series) (d : string) (v : JS.val) :
  series_within bound s = true ->
  set_closes ymd s.1 s.2 0 ∅ !! d = Some v -> close_within bound v = true.
Proof.
  intros [Hlen Hok]%andb_true_iff. rewrite set_closes_lookup.
  destruct (last_same_date ymd d s.1) as [j|] eqn:Hlast; [|by rewrite lookup_empty].
  apply last_same_date_Some in Hlast as [(t & Ht & _) _].
  apply lookup_lt_Some in Ht. apply Nat.leb_le in Hlen.
  destruct (lookup_lt_is_Some_2 s.2 j) as [c Hc]; [lia|].
  unfold JS.index. simpl. rewrite Hc. intros [= <-].
  rewrite forallb_forall in Hok. apply Hok, list_elem_of_In.
  by eapply list_elem_of_lookup_2.
Qed.

Lemma dateToStocks_within (stocks : list (option series)) (idx : nat) (d : string)
    (v : JS.val) :
  stocks_within bound stocks = true ->
  (dateToStocks ymd stocks !!! idx) !! d = Some v -> close_within bound v = true.
Proof.
  intros Hok. rewrite dateToStocks_lookup.
  destruct (stocks !! idx) as [[r|]|] eqn:Hidx; [|by rewrite lookup_empty..].
  apply set_closes_within. unfold stocks_within in Hok. rewrite forallb_forall in Hok.
  apply (Hok (Some r)), list_elem_of_In. by eapply list_elem_of_lookup_2.
Qed.

Lemma within_zero : within 0 bound (JS.Fin 0) = true.
Proof. apply within_Fin. exists 0%Q. split; [done|]. split; lra. Qed.

Lemma get_within (m : gmap string JS.val) (d : string) :
  (forall k v, m !! k = Some v -> close_within bound v = true) ->
  has m d = true ->
  within 0 bound (JS.ToNumber (get m d)) = true.
Proof.
  intros Hm [v Hv]%bool_decide_eq_true. unfold get. rewrite Hv. simpl.
  apply Hm in Hv. destruct v; [apply within_zero|done|done].
Qed.

Lemma scan_within (m : gmap string JS.val) (init : JS.val) (dates : list string) :
  (forall k v, m !! k = Some v -> close_within bound v = true) ->
  within 0 bound (JS.ToNumber init) = true ->
  within 0 bound (JS.ToNumber (foldl (fill m) init dates)) = true.
Proof.
  intros Hm. revert init. induction dates as [|d dates IH]; intros init Hinit; [done|].
  cbn [foldl]. apply IH. unfold fill.
  destruct (has_value m d) eqn:Hv; [|done].
  apply get_within; [done|]. unfold has_value in Hv. by apply andb_true_iff in Hv as [? _].
Qed.

Lemma seed_within (exchange : series) :
  series_within bound exchange = true ->
  within 0 bound (JS.ToNumber (seed exchange)) = true.
Proof.
  intros [_ Hok]%andb_true_iff. unfold seed, JS.index, JS.or.
  assert (within 0 bound (JS.Fin 1200) = true) as H1200.
  { apply within_Fin. exists 1200%Q. split; [done|]. split; lra. }
  destruct exchange.2 as [|c cl]; [done|]. simpl in *.
  apply andb_true_iff in Hok as [Hc _].
  destruct (JS.ToBoolean c); [|done]. destruct c; [apply within_zero|done|done].
Qed.

Lemma value_within (price quantity rate : JS.num) (domestic : bool) :
  within 0 bound price = true -> within 0 bound quantity = true ->
  within 0 bound rate = true ->
  within 0 (bound * bound * bound)
         (if domestic then JS.mul price quantity
          else JS.mul (JS.mul price quantity) rate) = true.
Proof.
  intros Hprice Hq Hrate. destruct domestic.
  - eapply within_weaken; [|by apply within_mul]. nra.
  - by repeat apply within_mul.
Qed.

Lemma run_cells_within (items : list holding) (exchange : series)
    (stocks : list (option series)) (dates : list string) (idx : nat) :
  series_within bound exchange = true -> stocks_within bound stocks = true ->
  idx < length items ->
  let st := run ymd items exchange stocks dates in
  within 0 bound (JS.ToNumber (lastExchange st)) = true /\
  within 0 bound (JS.ToNumber (JS.index (lastPrices st) idx)) = true.
Proof.
  intros Hfx Hstocks Hidx. simpl.
  destruct (run_state ymd items exchange stocks dates) as (-> & -> & _). split.
  - apply scan_within; [|by apply seed_within]. intros k v. by apply set_closes_within.
  - unfold JS.index. rewrite list_lookup_fmap, lookup_seq_lt by done.
    cbn [fmap option_fmap option_map default]. apply scan_within.
    + intros k v. by apply dateToStocks_within.
    + apply within_zero.
Qed.

Lemma quantity_within (items : list holding) (idx : nat) (item : holding) :
  forallb (fun item => within 0 bound (quantity item)) items = true ->
  items !! idx = Some item -> within 0 bound (quantity item) = true.
Proof.
  intros Hq Hitem. rewrite forallb_forall in Hq.
  apply Hq, list_elem_of_In. by eapply list_elem_of_lookup_2.
Qed.

Lemma run_values_within (items : list holding) (exchange : series)
    (stocks : list (option series)) (dates : list string) :
  forallb (fun item => within 0 bound (quantity item)) items = true ->
  series_within bound exchange = true -> stocks_within bound stocks = true ->
  Forall (fun v => within 0 (count items * (bound * bound * bound)) v = true)
         (portfolioValues (run ymd items exchange stocks dates)).
Proof.
  intros Hq Hfx Hstocks. induction dates as [|d dates IH] using rev_ind.
  - apply Forall_nil_2.
  - rewrite run_values_snoc. apply Forall_app. split; [done|].
    apply Forall_singleton.
    assert (count items = count (imap (fun j item =>
              contribution (lastExchange (run ymd items exchange stocks (dates ++ [d]))) item
                (JS.index (lastPrices (run ymd items exchange stocks (dates ++ [d]))) j))
              items)) as ->.
    { unfold count. by rewrite length_imap. }
    apply sum_within. intros x Hx.
    apply elem_of_lookup_imap in Hx as (j & item & -> & Hitem).
    destruct (run_cells_within items exchange stocks (dates ++ [d]) j Hfx Hstocks)
      as [Hrate Hprice]; [by eapply lookup_lt_Some|].
    apply value_within; [done| |done]. by eapply quantity_within.
Qed.

End AnalyzeBounds.

Section AnalyzeBounded.

Import Analyze.

Variable ymd : Z -> string.
Variable pow : JS.num -> JS.num -> JS.num.

(** X3. Bounds on the figures of the report, numbers taken as exact
    rationals (the rounding of binary64 is not modelled).  Let the closes
    delivered by the quote service be [null] or numbers between 0 and
    [bound], each series have a close for each of its timestamps, and the
    quantities held lie between 0 and [bound], for a [bound] of at least
    1200 (the fallback exchange rate).  Then the valuation of each date is
    a finite number between 0 and [bound]^3 times the number of holdings,
    and the start and end value of each holding are finite numbers between
    0 and [bound]^3: [null] closes are forward-filled away and a holding
    without any price counts as 0.  When that product is at most 2^1000 the
    figures stay below 2^1000, out of reach of an overflow of binary64;
    without a bound on the inputs the script can produce [Infinity] and
    [NaN] (a quantity of 1e308 at a price of 10 already does), which exact
    rationals do not show. *)
Theorem report_bounded (range : string) (items : list holding) (exchange : series)
    (stocks : list (option series)) (bound : Q) :
  (1200 <= bound)%Q ->
  (count items * (bound * bound * bound) <= inject_Z (2 ^ 1000))%Q ->
  forallb (fun item => within 0 bound (quantity item)) items = true ->
  series_within bound exchange = true ->
  stocks_within bound stocks = true ->
  let r := analyze ymd pow range items exchange stocks in
  Forall (fun v => within 0 (count items * (bound * bound * bound)) v = true /\
                   within 0 (inject_Z (2 ^ 1000)) v = true) (values r) /\
  Forall (fun p => within 0 (bound * bound * bound) p.2 = true) (startValues r) /\
  Forall (fun p => within 0 (bound * bound * bound) p.2 = true) (endValues r).
Proof.
  intros Hbound Hmax Hq Hfx Hstocks r.
  pose proof (within_zero bound Hbound) as H0.
  assert (within 0 (bound * bound * bound) (JS.Fin 0) = true) as H03.
  { apply within_Fin. exists 0%Q. split; [done|]. split; [lra|nra]. }
  split_and!.
  - eapply Forall_impl; [by apply run_values_within|].
    intros v Hv. split; [done|]. by eapply within_weaken.
  - apply Forall_forall. intros p Hp. unfold r, analyze in Hp. cbn [startValues] in Hp.
    apply elem_of_lookup_imap in Hp as (j & item & -> & Hitem).
    unfold startValue. cbn [snd].
    destruct (head _) as [d|]; [|done].
    destruct (has (dateToStocks ymd stocks !!! j) d) eqn:Hhas; [|done].
    apply (value_within bound Hbound).
    + apply get_within; [done| |done]. intros k v. by apply dateToStocks_within.
    + by eapply quantity_within.
    + destruct (has (dateToExchange ymd exchange) d) eqn:Hfxhas.
      * apply get_within; [done| |done]. intros k v. by apply set_closes_within.
      * apply within_Fin. exists 1200%Q. split; [done|]. split; lra.
  - apply Forall_forall. intros p Hp. unfold r, analyze in Hp. cbn [endValues] in Hp.
    apply elem_of_lookup_imap in Hp as (j & item & -> & Hitem).
    unfold endValue. cbn [snd].
    destruct (run_cells_within ymd bound Hbound items exchange stocks
                (sortedDates ymd exchange stocks) j Hfx Hstocks) as [Hrate Hprice];
      [by eapply lookup_lt_Some|].
    fold (valuation ymd items exchange stocks) in Hrate, Hprice.
    destruct (JS.gtb _ _); [|done].
    apply (value_within bound Hbound); [done| |done]. by eapply quantity_within.
Qed.

End AnalyzeBounded.

Lemma missing_series_is_zero_witness :
  Analyze.endValues
    (Analyze.analyze DateKey.ymd_utc Sample.pow01 "1y" Sample.itemsA Sample.exchangeA
       [Some ([Sample.day 10; Sample.day 11], [Sample.price 100; Sample.price 110]);
        None])
    !! 1 = Some ("B", JS.Fin 0).
Proof.
  destruct (missing_series_is_zero DateKey.ymd_utc Sample.pow01 "1y" Sample.itemsA Sample.exchangeA
              [Some ([Sample.day 10; Sample.day 11], [Sample.price 100; Sample.price 110]);
               None]
              1 {| symbol := "035720.KQ"; name := "B"; quantity := JS.Fin 1 |} None
              eq_refl eq_refl eq_refl) as (_ & _ & _ & Hend).
  exact Hend.
Defined.

Lemma report_bounded_witness :
  Forall (fun v => within 0 (count Sample.itemsF * (2000 * 2000 * 2000)) v = true /\
                   within 0 (inject_Z (2 ^ 1000)) v = true)
    (Analyze.values (Analyze.analyze DateKey.ymd_utc Sample.pow01 "1y"
                       Sample.itemsF Sample.exchangeF Sample.stocksF)).
Proof.
  assert (1200 <= 2000)%Q as Hbound by (apply Qle_bool_iff; vm_compute; reflexivity).
  assert (count Sample.itemsF * (2000 * 2000 * 2000) <= inject_Z (2 ^ 1000))%Q as Hmax
    by (apply Qle_bool_iff; vm_compute; reflexivity).
  destruct (report_bounded DateKey.ymd_utc Sample.pow01 "1y"
              Sample.itemsF Sample.exchangeF Sample.stocksF 2000 Hbound Hmax
              eq_refl eq_refl eq_refl) as (Hvalues & _).
  exact Hvalues.
Defined.

Lemma domestic_ignores_exchange_closes_witness :
  Analyze.analyze DateKey.ymd_utc Sample.pow01 "1y" Sample.itemsA
    ([Sample.day 10; Sample.day 11], [JS.Null; Sample.price 7]) Sample.stocksA
  = Analyze.analyze DateKey.ymd_utc Sample.pow01 "1y" Sample.itemsA
      ([Sample.day 10; Sample.day 11], [Sample.price 1300; Sample.price 1300]) Sample.stocksA.
Proof.
  apply (domestic_ignores_exchange_closes DateKey.ymd_utc Sample.pow01 "1y" Sample.itemsA
           [Sample.day 10; Sample.day 11] [Sample.price 1300; Sample.price 1300]
           [JS.Null; Sample.price 7] Sample.stocksA).
  reflexivity.
Defined.

(** * Further properties of the running-peak loop *)

Section DrawdownMore.

Lemma positive_Fin (x : JS.num) :
  is_positive x = true -> exists a, x = JS.Fin a /\ (0 < a)%Q.
Proof.
  destruct x as [a| | |]; try done. simpl. intros Ha%NumFacts.Qltb_lt. eauto.
Qed.

Lemma ltb_leb_False (x y : JS.num) : JS.ltb x y = true -> JS.leb y x = true -> False.
Proof. destruct x, y; NumFacts.order. Qed.

(** One turn of the loop from a maximum drawdown of 0. *)
Lemma drawdown_step_zero (p v : JS.num) :
  is_positive v = true -> p = JS.NInf \/ is_positive p = true ->
  (drawdown_step (p, JS.Fin 0) v).2 = JS.Fin 0 <-> JS.leb p v = true.
Proof.
  intros (a & -> & Ha)%positive_Fin Hp.
  assert (JS.Qzerob a = false) as Hza by (by apply NumFacts.Qzerob_pos).
  assert (JS.Qltb ((a - a) / a) 0 = false) as Hsame.
  { apply NumFacts.Qltb_ge. apply Qle_shift_div_l; lra. }
  destruct Hp as [->|(b & -> & Hb)%positive_Fin].
  - cbn. rewrite Hza. cbn. by rewrite Hsame.
  - assert (JS.Qzerob b = false) as Hzb by (by apply NumFacts.Qzerob_pos).
    cbn. destruct (JS.Qltb b a) eqn:Hba.
    + cbn. rewrite Hza. cbn. rewrite Hsame. split; [|done]. intros _.
      apply NumFacts.Qltb_lt in Hba. apply Qle_bool_iff. lra.
    + cbn. rewrite Hzb. cbn. apply NumFacts.Qltb_ge in Hba.
      destruct (JS.Qltb ((a - b) / b) 0) eqn:Hdd.
      * split.
        -- intros Heq.
           assert (JS.ltb (JS.Fin ((a - b) / b)) (JS.Fin 0) = true) as Hlt by exact Hdd.
           rewrite Heq in Hlt. discriminate Hlt.
        -- apply NumFacts.Qltb_lt in Hdd. intros Hle%Qle_bool_iff. exfalso.
           assert (0 <= (a - b) / b)%Q by (apply Qle_shift_div_l; lra). lra.
      * split; [|done]. intros _. apply NumFacts.Qltb_ge in Hdd.
        apply Qle_bool_iff.
        destruct (Qlt_le_dec a b) as [Hlt|Hge]; [|done]. exfalso.
        assert ((a - b) / b < 0)%Q by (apply Qlt_shift_div_r; lra). lra.
Qed.

Lemma positive_peak (l : list JS.num) :
  (forall v, v ∈ l -> is_positive v = true) ->
  ((drawdown_loop l).1 = JS.NInf /\ l = [] \/
   is_positive (drawdown_loop l).1 = true /\ (drawdown_loop l).1 ∈ l) /\
  forall w, w ∈ l -> JS.leb w (drawdown_loop l).1 = true.
Proof.
  intros Hpos. destruct (decide (l = [])) as [->|Hne].
  - split; [by left|]. by intros w Hw%elem_of_nil.
  - destruct (peak_is_max l) as [Hin Hmax]; [|done|].
    + intros v Hv. apply Hpos in Hv as (a & -> & _)%positive_Fin. done.
    + split; [|done]. right. split; [|done]. by apply Hpos.
Qed.

(** X6. On a series of positive numbers the maximum drawdown is 0 exactly
    when the series never falls: each value is at least every earlier one.
    A single value below an earlier one makes the result negative. *)
Theorem maxDrawdown_zero_iff (values : list JS.num) :
  (forall v, v ∈ values -> is_positive v = true) ->
  maxDrawdown values = JS.Fin 0 <->
  forall i j x y, i < j -> values !! i = Some x -> values !! j = Some y ->
                  JS.leb x y = true.
Proof.
  unfold maxDrawdown.
  induction values as [|v l IH] using rev_ind; intros Hpos.
  - split; [|done]. by intros _ i j x y _ Hx.
  - assert (forall w, w ∈ l -> is_positive w = true) as Hposl.
    { intros w Hw. apply Hpos, elem_of_app. by left. }
    assert (is_positive v = true) as Hv.
    { apply Hpos, elem_of_app. right. left. }
    specialize (IH Hposl).
    destruct (positive_peak l Hposl) as [Hpeak Hmax].
    destruct (drawdown_nonpositive l) as [_ Hmd].
    rewrite drawdown_loop_snoc.
    destruct (drawdown_loop l) as [p m] eqn:Hloop. cbn [fst snd] in *.
    assert (p = JS.NInf \/ is_positive p = true) as Hp by (destruct Hpeak as [[? _]|[? _]]; eauto).
    split.
    + intros Hzero.
      assert (m = JS.Fin 0) as ->.
      { rewrite drawdown_step_eq in Hzero. cbn [fst snd] in Hzero.
        destruct (JS.ltb _ m) eqn:Hlt; [|done].
        rewrite Hzero in Hlt. destruct (ltb_leb_False _ _ Hlt Hmd). }
      apply (drawdown_step_zero p v Hv Hp) in Hzero.
      intros i j x y Hij Hx Hy.
      destruct (decide (j < length l)) as [Hj|Hj].
      * rewrite lookup_app_l in Hx, Hy by lia. exact (proj1 IH eq_refl i j x y Hij Hx Hy).
      * assert (j = length l) as ->.
        { apply lookup_lt_Some in Hy. rewrite length_app in Hy. simpl in Hy. lia. }
        rewrite lookup_app_l in Hx by lia.
        rewrite list_lookup_middle in Hy by done. injection Hy as <-.
        eapply NumFacts.leb_trans; [|exact Hzero].
        apply Hmax. by eapply list_elem_of_lookup_2.
    + intros Hrise.
      assert (m = JS.Fin 0) as ->.
      { apply IH. intros i j x y Hij Hx Hy.
        apply (Hrise i j x y Hij); by apply lookup_app_l_Some. }
      apply drawdown_step_zero; [done..|].
      destruct Hpeak as [[-> _]|[_ Hin]].
      * by apply positive_Fin in Hv as (a & -> & _).
      * apply list_elem_of_lookup in Hin as [i Hi].
        apply (Hrise i (length l) p v).
        -- by eapply lookup_lt_Some.
        -- by apply lookup_app_l_Some.
        -- by apply list_lookup_middle.
Qed.

End DrawdownMore.

Lemma maxDrawdown_zero_iff_witness :
  maxDrawdown [JS.Fin 100; JS.Fin 100; JS.Fin 110] = JS.Fin 0.
Proof.
  apply (maxDrawdown_zero_iff [JS.Fin 100; JS.Fin 100; JS.Fin 110]).
  - intros v Hv. repeat (apply elem_of_cons in Hv as [->|Hv]; [reflexivity|]).
    by apply elem_of_nil in Hv.
  - intros i j x y Hij Hx Hy.
    destruct i as [|[|[|i]]], j as [|[|[|j]]]; try lia; try discriminate Hx;
      try discriminate Hy; injection Hx as <-; injection Hy as <-; reflexivity.
Defined.

(** * Further properties of [calcPortfolioMetrics] *)

Section ProberMore.

Import Prober.

Variable Math_pow : JS.num -> JS.num -> JS.num.
Variable toFixed2 : JS.num -> string.

Lemma norm_at_start (data : list (list Z * list JS.val)) (idx : nat)
    (d : list Z * list JS.val) :
  data !! idx = Some d -> start_priced d = true ->
  exists q, norm_at (normPrices data) idx 0 = JS.Fin q /\ (q == 1)%Q.
Proof.
  intros Hd Hstart. unfold norm_at, normPrices.
  rewrite list_lookup_total_alt, list_lookup_fmap, Hd. cbn [fmap option_fmap option_map default].
  unfold start_priced, JS.index in *.
  destruct d.2 as [|[| |[c| | |]] rest]; try done.
  cbn in *. apply negb_true_iff in Hstart. rewrite Hstart.
  exists (c / c)%Q. split; [done|].
  apply Qmult_inv_r. intros Hc. unfold JS.Qzerob in Hstart.
  apply Z.eqb_neq in Hstart. apply Hstart.
  unfold Qeq in Hc. simpl in Hc. lia.
Qed.

Lemma day_value_start (items : list item) (norm : list (list JS.num)) :
  forall (k : nat) (acc acc' : Q),
    (acc == acc')%Q ->
    (forall j it, items !! j = Some it ->
       JS.is_finite (weight it) = true /\
       exists q, norm_at norm (k + j) 0 = JS.Fin q /\ (q == 1)%Q) ->
    JS.eqv (forEach (fun val it idx => JS.add val (JS.mul (weight it) (norm_at norm idx 0)))
                    items k (JS.Fin acc))
           (foldl JS.add (JS.Fin acc') (map weight items)).
Proof.
  induction items as [|it items IH]; intros k acc acc' Hacc Hitems; [done|].
  destruct (Hitems 0 it eq_refl) as (Hw & q & Hq & Hone).
  destruct (weight it) as [w| | |] eqn:Hweight; try done.
  cbn [forEach map foldl]. rewrite Hweight. rewrite Nat.add_0_r in Hq. rewrite Hq.
  cbn [JS.mul JS.add]. apply IH.
  - rewrite Hone, Hacc. ring.
  - intros j it' Hj. replace (S k + j) with (k + S j) by lia. by apply Hitems.
Qed.

(** X7. The synthetic portfolio of [calcPortfolioMetrics] starts at the sum
    of the weights: when the first close of every trimmed series is a
    finite number other than 0, each normalized series starts at 1 and the
    first value of the portfolio is the sum of the weights (1 for a preset
    whose weights add up to 1). *)
Theorem prober_start_value (items : list item) (data : list (list Z * list JS.val))
    (n : nat) :
  length data = length items ->
  0 < n ->
  forallb (fun it => JS.is_finite (weight it)) items = true ->
  forallb start_priced data = true ->
  JS.eqv (JS.ToNumber (first_value (portfolioValues items (normPrices data) n)))
         (sum (map weight items)).
Proof.
  intros Hlen Hn Hweights Hstart.
  destruct n as [|n]; [lia|].
  unfold portfolioValues. cbn [seq map first_value JS.ToNumber].
  unfold day_value, sum. apply day_value_start; [reflexivity|].
  intros j it Hj. split.
  - rewrite forallb_forall in Hweights. apply Hweights, list_elem_of_In.
    by eapply list_elem_of_lookup_2.
  - destruct (lookup_lt_is_Some_2 data j) as [d Hd].
    { rewrite Hlen. by eapply lookup_lt_Some. }
    apply (norm_at_start data j d Hd).
    rewrite forallb_forall in Hstart. apply Hstart, list_elem_of_In.
    by eapply list_elem_of_lookup_2.
Qed.

(** X8. [calcPortfolioMetrics] does not forward-fill: in the division
    [p / startPrice] a [null] close is the number 0, so a series with
    [null] closes gives the same statistics as the series in which those
    days have a price of 0. *)
Theorem prober_null_close_is_zero (rng : string) (items : list item)
    (data : list (list Z * list JS.val)) (n : nat) :
  normPrices (map null_as_zero data) = normPrices data /\
  measure Math_pow toFixed2 rng items (map null_as_zero data) n =
  measure Math_pow toFixed2 rng items data n.
Proof.
  assert (normPrices (map null_as_zero data) = normPrices data) as Hnorm.
  { unfold normPrices. rewrite map_map. apply map_ext. intros d.
    unfold null_as_zero. cbn [snd]. rewrite map_map.
    assert (JS.ToNumber (JS.index (map (fun v => match v with
                                                 | JS.Null => JS.Num (JS.Fin 0)
                                                 | _ => v
                                                 end) d.2) 0)
            = JS.ToNumber (JS.index d.2 0)) as ->.
    { unfold JS.index. by destruct d.2 as [|[| |x] rest]. }
    apply map_ext. by intros [| |x]. }
  split; [done|]. unfold measure. rewrite Hnorm.
  assert ((map null_as_zero data !!! 0).1 = (data !!! 0).1) as ->; [|done].
  by destruct data.
Qed.

End ProberMore.

Lemma prober_start_value_witness :
  JS.eqv
    (JS.ToNumber
       (first_value (Prober.portfolioValues Sample.itemsP (Prober.normPrices Sample.dataP) 2)))
    (sum (map Prober.weight Sample.itemsP)).
Proof.
  apply (prober_start_value Sample.itemsP Sample.dataP 2);
    [reflexivity|lia|reflexivity|reflexivity].
Defined.
(** * Properties of the fetch functions *)

Section FetchCache.

Import Fetch.

Context {R : Type}.
Variable encodeURIComponent : string -> string.

#[local] Abbreviation fetchYahooData := (fetchYahooData (R := R) encodeURIComponent).
#[local] Abbreviation proxies := (proxies encodeURIComponent).

(** X9. [apiCache] after an awaited call of [fetchYahooData]: the entries
    of the other keys are as before; a chart object that was returned is
    cached under the key of the call; once the key is cached, a further call
    returns the same value and leaves the cache alone whatever the network
    does; and the key is absent afterwards only when the call had no cached
    value and every proxy failed, in which case the call returned [null]
    and the cache is as it was, so that the next call tries the network
    again. *)
Theorem fetchYahooData_cache (net : string -> response R) (apiCache : gmap string (option R))
    (symbol range interval : string) :
  let key := cacheKey symbol range interval in
  let res := (fetchYahooData net apiCache symbol range interval).1 in
  let cache' := (fetchYahooData net apiCache symbol range interval).2 in
  (forall k, k <> key -> cache' !! k = apiCache !! k) /\
  (forall x, res = Some x -> cache' !! key = Some (Some x)) /\
  (is_Some (cache' !! key) ->
   forall net', fetchYahooData net' cache' symbol range interval = (res, cache')) /\
  (cache' !! key = None ->
   res = None /\ cache' = apiCache /\ try_proxies net (proxies symbol range interval) = None).
Proof.
  intros key res cache'. unfold res, cache', Fetch.fetchYahooData. fold key.
  destruct (apiCache !! key) as [cached|] eqn:Hkey.
  - cbn [fst snd]. split_and!.
    + done.
    + by intros x ->.
    + intros _ net'. by rewrite Hkey.
    + intros Hnone. congruence.
  - destruct (try_proxies net (proxies symbol range interval)) as [r|] eqn:Htry; cbn [fst snd].
    + split_and!.
      * intros k Hk. by rewrite lookup_insert_ne.
      * intros x ->. by rewrite lookup_insert_eq.
      * intros _ net'. by rewrite lookup_insert_eq.
      * by rewrite lookup_insert_eq.
    + rewrite delete_insert_id by done. split_and!.
      * done.
      * done.
      * rewrite Hkey. by intros [? ?].
      * done.
Qed.


End FetchCache.

Section CacheKey.

Import Fetch Stdlib.Strings.Ascii.

Lemma append_cons (x : Ascii.ascii) (a b : string) : String x a +:+ b = String x (a +:+ b).
Proof. reflexivity. Qed.

Lemma append_assoc (a b c : string) : (a +:+ b) +:+ c = a +:+ b +:+ c.
Proof. induction a as [|x a IH]; [done|]. rewrite !append_cons. f_equal. exact IH. Qed.

Lemma includes_middle (a b : string) (c : Ascii.ascii) :
  includes (a +:+ String c b) c = true.
Proof.
  induction a as [|x a IH].
  - change (includes (String c b) c = true). simpl. by rewrite Ascii.eqb_refl.
  - rewrite append_cons. simpl. rewrite IH. apply orb_true_r.
Qed.

(** A string is cut in one way only at its last occurrence of [c]. *)
Lemma split_last (c : Ascii.ascii) (a a' b b' : string) :
  includes b c = false -> includes b' c = false ->
  a +:+ String c b = a' +:+ String c b' -> a = a' /\ b = b'.
Proof.
  intros Hb Hb'. revert a'.
  induction a as [|x a IH]; intros [|y a'] Heq; rewrite ?append_cons in Heq;
    change ("" +:+ String c b) with (String c b) in Heq;
    change ("" +:+ String c b') with (String c b') in Heq.
  - by injection Heq as ->.
  - injection Heq as -> ->. by rewrite includes_middle in Hb.
  - injection Heq as <- <-. by rewrite includes_middle in Hb'.
  - injection Heq as -> Heq. destruct (IH a' Heq) as [-> ->]. done.
Qed.

(** X11. The cache key [symbol-range-interval] names one request only:
    when the range and the interval contain no hyphen (as every range and
    interval of the script), two requests with the same key have the same
    symbol, range and interval, even for symbols that contain hyphens. *)
Theorem cacheKey_injective (s1 r1 i1 s2 r2 i2 : string) :
  includes r1 "-"%char = false -> includes i1 "-"%char = false ->
  includes r2 "-"%char = false -> includes i2 "-"%char = false ->
  cacheKey s1 r1 i1 = cacheKey s2 r2 i2 ->
  s1 = s2 /\ r1 = r2 /\ i1 = i2.
Proof.
  intros Hr1 Hi1 Hr2 Hi2 Hkey. unfold cacheKey in Hkey.
  change (s1 +:+ String "-"%char r1 +:+ String "-"%char i1 =
          s2 +:+ String "-"%char r2 +:+ String "-"%char i2) in Hkey.
  change (String "-"%char r1 +:+ String "-"%char i1)
    with ((String "-"%char r1) +:+ String "-"%char i1) in Hkey.
  change (String "-"%char r2 +:+ String "-"%char i2)
    with ((String "-"%char r2) +:+ String "-"%char i2) in Hkey.
  rewrite <- !append_assoc in Hkey.
  apply split_last in Hkey as [Hkey ->]; [|done..].
  apply split_last in Hkey as [-> ->]; done.
Qed.

Lemma history_interval_no_hyphen (range : string) :
  includes (history_interval range) "-"%char = false.
Proof.
  unfold history_interval. destruct (String.eqb range "10y"); [done|].
  by case_bool_decide.
Qed.

(** X12. [fetchHistory] asks for an interval that depends on the range
    only and has no hyphen, so that two of its requests, for ranges without
    a hyphen, share a cache entry only when they have the same symbol and
    the same range. *)
Theorem fetchHistory_keys (s1 r1 s2 r2 : string) :
  includes r1 "-"%char = false -> includes r2 "-"%char = false ->
  cacheKey s1 r1 (history_interval r1) = cacheKey s2 r2 (history_interval r2) ->
  s1 = s2 /\ r1 = r2.
Proof.
  intros Hr1 Hr2 Hkey. unfold cacheKey in Hkey.
  pose proof (history_interval_no_hyphen r1) as Hi1.
  pose proof (history_interval_no_hyphen r2) as Hi2.
  revert Hkey Hi1 Hi2.
  generalize (history_interval r1) as i1. generalize (history_interval r2) as i2.
  intros i2 i1 Hkey Hi1 Hi2.
  change (s1 +:+ String "-"%char r1 +:+ String "-"%char i1 =
          s2 +:+ String "-"%char r2 +:+ String "-"%char i2) in Hkey.
  change (String "-"%char r1 +:+ String "-"%char i1)
    with ((String "-"%char r1) +:+ String "-"%char i1) in Hkey.
  change (String "-"%char r2 +:+ String "-"%char i2)
    with ((String "-"%char r2) +:+ String "-"%char i2) in Hkey.
  rewrite <- !append_assoc in Hkey.
  apply split_last in Hkey as [Hkey _]; [|done..].
  apply split_last in Hkey as [-> ->]; done.
Qed.

End CacheKey.

Section StockData.

Import Fetch.

Lemma not_null_iff (v : JS.val) : JS.not_null v = true <-> v <> JS.Null.
Proof. by destruct v. Qed.

Lemma valid_iff (item : candle) :
  valid item = true <-> c item <> JS.Null /\ o item <> JS.Null.
Proof. unfold valid. by rewrite andb_true_iff, !not_null_iff. Qed.

Lemma filter_imap_sublist (p : candle -> bool) (ts : list Z) :
  forall g : nat -> Z -> candle,
    (forall i t, time (g i t) = t) ->
    sublist (map time (List.filter p (imap g ts))) ts.
Proof.
  induction ts as [|t ts IH]; intros g Hg; [done|].
  rewrite imap_cons. cbn [List.filter].
  destruct (p (g 0 t)).
  - cbn [map]. rewrite Hg. apply sublist_skip, IH. intros i t'. apply Hg.
  - apply sublist_cons, IH. intros i t'. apply Hg.
Qed.

Lemma elem_of_validData (timestamps : list Z) (quotes : quote) (item : candle) :
  item ∈ validData timestamps quotes <->
  exists i t, timestamps !! i = Some t /\
              item = candle_at (default [] (open quotes)) (default [] (high quotes))
                               (default [] (low quotes)) (default [] (close quotes)) i t /\
              c item <> JS.Null /\ o item <> JS.Null.
Proof.
  unfold validData. rewrite list_elem_of_In, filter_In, <- list_elem_of_In.
  rewrite elem_of_lookup_imap, valid_iff. split.
  - intros [(i & t & -> & Ht) Hvalid]. eauto.
  - intros (i & t & Ht & -> & Hvalid). eauto.
Qed.

(** X13. What [fetchStockData] makes of a chart object it can read: the
    three arrays [ohlc], [prices] and [timestamps] have one entry per kept
    observation, in the order of the input; an observation is kept exactly
    when neither its close nor its open is [null] (a value missing from a
    short or absent array is [undefined] and is kept); no price is
    [null]; and [lastUpdated] is the last kept timestamp, [null] when
    nothing is kept. *)
Theorem fetchStockData_parsed (symbol : string) (result : chart) (quotes : quote)
    (d : stock_data) :
  parse symbol result = Some d ->
  indicators result = Some quotes ->
  let ts := default [] (timestamp result) in
  prices d = map c (ohlc d) /\ timestamps d = map time (ohlc d) /\
  sublist (timestamps d) ts /\
  (forall item, item ∈ ohlc d <->
     exists i t, ts !! i = Some t /\
                 item = candle_at (default [] (open quotes)) (default [] (high quotes))
                                  (default [] (low quotes)) (default [] (close quotes)) i t /\
                 c item <> JS.Null /\ o item <> JS.Null) /\
  Forall (fun p => p <> JS.Null) (prices d) /\
  lastUpdated d = last (timestamps d) /\
  (lastUpdated d = None <-> prices d = []).
Proof.
  intros Hparse Hquotes ts. unfold parse in Hparse. rewrite Hquotes in Hparse.
  destruct (meta result) as [m|]; [|done]. injection Hparse as <-.
  cbn [prices timestamps ohlc lastUpdated]. fold ts.
  split_and!; [done|done| | | |done|].
  - apply filter_imap_sublist. by intros i t.
  - intros item. apply elem_of_validData.
  - apply Forall_forall. intros p (item & -> & Hitem)%list_elem_of_fmap.
    by apply elem_of_validData in Hitem as (i & t & _ & _ & Hc & _).
  - rewrite last_None. split.
    + intros Hnil%fmap_nil_inv. by rewrite Hnil.
    + intros Hnil%fmap_nil_inv. by rewrite Hnil.
Qed.

(** X14. [fetchStockData] falls back on the entry of [cloudCache.stocks]
    only when [fetchYahooData] gave a falsy value.  A chart object that
    cannot be read ([indicators.quote[0]] or [meta] missing) gives [null]
    even when the cloud cache has the symbol, and a chart object without
    [timestamp] is not an error: it gives a result without any price.  The
    API cache is left as [fetchYahooData] left it. *)
Theorem fetchStockData_fallback (encodeURIComponent : string -> string)
    (net : string -> response chart) (apiCache : gmap string (option chart))
    (stocks : gmap string stock_data) (symbol range interval : string) :
  let fetched := fetchYahooData encodeURIComponent net apiCache symbol range interval in
  let data := (fetchStockData encodeURIComponent net apiCache stocks symbol range interval).1 in
  (fetched.1 = None -> data = stocks !! symbol) /\
  (forall result, fetched.1 = Some result ->
     (indicators result = None \/ meta result = None) -> data = None) /\
  (forall result quotes m, fetched.1 = Some result ->
     indicators result = Some quotes -> meta result = Some m ->
     exists d, data = Some d /\ currentPrice d = regularMarketPrice m /\
               (timestamp result = None -> prices d = [] /\ lastUpdated d = None)) /\
  (fetchStockData encodeURIComponent net apiCache stocks symbol range interval).2 = fetched.2.
Proof.
  intros fetched data. unfold data, fetchStockData. fold fetched.
  destruct fetched as [[result|] cache']; cbn [fst snd]; split_and!; try done.
  - intros ? [= <-] [Hnone|Hnone]; unfold parse; rewrite Hnone; [done|].
    by destruct (indicators result).
  - intros ? quotes m [= <-] Hquotes Hmeta. unfold parse. rewrite Hquotes, Hmeta.
    eexists. split_and!; [done|done|]. intros ->. done.
Qed.

End StockData.

(** * Properties of the portfolio functions *)

Section PortfolioFacts.

Import Portfolio.

Lemma nonneg_leb (x : JS.num) : nonneg x = true -> JS.leb (JS.Fin 0) x = true.
Proof. by destruct x. Qed.

Lemma round4_nonneg (q : Q) : (0 <= q)%Q -> nonneg (round4 (JS.Fin q)) = true.
Proof.
  intros Hq. unfold round4.
  destruct (Qle_bool _ _); [by apply Qle_bool_iff|].
  assert (JS.Qltb q 0 = false) as -> by (by apply NumFacts.Qltb_ge).
  cbn [nonneg]. apply Qle_bool_iff.
  assert (0 <= Qfloor (Qabs q * inject_Z 10000 + (1 # 2)))%Z as Hn.
  { change 0%Z with (Qfloor 0). apply Qfloor_resp_le.
    pose proof (Qabs_nonneg q) as Habs.
    assert (0 <= Qabs q * inject_Z 10000)%Q; [|lra].
    apply Qmult_le_0_compat; [done|]. by vm_compute. }
  apply Qle_shift_div_l; [reflexivity|].
  rewrite Qmult_0_l. change 0%Q with (inject_Z 0). by rewrite <- Zle_Qle.
Qed.

Lemma div_nonneg (x y : JS.num) :
  nonneg x = true -> JS.gtb y (JS.Fin 0) = true -> nonneg (JS.div x y) = true.
Proof.
  destruct x as [a| | |]; try done. intros Ha. cbn in Ha. apply Qle_bool_iff in Ha.
  destruct y as [b| | |]; try done.
  intros Hb%NumFacts.Qltb_lt. cbn. rewrite NumFacts.Qzerob_pos by done.
  cbn. apply Qle_bool_iff. apply Qle_shift_div_l; lra.
Qed.

Lemma copy_quantity_nonneg (rate priceUSD weight : JS.num) :
  JS.gtb rate (JS.Fin 0) = true -> JS.gtb priceUSD (JS.Fin 0) = true ->
  nonneg weight = true ->
  nonneg (copy_quantity rate priceUSD weight) = true.
Proof.
  intros Hrate Hprice Hw. unfold copy_quantity.
  assert (nonneg (JS.div (JS.div (JS.mul (JS.Fin 10000000) weight) rate) priceUSD) = true)
    as Hq.
  { apply div_nonneg; [|done]. apply div_nonneg; [|done].
    destruct weight as [w| | |]; try done. cbn in *. apply Qle_bool_iff.
    apply Qle_bool_iff in Hw. apply Qmult_le_0_compat; [by vm_compute|done]. }
  destruct (JS.div _ priceUSD) as [q| | |]; try done.
  apply round4_nonneg. by apply Qle_bool_iff.
Qed.

Lemma exchangeRate_positive (st : state) : JS.gtb (exchangeRate st) (JS.Fin 0) = true.
Proof.
  unfold exchangeRate. destruct (JS.gtb (JS.ToNumber _) _) eqn:Hrate; [done|].
  by vm_compute.
Qed.

(** The entries [copyPortfolio] builds from a list of items. *)
Lemma copy_items_lookup (rate : JS.num) (price : string -> JS.val)
    (items : list Prober.item) (p : gmap string holding) (k : string) :
  foldl (copy_item rate price) p items !! k =
  match List.find (fun it => bool_decide (Prober.symbol it = k)) (rev items) with
  | Some it =>
      if JS.gtb (JS.ToNumber (price k)) (JS.Fin 0)
      then Some {| symbol := k; name := Prober.name it;
                   quantity := copy_quantity rate (JS.ToNumber (price k)) (Prober.weight it) |}
      else p !! k
  | None => p !! k
  end.
Proof.
  induction items as [|it items IH] using rev_ind; [done|].
  rewrite foldl_app, rev_app_distr. cbn [foldl rev app List.find].
  unfold copy_item at 1. cbv zeta. case_bool_decide as Hk.
  - subst k. destruct (JS.gtb _ _) eqn:Hprice.
    + by rewrite lookup_insert_eq.
    + rewrite IH. by destruct (List.find _ _).
  - destruct (JS.gtb (JS.ToNumber (price (Prober.symbol it))) _).
    + by rewrite lookup_insert_ne.
    + done.
Qed.

Lemma find_rev_last (k : string) (l1 l2 : list Prober.item) (item : Prober.item) :
  Prober.symbol item = k ->
  (forall it, it ∈ l2 -> Prober.symbol it <> k) ->
  List.find (fun it => bool_decide (Prober.symbol it = k)) (rev (l1 ++ item :: l2)) = Some item.
Proof.
  intros Hk Hl2. rewrite rev_app_distr. cbn [rev]. rewrite <- app_assoc. cbn [app].
  induction l2 as [|x l2 IH] using rev_ind.
  - cbn. by rewrite bool_decide_eq_true_2.
  - rewrite rev_app_distr. cbn [rev app List.find].
    rewrite bool_decide_eq_false_2.
    + apply IH. intros it Hit. apply Hl2, elem_of_app. by left.
    + apply Hl2, elem_of_app. right. left.
Qed.

(** X15. [copyPortfolio] replaces the portfolio: whatever was held before,
    the new portfolio has an entry exactly for the symbols of the preset
    whose fetched price is greater than 0 (an item without price is left
    out silently); the entry of a symbol comes from the last item of the
    preset with that symbol and holds the quantity computed from its weight.
    The exchange rate used is [currentExchangeRate] as [fetchExchangeRate]
    leaves it (the fetched price when there is a truthy one, the rate held
    before otherwise) when that is greater than 0, and 1400 when it is not;
    so it is always greater than 0.  The new portfolio is saved. *)
Theorem copyPortfolio_entries (exchangeData : option JS.val) (price : string -> JS.val)
    (items : list Prober.item) (st : state) :
  let st' := copyPortfolio exchangeData price items st in
  let rate := exchangeRate (fetchExchangeRate exchangeData st) in
  let current := currentExchangeRate (fetchExchangeRate exchangeData st) in
  current = match exchangeData with
            | Some currentPrice =>
                if JS.ToBoolean currentPrice then currentPrice else currentExchangeRate st
            | None => currentExchangeRate st
            end /\
  (JS.gtb (JS.ToNumber current) (JS.Fin 0) = true -> rate = JS.ToNumber current) /\
  (JS.gtb (JS.ToNumber current) (JS.Fin 0) = false -> rate = JS.Fin 1400) /\
  JS.gtb rate (JS.Fin 0) = true /\
  (forall k, is_Some (portfolio st' !! k) <->
     (exists item, item ∈ items /\ Prober.symbol item = k) /\
     JS.gtb (JS.ToNumber (price k)) (JS.Fin 0) = true) /\
  (forall l1 item l2,
     items = l1 ++ item :: l2 ->
     (forall it, it ∈ l2 -> Prober.symbol it <> Prober.symbol item) ->
     JS.gtb (JS.ToNumber (price (Prober.symbol item))) (JS.Fin 0) = true ->
     portfolio st' !! Prober.symbol item =
     Some {| symbol := Prober.symbol item; name := Prober.name item;
             quantity := copy_quantity rate (JS.ToNumber (price (Prober.symbol item)))
                                       (Prober.weight item) |}) /\
  (forall st2, currentExchangeRate st2 = currentExchangeRate st ->
     portfolio (copyPortfolio exchangeData price items st2) = portfolio st') /\
  myPortfolio st' = portfolio st'.
Proof.
  intros st' rate current. split_and!.
  - unfold current, fetchExchangeRate.
    destruct exchangeData as [v|]; [|done]. by destruct (JS.ToBoolean v).
  - intros Hrate. unfold rate, exchangeRate. fold current. by rewrite Hrate.
  - intros Hrate. unfold rate, exchangeRate. fold current. by rewrite Hrate.
  - apply exchangeRate_positive.
  - intros k. unfold st', copyPortfolio. cbn [portfolio save].
    rewrite copy_items_lookup, lookup_empty.
    destruct (List.find _ _) as [it|] eqn:Hfind.
    + apply find_some in Hfind as [Hin Hk%bool_decide_eq_true].
      apply in_rev, list_elem_of_In in Hin.
      destruct (JS.gtb _ _); split.
      * intros _. split; [by exists it|done].
      * by intros _.
      * by intros [? ?].
      * by intros [_ ?].
    + split; [by intros [? ?]|]. intros [(item & Hin & Hk) _].
      apply list_elem_of_In, in_rev in Hin.
      eapply find_none in Hfind; [|exact Hin]. cbn in Hfind.
      by rewrite bool_decide_eq_true_2 in Hfind.
  - intros l1 item l2 -> Hlast Hprice. unfold st', copyPortfolio. cbn [portfolio save].
    rewrite copy_items_lookup, (find_rev_last (Prober.symbol item) l1 l2 item) by done.
    by rewrite Hprice.
  - intros st2 Hrate. unfold st', copyPortfolio. cbn [portfolio save].
    assert (exchangeRate (fetchExchangeRate exchangeData st2) =
            exchangeRate (fetchExchangeRate exchangeData st)) as ->; [|done].
    unfold exchangeRate, fetchExchangeRate.
    destruct exchangeData as [v|]; [destruct (JS.ToBoolean v)|]; cbn; by rewrite ?Hrate.
  - done.
Qed.

Lemma well_formed_save (p : gmap string holding) (st : state) :
  (forall k item, p !! k = Some item ->
     symbol item = k /\ JS.leb (JS.Fin 0) (quantity item) = true) ->
  JS.ToBoolean (currentExchangeRate st) = true ->
  well_formed (save p st).
Proof. intros Hp Hrate. by split_and!. Qed.

Lemma well_formed_fetchExchangeRate (exchangeData : option JS.val) (st : state) :
  well_formed st -> well_formed (fetchExchangeRate exchangeData st).
Proof.
  intros (Hp & Hsaved & Hrate). unfold fetchExchangeRate.
  destruct exchangeData as [v|]; [|done].
  destruct (JS.ToBoolean v) eqn:Hv; by split_and!.
Qed.

Lemma well_formed_step (st : state) (a : action) :
  action_ok a = true -> well_formed st -> well_formed (step st a).
Proof.
  intros Hok Hst. pose proof Hst as (Hp & Hsaved & Hrate).
  destruct a as [sym nm|sym|sym val|exchangeData|exchangeData price items]; cbn [step].
  - unfold addToPortfolio. case_bool_decide; [done|]. cbn [fst].
    apply well_formed_save; [|done]. intros k item.
    rewrite lookup_insert. case_decide as Hk.
    + intros [= <-]. by subst.
    + apply Hp.
  - unfold removeFromPortfolio. case_bool_decide; [|done]. cbn [fst].
    apply well_formed_save; [|done]. intros k item Hk.
    apply lookup_delete_Some in Hk as [_ Hk]. by apply Hp.
  - unfold setQuantity. destruct (JS.leb _ val) eqn:Hval; [|done].
    case_bool_decide; [|done]. cbn [andb].
    apply well_formed_save; [|done]. intros k item.
    rewrite lookup_alter. case_decide as Hk.
    + subst k. destruct (portfolio st !! sym) as [old|] eqn:Hold; [|done].
      intros [= <-]. split; [|done]. by apply Hp in Hold as [? _].
    + apply Hp.
  - by apply well_formed_fetchExchangeRate.
  - unfold copyPortfolio.
    pose proof (well_formed_fetchExchangeRate exchangeData st Hst) as (_ & _ & Hrate').
    apply well_formed_save; [|done]. intros k item.
    rewrite copy_items_lookup, lookup_empty.
    destruct (List.find _ _) as [it|] eqn:Hfind; [|done].
    destruct (JS.gtb _ _) eqn:Hprice; [|done].
    intros [= <-]. split; [done|]. cbn [quantity].
    apply nonneg_leb, copy_quantity_nonneg; [apply exchangeRate_positive|done|].
    apply find_some in Hfind as [Hin _]. apply in_rev in Hin.
    cbn [action_ok] in Hok. rewrite forallb_forall in Hok. by apply Hok.
Qed.

(** X16. Whatever the user does (adding and removing symbols, typing
    quantities, refreshing the exchange rate, copying presets whose weights
    are not negative), starting from the empty portfolio: every entry of
    [portfolio] is stored under its own symbol, its quantity is a number
    that is not negative (never [NaN]), the item saved in [localStorage] is
    the current portfolio, and [currentExchangeRate] is a truthy number. *)
Theorem portfolio_invariant (actions : list action) :
  forallb action_ok actions = true ->
  well_formed (foldl step initial actions).
Proof.
  induction actions as [|a actions IH] using rev_ind; intros Hok.
  - by split_and!.
  - rewrite forallb_app in Hok. apply andb_true_iff in Hok as [Hactions Ha].
    cbn in Ha. rewrite andb_true_r in Ha.
    rewrite foldl_app. cbn [foldl]. apply well_formed_step; [done|]. by apply IH.
Qed.

(** X17. Adding a symbol that is not held stores it with quantity 1 and
    raises no alert; adding it again, under whatever name, changes nothing
    and raises the alert; removing it gives back the portfolio as it was
    before the addition; and removing a symbol that is not held changes
    nothing and raises the alert. *)
Theorem add_remove_round_trip (symbol name name' : string) (st : state) :
  portfolio st !! symbol = None ->
  let added := (addToPortfolio symbol name st).1 in
  (addToPortfolio symbol name st).2 = false /\
  portfolio added =
    <[symbol := {| symbol := symbol; name := name; quantity := JS.Fin 1 |}]>
      (portfolio st) /\
  addToPortfolio symbol name' added = (added, true) /\
  (removeFromPortfolio symbol added).2 = false /\
  portfolio (removeFromPortfolio symbol added).1 = portfolio st /\
  removeFromPortfolio symbol st = (st, true).
Proof.
  intros Hfree added. unfold added, addToPortfolio, removeFromPortfolio.
  rewrite (bool_decide_eq_false_2 (is_Some (portfolio st !! symbol)))
    by (rewrite Hfree; by intros [? ?]).
  cbn [fst snd save portfolio].
  rewrite (bool_decide_eq_true_2 (is_Some (<[symbol:=_]> (portfolio st) !! symbol)))
    by (by rewrite lookup_insert_eq).
  cbn [fst snd save portfolio]. split_and!; [done..| |done].
  by apply delete_insert_id.
Qed.

Lemma round4_error (q : Q) :
  (Qabs q < inject_Z (10 ^ 21))%Q ->
  exists r, round4 (JS.Fin q) = JS.Fin r /\ (Qabs (r - q) <= 1 # 20000)%Q.
Proof.
  intros Hsmall. unfold round4.
  assert (Qle_bool (inject_Z (10 ^ 21)) (Qabs q) = false) as ->.
  { apply not_true_iff_false. rewrite Qle_bool_iff. by apply Qlt_not_le. }
  eexists. split; [reflexivity|].
  set (n := Qfloor (Qabs q * inject_Z 10000 + (1 # 2))).
  pose proof (Qfloor_le (Qabs q * inject_Z 10000 + (1 # 2))) as Hlo.
  pose proof (Qlt_floor (Qabs q * inject_Z 10000 + (1 # 2))) as Hhi.
  fold n in Hlo, Hhi. rewrite inject_Z_plus in Hhi.
  change (inject_Z 1) with 1%Q in Hhi.
  change (inject_Z 10000) with (10000 # 1)%Q in *.
  apply Qabs_Qle_condition. unfold Qdiv.
  change (/ (10000 # 1))%Q with (1 # 10000)%Q.
  destruct (JS.Qltb q 0) eqn:Hsign.
  - apply NumFacts.Qltb_lt in Hsign.
    rewrite (Qabs_neg q) in Hlo, Hhi by lra.
    rewrite inject_Z_opp. generalize dependent (inject_Z n). intros z Hlo Hhi.
    split; lra.
  - apply NumFacts.Qltb_ge in Hsign.
    rewrite (Qabs_pos q) in Hlo, Hhi by lra.
    generalize dependent (inject_Z n). intros z Hlo Hhi.
    split; lra.
Qed.

(** X18. The quantity [copyPortfolio] gives an item is worth the item's
    share of the 10 million KRW up to the rounding to four decimals: for a
    positive price and exchange rate, the stored quantity times price times
    rate differs from 10,000,000 x weight by at most price x rate / 20000. *)
Theorem copy_quantity_budget (rate priceUSD weight : Q) :
  (0 < rate)%Q -> (0 < priceUSD)%Q ->
  (Qabs (10000000 * weight / rate / priceUSD) < inject_Z (10 ^ 21))%Q ->
  exists qty,
    copy_quantity (JS.Fin rate) (JS.Fin priceUSD) (JS.Fin weight) = JS.Fin qty /\
    (Qabs (qty * priceUSD * rate - 10000000 * weight) <= priceUSD * rate * (1 # 20000))%Q.
Proof.
  intros Hrate Hprice Hsmall. unfold copy_quantity. cbn [JS.mul JS.div].
  rewrite (NumFacts.Qzerob_pos rate) by done. cbn [JS.div].
  rewrite (NumFacts.Qzerob_pos priceUSD) by done.
  destruct (round4_error _ Hsmall) as (qty & -> & Herr).
  exists qty. split; [done|].
  set (x := (10000000 * weight / rate / priceUSD)%Q) in *.
  assert (10000000 * weight == x * priceUSD * rate)%Q as ->.
  { unfold x. field. split; lra. }
  apply Qabs_Qle_condition in Herr as [Hlo Hhi].
  apply Qabs_Qle_condition.
  assert (0 < priceUSD * rate)%Q as Hpr by (apply Qmult_lt_0_compat; lra).
  pose proof (Qmult_le_compat_r _ _ (priceUSD * rate) Hlo (Qlt_le_weak _ _ Hpr)) as H1.
  pose proof (Qmult_le_compat_r _ _ (priceUSD * rate) Hhi (Qlt_le_weak _ _ Hpr)) as H2.
  split; lra.
Qed.

End PortfolioFacts.

(** * Properties of the search, the price display, the cloud sync and the presets *)

Section SearchFacts.

Import Search Stdlib.Strings.Ascii.

Lemma includes_app (a b : string) (c : Ascii.ascii) :
  Fetch.includes (a +:+ b) c = Fetch.includes a c || Fetch.includes b c.
Proof.
  induction a as [|x a IH]; [done|].
  change (String x a +:+ b) with (String x (a +:+ b)). cbn [Fetch.includes].
  by rewrite IH, orb_assoc.
Qed.

Lemma append_empty (a b : string) : a +:+ b = "" -> a = "" /\ b = "".
Proof. by destruct a. Qed.

(** X19. The symbol [handleSearch] looks up.  Nothing is searched only
    when the input, the remembered symbol and the exchange suffix are all
    empty; with an empty input and no remembered symbol a selected exchange
    makes the function search for the bare suffix.  A symbol that contains
    a dot is never given a suffix, so that, with a suffix that contains a
    dot, the symbol found contains one and is found again, whatever exchange
    is selected then, when it is typed or remembered. *)
Theorem search_symbol_cases (typed currentSearchSymbol suffix : string) :
  (search_symbol typed currentSearchSymbol suffix = None <->
   typed = "" /\ currentSearchSymbol = "" /\ suffix = "") /\
  (typed = "" -> currentSearchSymbol = "" -> suffix <> "" ->
   search_symbol typed currentSearchSymbol suffix = Some suffix) /\
  (Fetch.includes typed "." = true ->
   search_symbol typed currentSearchSymbol suffix = Some typed) /\
  (forall s, search_symbol typed currentSearchSymbol suffix = Some s ->
     Fetch.includes suffix "." = true ->
     Fetch.includes s "." = true /\
     forall suffix' other,
       search_symbol "" s suffix' = Some s /\ search_symbol s other suffix' = Some s).
Proof.
  assert (forall s other suffix', Fetch.includes s "." = true ->
            search_symbol s other suffix' = Some s) as Hdot.
  { intros s other suffix' Hs. unfold search_symbol.
    destruct s as [|x s]; [done|]. cbn [String.eqb andb]. rewrite Hs.
    by rewrite andb_false_r. }
  split_and!.
  - unfold search_symbol. split.
    + destruct (String.eqb_spec typed "") as [->|Htyped];
        destruct (String.eqb_spec currentSearchSymbol "") as [->|Hcur];
        destruct (String.eqb_spec suffix "") as [->|Hsuffix]; cbn.
      * done.
      * by destruct suffix.
      * destruct (Fetch.includes currentSearchSymbol "."); cbn;
          by destruct currentSearchSymbol.
      * destruct (Fetch.includes currentSearchSymbol "."); cbn;
          [by destruct currentSearchSymbol|].
        destruct (String.eqb_spec (currentSearchSymbol +:+ suffix) "") as [He|]; [|done].
        by apply append_empty in He as [? ?].
      * by destruct typed.
      * destruct (Fetch.includes typed "."); cbn; [by destruct typed|].
        destruct (String.eqb_spec (typed +:+ suffix) "") as [He|]; [|done].
        by apply append_empty in He as [? ?].
      * by destruct typed.
      * destruct (Fetch.includes typed "."); cbn; [by destruct typed|].
        destruct (String.eqb_spec (typed +:+ suffix) "") as [He|]; [|done].
        by apply append_empty in He as [? ?].
    + by intros (-> & -> & ->).
  - intros -> -> Hsuffix. unfold search_symbol. cbn.
    destruct (String.eqb_spec suffix "") as [|_]; [done|]. cbn.
    by destruct suffix.
  - apply Hdot.
  - intros s Hs Hsuffix.
    assert (Fetch.includes s "." = true) as Hdotted.
    { unfold search_symbol in Hs.
      destruct (String.eqb_spec suffix "") as [->|_]; [done|]. cbn [negb andb] in Hs.
      set (symbol := if String.eqb typed "" && negb (String.eqb currentSearchSymbol "")
                     then currentSearchSymbol else typed) in Hs.
      destruct (Fetch.includes symbol ".") eqn:Hsym; cbn [negb] in Hs.
      - destruct (String.eqb symbol ""); [done|]. by injection Hs as <-.
      - destruct (String.eqb (symbol +:+ suffix) ""); [done|]. injection Hs as <-.
        rewrite includes_app, Hsuffix. apply orb_true_r. }
    split; [done|]. intros suffix' other. split; [|by apply Hdot].
    unfold search_symbol. destruct s as [|x s]; [done|].
    cbn [String.eqb andb negb]. rewrite Hdotted, andb_false_r. done.
Qed.

End SearchFacts.

Section DisplayFacts.

Import Display.

(** X20. The colour of the line chart ([currentPrice >= prevClose]) and
    the colour and sign of the price text ([current - prevClose >= 0]) show
    the same direction for all numbers except two equal infinities (where
    the difference is [NaN]); both are negative as soon as a price is
    [NaN].  For a previous close greater than 0 the sign put before the
    percentage is the sign of the percentage. *)
Theorem price_direction_consistent (current prevClose : JS.num) :
  (chart_isPositive current prevClose = price_isPositive current prevClose <->
   ~ (current = prevClose /\ (current = JS.PInf \/ current = JS.NInf))) /\
  (JS.is_nan current || JS.is_nan prevClose = true ->
   chart_isPositive current prevClose = false /\
   price_isPositive current prevClose = false) /\
  (is_positive prevClose = true -> JS.is_finite current = true ->
   price_isPositive current prevClose = JS.leb (JS.Fin 0) (percent current prevClose)).
Proof.
  unfold chart_isPositive, price_isPositive, percent. split_and!.
  - destruct current as [a| | |], prevClose as [b| | |]; cbn;
      try (split; [intros _ [? [?|?]]; congruence|done]);
      try (split; [done|intros H; exfalso; apply H; auto]).
    split; [intros _ [? [?|?]]; congruence|]. intros _.
    apply eq_true_iff_eq. rewrite !Qle_bool_iff. split; intros; lra.
  - destruct current as [a| | |], prevClose as [b| | |]; done.
  - destruct current as [a| | |], prevClose as [b| | |]; try done.
    cbn. intros Hb%NumFacts.Qltb_lt _. rewrite NumFacts.Qzerob_pos by done. cbn.
    apply eq_true_iff_eq. rewrite !Qle_bool_iff. split; intros Hd.
    + apply Qmult_le_0_compat; [|lra]. apply Qle_shift_div_l; lra.
    + destruct (Qlt_le_dec (a - b) 0) as [Hneg|]; [|done]. exfalso.
      assert ((a - b) / b < 0)%Q as Hq by (apply Qlt_shift_div_r; lra).
      lra.
Qed.

End DisplayFacts.

Section SyncFacts.

Import Sync.

(** X21. [syncDataFromDrive]: as soon as the cloud data has one of the
    three sections, the cloud wins: the portfolio becomes the cloud
    portfolio, empty when that section is missing (the local holdings are
    dropped), nothing is uploaded and [localStorage] is not written.  When
    the cloud data has none of the sections the local portfolio is kept and
    uploaded: [dbSet] is called with the local portfolio and the cached
    indices and stocks, and the outcome is that upload when [dbSet]
    succeeds and the error of the [catch] clause when it fails; there is an
    upload in no other case.  When reading the cloud fails nothing changes
    and the function ends in the [catch] clause. *)
Theorem syncDataFromDrive_cases (fetched : option cloud_data) (dbSet_ok : bool)
    (st : Portfolio.state) (cloudCache : cache) :
  let '(st', cloudCache', out) := syncDataFromDrive fetched dbSet_ok st cloudCache in
  Portfolio.myPortfolio st' = Portfolio.myPortfolio st /\
  Portfolio.currentExchangeRate st' = Portfolio.currentExchangeRate st /\
  (is_Some fetched -> portfolio cloudCache' = Portfolio.portfolio st') /\
  (out = Loaded <->
   exists cloudData, fetched = Some cloudData /\
     (is_Some (data_portfolio cloudData) \/ is_Some (data_indices cloudData) \/
      is_Some (data_stocks cloudData))) /\
  (out = Loaded ->
   exists cloudData, fetched = Some cloudData /\
     Portfolio.portfolio st' = default ∅ (data_portfolio cloudData) /\
     indices cloudCache' = default ∅ (data_indices cloudData) /\
     stocks cloudCache' = default ∅ (data_stocks cloudData)) /\
  (out <> Loaded ->
   st' = st /\ indices cloudCache' = indices cloudCache /\
   stocks cloudCache' = stocks cloudCache) /\
  (forall fullData, out = Uploaded fullData ->
   fullData = cloudCache' /\ portfolio fullData = Portfolio.portfolio st) /\
  (forall cloudData,
     fetched = Some cloudData ->
     data_portfolio cloudData = None -> data_indices cloudData = None ->
     data_stocks cloudData = None ->
     cloudCache' = {| portfolio := Portfolio.portfolio st;
                      indices := indices cloudCache;
                      stocks := stocks cloudCache |} /\
     out = if dbSet_ok then Uploaded cloudCache' else SyncError) /\
  (out = Uploaded cloudCache' <->
   dbSet_ok = true /\
   exists cloudData, fetched = Some cloudData /\
     data_portfolio cloudData = None /\ data_indices cloudData = None /\
     data_stocks cloudData = None) /\
  (fetched = None -> cloudCache' = cloudCache /\ out = SyncError).
Proof.
  unfold syncDataFromDrive. destruct fetched as [cloudData|].
  - destruct (bool_decide (is_Some (data_portfolio cloudData)) || _ || _) eqn:Hany.
    + assert (is_Some (data_portfolio cloudData) \/ is_Some (data_indices cloudData) \/
              is_Some (data_stocks cloudData)) as Hsome.
      { apply orb_true_iff in Hany as [Hany|Hany];
          [apply orb_true_iff in Hany as [Hany|Hany]|];
          apply bool_decide_eq_true in Hany; auto. }
      cbn. split_and!; try done.
      * split; [|done]. intros _. by exists cloudData.
      * intros _. by exists cloudData.
      * intros d [= <-] Hp Hi Hs. rewrite Hp, Hi, Hs in Hsome.
        destruct Hsome as [[? ?]|[[? ?]|[? ?]]]; done.
      * split; [done|]. intros (_ & d & [= <-] & Hp & Hi & Hs).
        rewrite Hp, Hi, Hs in Hsome.
        destruct Hsome as [[? ?]|[[? ?]|[? ?]]]; done.
    + cbn. apply orb_false_iff in Hany as [Hany Hs]. apply orb_false_iff in Hany as [Hp Hi].
      apply bool_decide_eq_false in Hp, Hi, Hs.
      apply eq_None_not_Some in Hp. apply eq_None_not_Some in Hi.
      apply eq_None_not_Some in Hs.
      split_and!; try done.
      * split; [by destruct dbSet_ok|]. intros (d & [= <-] & [Hd|[Hd|Hd]]).
        -- rewrite Hp in Hd. by destruct Hd.
        -- rewrite Hi in Hd. by destruct Hd.
        -- rewrite Hs in Hd. by destruct Hd.
      * by destruct dbSet_ok.
      * intros fullData. destruct dbSet_ok; [|done]. by intros [= <-].
      * split.
        -- destruct dbSet_ok; [|done]. intros _. split; [done|]. by exists cloudData.
        -- intros [-> _]. done.
  - cbn. split_and!; try done.
    + split; [done|]. by intros (? & ? & _).
    + split; [done|]. by intros (_ & ? & ? & _).
Qed.

End SyncFacts.

Section PresetFacts.

Import Presets.

(** X22. The table of recommended portfolios: the ids are distinct; in
    each preset the symbols are distinct, every weight is greater than 0
    and the weights, as the decimals written in the script, add up to 1.
    So [copyPortfolio] never overwrites an item of a preset by a later one,
    and the synthetic portfolio of [calcPortfolioMetrics] starts at 1. *)
Theorem recommendedPortfolios_well_formed :
  NoDup (map id recommendedPortfolios) /\
  Forall (fun pf =>
            items pf <> [] /\
            NoDup (map Prober.symbol (items pf)) /\
            forallb (fun it => is_positive (Prober.weight it)) (items pf) = true /\
            JS.eqv (sum (map Prober.weight (items pf))) (JS.Fin 1))
         recommendedPortfolios.
Proof.
  split.
  - apply (bool_decide_unpack _). vm_compute. reflexivity.
  - unfold recommendedPortfolios.
    repeat (apply Forall_cons; split;
            [split_and!;
             [discriminate
             |apply (bool_decide_unpack _); vm_compute; reflexivity
             |vm_compute; reflexivity
             |vm_compute; reflexivity]|]).
    apply Forall_nil_2.
Qed.

End PresetFacts.


Lemma cacheKey_injective_witness :
  "BRK-B" = "BRK-B" /\ "1y" = "1y" /\ "1d" = "1d".
Proof.
  apply (cacheKey_injective "BRK-B" "1y" "1d" "BRK-B" "1y" "1d"); reflexivity.
Defined.

Lemma fetchHistory_keys_witness : "BRK-B" = "BRK-B" /\ "10y" = "10y".
Proof.
  apply (fetchHistory_keys "BRK-B" "10y" "BRK-B" "10y"); reflexivity.
Defined.

Lemma fetchStockData_parsed_witness :
  Forall (fun p => p <> JS.Null)
         (from_option Fetch.prices [] (Fetch.parse "AAPL" Sample.chartS)).
Proof.
  destruct (Fetch.parse "AAPL" Sample.chartS) as [d|] eqn:Hparse; [|apply Forall_nil_2].
  destruct (fetchStockData_parsed "AAPL" Sample.chartS _ d Hparse eq_refl)
    as (_ & _ & _ & _ & Hprices & _).
  exact Hprices.
Defined.

Lemma portfolio_invariant_witness :
  well_formed
    (foldl Portfolio.step Portfolio.initial
       [ Portfolio.Add "AAPL" "Apple";
         Portfolio.SetQuantity "AAPL" (JS.Fin 3);
         Portfolio.Copy (Some (Sample.price 1300)) (fun _ => Sample.price 100) Sample.itemsP;
         Portfolio.Remove "VTI" ]).
Proof.
  apply (portfolio_invariant
           [ Portfolio.Add "AAPL" "Apple";
             Portfolio.SetQuantity "AAPL" (JS.Fin 3);
             Portfolio.Copy (Some (Sample.price 1300)) (fun _ => Sample.price 100) Sample.itemsP;
             Portfolio.Remove "VTI" ]).
  reflexivity.
Defined.

Lemma add_remove_round_trip_witness :
  Portfolio.portfolio
    (Portfolio.removeFromPortfolio "AAPL"
       (Portfolio.addToPortfolio "AAPL" "Apple" Portfolio.initial).1).1
  = Portfolio.portfolio Portfolio.initial.
Proof.
  destruct (add_remove_round_trip "AAPL" "Apple" "Apple" Portfolio.initial eq_refl)
    as (_ & _ & _ & _ & Hback & _).
  exact Hback.
Defined.

Lemma copy_quantity_budget_witness :
  exists qty,
    Portfolio.copy_quantity (JS.Fin 1400) (JS.Fin 100) (JS.Fin (1 # 2)) = JS.Fin qty /\
    (Qabs (qty * 100 * 1400 - 10000000 * (1 # 2)) <= 100 * 1400 * (1 # 20000))%Q.
Proof.
  apply (copy_quantity_budget 1400 100 (1 # 2)); reflexivity.
Defined.

(** * The total return and the values of the synthetic portfolio *)

Section ReturnFacts.

Import Analyze.

Variable ymd : Z -> string.
Variable pow : JS.num -> JS.num -> JS.num.

(** The numbers that are falsy: 0 and [NaN]. *)
Lemma falsy_cases (x : JS.num) :
  JS.ToBoolean (JS.Num x) = false <->
  x = JS.NaN \/ exists a, x = JS.Fin a /\ Qnum a = 0%Z.
Proof.
  destruct x as [a| | |]; cbn.
  - unfold JS.Qzerob. rewrite negb_false_iff, Z.eqb_eq. split.
    + intros Ha. right. by exists a.
    + by intros [?|(? & [= <-] & ?)].
  - split; [done|]. by intros [?|(? & ? & _)].
  - split; [done|]. by intros [?|(? & ? & _)].
  - split; [by left|done].
Qed.

Lemma falsy_mul (x y : JS.num) :
  JS.ToBoolean (JS.Num x) = false -> JS.ToBoolean (JS.Num (JS.mul x y)) = false.
Proof.
  intros [->|(a & -> & Ha)]%falsy_cases; [done|].
  destruct y as [b| | |]; cbn.
  - unfold JS.Qzerob. cbn. by rewrite Ha.
  - by rewrite Ha.
  - by rewrite Ha.
  - done.
Qed.

Lemma falsy_add (x y : JS.num) :
  JS.ToBoolean (JS.Num x) = false -> JS.ToBoolean (JS.Num y) = false ->
  JS.ToBoolean (JS.Num (JS.add x y)) = false.
Proof.
  intros [->|(a & -> & Ha)]%falsy_cases [->|(b & -> & Hb)]%falsy_cases; try done.
  cbn. unfold JS.Qzerob. cbn. by rewrite Ha, Hb.
Qed.

Lemma falsy_sum (l : list JS.num) :
  (forall x, x ∈ l -> JS.ToBoolean (JS.Num x) = false) ->
  JS.ToBoolean (JS.Num (sum l)) = false.
Proof.
  unfold sum. assert (JS.ToBoolean (JS.Num (JS.Fin 0)) = false) as H0 by done.
  revert H0. generalize (JS.Fin 0) as acc.
  induction l as [|x l IH]; intros acc Hacc Hl; [done|]. cbn [foldl].
  apply IH.
  - apply falsy_add; [done|]. apply Hl. left.
  - intros y Hy. apply Hl. by right.
Qed.

(** The value of a holding whose price is 0, whatever its quantity and the
    exchange rate. *)
Lemma falsy_contribution (rate : JS.val) (item : holding) :
  JS.ToBoolean (JS.Num (contribution rate item (JS.Num (JS.Fin 0)))) = false.
Proof.
  unfold contribution. destruct (isKRW item); repeat apply falsy_mul; done.
Qed.

(** The division by a first valuation that is 0 or not a number. *)
Lemma totalReturn_of_falsy (values : list JS.num) :
  JS.ToBoolean (first_value values) = false ->
  JS.is_finite (totalReturn_of values) = false.
Proof.
  unfold totalReturn_of. destruct values as [|v l]; [done|].
  cbn [first_value JS.ToNumber].
  intros [->|(a & -> & Ha)]%falsy_cases.
  - by destruct (JS.ToNumber (last_value (JS.NaN :: l))).
  - assert (JS.Qzerob a = true) as Hzero by (by apply Z.eqb_eq).
    destruct (JS.ToNumber (last_value (JS.Fin a :: l))) as [b| | |];
      cbn [JS.sub JS.div JS.neg]; rewrite ?Hzero.
    + by destruct (Qnum (b - a) ?= 0)%Z.
    + by destruct (JS.Qltb a 0).
    + by destruct (JS.Qltb a 0).
    + done.
Qed.

Lemma run_values_prefix (items : list holding) (exchange : series)
    (stocks : list (option series)) (l l' : list string) :
  exists tail,
    portfolioValues (run ymd items exchange stocks (l ++ l')) =
    portfolioValues (run ymd items exchange stocks l) ++ tail.
Proof.
  induction l' as [|d l' [tail IH]] using rev_ind.
  - exists []. by rewrite !app_nil_r.
  - rewrite app_assoc, run_values_snoc, IH, <- app_assoc. eauto.
Qed.

(** X23. The total return divides by the first valuation without a check.
    When the first valuation is 0 or [NaN] (and on an empty axis, where it
    is [undefined]) the total return is [NaN] or an infinity, never a
    finite number.  This is the case whenever no holding has a close that
    is not [null] on the first date of the axis (the exchange-rate series
    starts before every stock series, or the first closes are [null]): each
    holding then counts at price 0, and the first valuation is 0, or [NaN]
    when a quantity is not a finite number. *)
Theorem totalReturn_not_finite (range : string) (items : list holding) (exchange : series)
    (stocks : list (option series)) :
  let r := analyze ymd pow range items exchange stocks in
  (JS.ToBoolean (first_value (values r)) = false ->
   JS.is_finite (totalReturn r) = false) /\
  (labels r = [] -> JS.is_finite (totalReturn r) = false) /\
  (forall d rest,
     sortedDates ymd exchange stocks = d :: rest ->
     (forall idx, idx < length items ->
        has_value (dateToStocks ymd stocks !!! idx) d = false) ->
     (exists v, first_value (values r) = JS.Num v /\
        (v = JS.NaN \/ exists a, v = JS.Fin a /\ (a == 0)%Q)) /\
     JS.is_finite (totalReturn r) = false).
Proof.
  intros r.
  assert (JS.ToBoolean (first_value (values r)) = false ->
          JS.is_finite (totalReturn r) = false) as Hfalsy.
  { apply totalReturn_of_falsy. }
  split_and!.
  - exact Hfalsy.
  - intros Hnil. apply Hfalsy.
    destruct (valuation_values ymd items exchange stocks) as [Hl Hv].
    unfold r, analyze in *. cbn [values labels] in *. rewrite Hv, <- Hl, Hnil. done.
  - intros d rest Haxis Hnone.
    assert (exists v, first_value (values r) = JS.Num v /\
                      JS.ToBoolean (JS.Num v) = false) as (v & Hv & Hzero).
    { unfold r, analyze, valuation. cbn [values]. rewrite Haxis.
      destruct (run_values_prefix items exchange stocks [d] rest) as [tail Htail].
      cbn [app] in Htail. rewrite Htail.
      pose proof (run_values_snoc ymd items exchange stocks [] d) as Hfirst.
      cbn [app] in Hfirst. cbv zeta in Hfirst. rewrite Hfirst.
      change (portfolioValues (run ymd items exchange stocks [])) with (@nil JS.num).
      cbn [app first_value].
      eexists. split; [reflexivity|].
      apply falsy_sum. intros x Hx.
      apply elem_of_lookup_imap in Hx as (j & item & -> & Hitem).
      assert (j < length items) as Hj by (by eapply lookup_lt_Some).
      destruct (run_state ymd items exchange stocks [d]) as (_ & Hprices & _).
      unfold JS.index. rewrite Hprices, list_lookup_fmap, lookup_seq_lt by done.
      cbn [fmap option_fmap option_map default foldl]. unfold fill.
      rewrite Nat.add_0_l, (Hnone j Hj). apply falsy_contribution. }
    split.
    + exists v. split; [done|].
      apply falsy_cases in Hzero as [->|(a & -> & Ha)]; [by left|right].
      exists a. split; [done|]. unfold Qeq. cbn. lia.
    + apply Hfalsy. by rewrite Hv.
Qed.

End ReturnFacts.

Section ProberValues.

Import Prober.

Lemma is_positive_Fin (x : JS.num) :
  is_positive x = true -> exists a, x = JS.Fin a /\ (0 < a)%Q.
Proof.
  destruct x as [a| | |]; try done. cbn. intros Ha%NumFacts.Qltb_lt. eauto.
Qed.

Lemma Qdiv_le_compat (a b c d : Q) :
  (0 <= a)%Q -> (a <= b)%Q -> (0 < c)%Q -> (c <= d)%Q -> (a / d <= b / c)%Q.
Proof.
  intros Ha Hab Hc Hcd.
  apply Qle_shift_div_l; [done|].
  assert (a / d * c == (a * c) / d)%Q as -> by (field; lra).
  apply Qle_shift_div_r; [lra|]. nra.
Qed.

Lemma count_succ {A : Type} (x : A) (l : list A) : (count (x :: l) == count l + 1)%Q.
Proof.
  unfold count. cbn [length]. rewrite Nat2Z.inj_succ. unfold Z.succ.
  by rewrite inject_Z_plus.
Qed.

Lemma count_nonneg {A : Type} (l : list A) : (0 <= count l)%Q.
Proof. unfold count, Qle. cbn. lia. Qed.

Lemma count_positive {A : Type} (l : list A) : l <> [] -> (1 <= count l)%Q.
Proof. destruct l; [done|]. intros _. unfold count, Qle. cbn. lia. Qed.

(** The normalized closes of a series between [lo] and [hi]. *)
Lemma norm_at_within (lo hi : Q) (data : list (list Z * list JS.val)) (n idx i : nat)
    (d : list Z * list JS.val) :
  (0 < lo)%Q ->
  data !! idx = Some d -> i < n ->
  (n <=? length d.2)%nat && forallb (close_between lo hi) (take n d.2) = true ->
  exists q, norm_at (normPrices data) idx i = JS.Fin q /\
            (lo / hi <= q)%Q /\ (q <= hi / lo)%Q.
Proof.
  intros Hlo Hd Hi [Hlen Hpos]%andb_true_iff. apply Nat.leb_le in Hlen.
  rewrite forallb_forall in Hpos.
  assert (forall j, j < n ->
            exists a, d.2 !! j = Some (JS.Num (JS.Fin a)) /\ (lo <= a)%Q /\ (a <= hi)%Q)
    as Hclose.
  { intros j Hj. destruct (lookup_lt_is_Some_2 d.2 j) as [v Hv]; [lia|].
    assert (close_between lo hi v = true) as Hpv.
    { apply Hpos, list_elem_of_In. apply (list_elem_of_lookup_2 _ j).
      by rewrite lookup_take_lt. }
    destruct v as [| |x]; try done.
    apply within_Fin in Hpv as (a & -> & Ha). eauto. }
  destruct (Hclose 0) as (c0 & Hc0 & Hlo0 & Hhi0); [lia|].
  destruct (Hclose i Hi) as (ci & Hci & Hloi & Hhii).
  assert (normPrices data !!! idx =
          (fun p => JS.div (JS.ToNumber p) (JS.ToNumber (JS.index d.2 0))) <$> d.2) as Hrow.
  { unfold normPrices. by rewrite list_lookup_total_alt, list_lookup_fmap, Hd. }
  unfold norm_at. rewrite Hrow, list_lookup_fmap, Hci.
  unfold JS.index. rewrite Hc0.
  cbn. rewrite NumFacts.Qzerob_pos by lra.
  eexists. split; [done|]. split; apply Qdiv_le_compat; lra.
Qed.

Lemma day_value_within (items : list item) (norm : list (list JS.num)) (i : nat) (a b : Q) :
  forall (k : nat) (acc : Q),
    (forall j it, items !! j = Some it ->
       exists w q, weight it = JS.Fin w /\ norm_at norm (k + j) i = JS.Fin q /\
                   (a <= w * q)%Q /\ (w * q <= b)%Q) ->
    exists r,
      forEach (fun val it idx => JS.add val (JS.mul (weight it) (norm_at norm idx i)))
              items k (JS.Fin acc) = JS.Fin r /\
      (acc + count items * a <= r)%Q /\ (r <= acc + count items * b)%Q.
Proof.
  induction items as [|it items IH]; intros k acc Hitems.
  - exists acc. split; [done|]. change (count []) with 0%Q. split; lra.
  - destruct (Hitems 0 it eq_refl) as (w & q & Hw & Hq & Ha & Hb).
    cbn [forEach]. rewrite Hw. rewrite Nat.add_0_r in Hq. rewrite Hq. cbn [JS.mul JS.add].
    destruct (IH (S k) (acc + w * q)%Q) as (r & -> & Hle & Hge).
    { intros j it' Hj. replace (S k + j) with (k + S j) by lia. by apply Hitems. }
    exists r. split; [done|]. rewrite count_succ. split; lra.
Qed.

(** X24. Bounds on the synthetic portfolio of [calcPortfolioMetrics],
    numbers taken as exact rationals (the rounding of binary64 is not
    modelled).  When every asset has, among its first [n] trimmed closes,
    only numbers between [lo] and [hi], with [0 < lo], and every weight
    lies between [wlo] and [whi], with [0 < wlo], each of the [n] portfolio
    values lies between [wlo * lo / hi] and [whi * hi / lo] times the
    number of assets; so it is a finite number greater than 0, and the
    maximum drawdown lies between -1 and 0 (the card shows between -100%
    and 0%).  The ratio [hi / lo], the sum of the upper bounds of the
    weights and the inverse of [wlo] are taken to be at most 2^500: the
    values then stay between 2^-1000 and 2^1000, out of reach of an
    overflow or an underflow of binary64; without such bounds a division
    [p / startPrice] of the script can give [Infinity] or 0, which exact
    rationals do not show. *)
Theorem prober_values_bounded (items : list item) (data : list (list Z * list JS.val))
    (n : nat) (lo hi wlo whi : Q) :
  items <> [] ->
  length data = length items ->
  (0 < lo)%Q ->
  (0 < wlo)%Q ->
  (hi / lo <= inject_Z (2 ^ 500))%Q ->
  (count items * whi <= inject_Z (2 ^ 500))%Q ->
  (1 <= wlo * inject_Z (2 ^ 500))%Q ->
  forallb (fun it => within wlo whi (weight it)) items = true ->
  forallb (fun d => (n <=? length d.2)%nat && forallb (close_between lo hi) (take n d.2))
          data = true ->
  let values := portfolioValues items (normPrices data) n in
  Forall (fun v => within (count items * (wlo * (lo / hi)))
                          (count items * (whi * (hi / lo))) v = true /\
                   within (1 / inject_Z (2 ^ 1000)) (inject_Z (2 ^ 1000)) v = true /\
                   is_positive v = true) values /\
  JS.leb (JS.Fin (-1)) (maxDrawdown values) = true /\
  JS.leb (maxDrawdown values) (JS.Fin 0) = true.
Proof.
  intros Hne Hlen Hlo Hwlo Hratio Hwsum Hwinv Hweights Hdata values.
  assert (inject_Z (2 ^ 1000) == inject_Z (2 ^ 500) * inject_Z (2 ^ 500))%Q as Hsquare.
  { rewrite <- inject_Z_mult. by vm_compute. }
  assert (0 < inject_Z (2 ^ 500))%Q as Hbig by (by vm_compute).
  revert Hratio Hwsum Hwinv Hsquare Hbig.
  generalize (inject_Z (2 ^ 500)) as M. generalize (inject_Z (2 ^ 1000)) as M2.
  intros M2 M Hratio Hwsum Hwinv Hsquare Hbig.
  assert (Forall (fun v => within (count items * (wlo * (lo / hi)))
                                  (count items * (whi * (hi / lo))) v = true /\
                           within (1 / M2) M2 v = true /\
                           is_positive v = true) values) as Hvalues.
  { apply Forall_forall. intros v Hv. unfold values, portfolioValues in Hv.
    apply list_elem_of_fmap in Hv as (i & -> & Hi).
    apply elem_of_seq in Hi as [_ Hi]. cbn in Hi.
    (* the first close, which lies between [lo] and [hi] *)
    assert (lo <= hi)%Q as Hlohi.
    { destruct items as [|it0 items0]; [done|]. destruct data as [|d0 data0]; [done|].
      cbn [forallb] in Hdata. apply andb_true_iff in Hdata as [Hd0 _].
      apply andb_true_iff in Hd0 as [Hlen0 Hpos0]. apply Nat.leb_le in Hlen0.
      destruct (lookup_lt_is_Some_2 d0.2 0) as [c Hc]; [lia|].
      rewrite forallb_forall in Hpos0.
      assert (close_between lo hi c = true) as Hcb.
      { apply Hpos0, list_elem_of_In, (list_elem_of_lookup_2 _ 0).
        rewrite lookup_take_lt by lia. done. }
      destruct c as [| |x]; try done.
      apply within_Fin in Hcb as (a & _ & ? & ?). lra. }
    assert (0 < lo / hi)%Q as HL by (apply Qlt_shift_div_l; lra).
    assert (0 < hi / lo)%Q as HH by (apply Qlt_shift_div_l; lra).
    assert ((lo / hi) * (hi / lo) == 1)%Q as Hinv by (field; lra).
    destruct (day_value_within items (normPrices data) i
                (wlo * (lo / hi)) (whi * (hi / lo)) 0 0) as (r & Hr & Hge & Hle).
    { intros j it Hj.
      assert (within wlo whi (weight it) = true) as Hw.
      { rewrite forallb_forall in Hweights. apply Hweights, list_elem_of_In.
        by eapply list_elem_of_lookup_2. }
      apply within_Fin in Hw as (w & Hw & Hw1 & Hw2).
      destruct (lookup_lt_is_Some_2 data j) as [d Hd].
      { rewrite Hlen. by eapply lookup_lt_Some. }
      destruct (norm_at_within lo hi data n j i d Hlo Hd Hi) as (q & Hq & Hq1 & Hq2).
      { rewrite forallb_forall in Hdata. apply Hdata, list_elem_of_In.
        by eapply list_elem_of_lookup_2. }
      exists w, q. split_and!; [done|done|nra|nra]. }
    unfold day_value. rewrite Hr.
    pose proof (count_positive items Hne) as Hcount.
    assert (wlo <= whi)%Q as Hwlohi.
    { destruct items as [|it0 items0]; [done|].
      cbn [forallb] in Hweights. apply andb_true_iff in Hweights as [Hw0 _].
      apply within_Fin in Hw0 as (w & _ & ? & ?). lra. }
    set (L := (lo / hi)%Q) in *. set (H := (hi / lo)%Q) in *.
    set (c := count items) in *.
    assert (0 < wlo * L)%Q as HwL by nra.
    assert (0 < whi * H)%Q as HwH by nra.
    assert (wlo * L <= r)%Q as Hr1 by nra.
    split_and!.
    - apply within_Fin. exists r. split; [done|]. split; lra.
    - apply within_Fin. exists r. split; [done|].
      assert (0 < M2)%Q as HM2 by (rewrite Hsquare; nra).
      split.
      + apply Qle_shift_div_r; [done|]. rewrite Hsquare.
        assert (1 <= L * M)%Q as HLM by nra.
        assert (1 <= (wlo * M) * (L * M))%Q by nra.
        nra.
      + rewrite Hsquare.
        assert (c * (whi * H) <= M * M)%Q; [|lra].
        assert (0 <= c * whi)%Q by nra.
        nra.
    - cbn. apply NumFacts.Qltb_lt. lra. }
  split; [done|]. split.
  - apply drawdown_positive. intros v Hv. rewrite Forall_forall in Hvalues.
    destruct (Hvalues v Hv) as (_ & _ & (a & -> & Ha)%is_positive_Fin).
    cbn. by apply NumFacts.Qltb_lt.
  - apply drawdown_nonpositive.
Qed.

End ProberValues.

Section LoadFacts.

Import Portfolio.

Lemma migrate_lookup (l : list holding) (p : gmap string holding) (k : string) :
  foldl (fun p item => <[symbol item := item]> p) p l !! k =
  match List.find (fun item => bool_decide (symbol item = k)) (rev l) with
  | Some item => Some item
  | None => p !! k
  end.
Proof.
  induction l as [|item l IH] using rev_ind; [done|].
  rewrite foldl_app, rev_app_distr. cbn [foldl rev app List.find].
  case_bool_decide as Hk.
  - subst k. by rewrite lookup_insert_eq.
  - by rewrite lookup_insert_ne.
Qed.

(** X25. The start-up code: a portfolio saved as an array (the old
    format) becomes an object that holds, for each symbol of the array, the
    last item with that symbol, stored under that symbol, and is saved again
    in the new format; a portfolio saved as an object is taken as it is;
    and when nothing is saved, or what is saved cannot be parsed, the
    portfolio is empty. *)
Theorem load_cases (saved : saved_item) (stored : gmap string holding) :
  let st := load saved stored in
  currentExchangeRate st = JS.Num (JS.Fin 1400) /\
  (forall l, saved = SavedArray l ->
     myPortfolio st = portfolio st /\
     (forall k item, portfolio st !! k = Some item -> symbol item = k /\ item ∈ l) /\
     (forall l1 item l2, l = l1 ++ item :: l2 ->
        (forall other, other ∈ l2 -> symbol other <> symbol item) ->
        portfolio st !! symbol item = Some item)) /\
  (forall p, saved = SavedObject p -> portfolio st = p /\ myPortfolio st = stored) /\
  (saved = NotSaved -> portfolio st = ∅ /\ myPortfolio st = stored).
Proof.
  intros st. unfold st, load. split_and!.
  - by destruct saved.
  - intros l ->. cbn [save portfolio myPortfolio]. split_and!; [done| |].
    + intros k item. rewrite migrate_lookup, lookup_empty.
      destruct (List.find _ _) as [found|] eqn:Hfind; [|done].
      intros [= <-]. apply find_some in Hfind as [Hin Hk%bool_decide_eq_true].
      split; [done|]. by apply list_elem_of_In, in_rev.
    + intros l1 item l2 -> Hlast. rewrite migrate_lookup, rev_app_distr.
      cbn [rev]. rewrite <- app_assoc. cbn [app].
      assert (forall tail, List.find (fun x => bool_decide (symbol x = symbol item))
                             (rev l2 ++ item :: tail) = Some item) as ->; [|done].
      induction l2 as [|x l2 IH] using rev_ind; intros tail.
      * cbn. by rewrite bool_decide_eq_true_2.
      * rewrite rev_app_distr. cbn [rev app List.find].
        rewrite bool_decide_eq_false_2.
        -- apply IH. intros other Hother. apply Hlast, elem_of_app. by left.
        -- apply Hlast, elem_of_app. right. left.
  - by intros p ->.
  - by intros ->.
Qed.

End LoadFacts.

Lemma totalReturn_not_finite_witness :
  JS.is_finite (Analyze.totalReturn
                  (Analyze.analyze DateKey.ymd_utc Sample.pow01 "1y"
                     Sample.itemsF Sample.exchangeL Sample.stocksL)) = false.
Proof.
  destruct (totalReturn_not_finite DateKey.ymd_utc Sample.pow01 "1y"
              Sample.itemsF Sample.exchangeL Sample.stocksL) as (_ & _ & Hfirst).
  destruct (Hfirst "1970-01-11" ["1970-01-12"]) as [_ Hreturn].
  - vm_compute. reflexivity.
  - intros idx Hidx. destruct idx as [|idx]; [vm_compute; reflexivity|].
    cbn in Hidx. lia.
  - exact Hreturn.
Defined.

Lemma prober_values_bounded_witness :
  Forall (fun v => is_positive v = true)
         (Prober.portfolioValues Sample.itemsP (Prober.normPrices Sample.dataP) 2).
Proof.
  assert (Sample.itemsP <> []) as Hne by discriminate.
  assert (0 < 1)%Q as Hlo by (by vm_compute).
  assert (0 < 1 # 10)%Q as Hwlo by (by vm_compute).
  assert (1000 / 1 <= inject_Z (2 ^ 500))%Q as Hratio
    by (apply Qle_bool_iff; vm_compute; reflexivity).
  assert (count Sample.itemsP * 1 <= inject_Z (2 ^ 500))%Q as Hwsum
    by (apply Qle_bool_iff; vm_compute; reflexivity).
  assert (1 <= (1 # 10) * inject_Z (2 ^ 500))%Q as Hwinv
    by (apply Qle_bool_iff; vm_compute; reflexivity).
  destruct (prober_values_bounded Sample.itemsP Sample.dataP 2 1 1000 (1 # 10) 1
              Hne eq_refl Hlo Hwlo Hratio Hwsum Hwinv eq_refl eq_refl) as (Hvalues & _).
  eapply Forall_impl; [exact Hvalues|]. by intros v (_ & _ & ?).
Defined.
